(** * chatgpt-client: the branching-conversation client, embedded in Rocq

    The development follows [client.py].  A Python [str] is a [string],
    one character for each code point, all of them below 256; a Python
    [int] is a [Z], and a value whose type the code does not fix (what
    [json.load] returns, a conversation title, the index of the current
    conversation) is a [json] value.  The methods of
    [ChatClient] are computations in a state-and-exception monad over the
    frame's attributes; worker threads and the calls queued by
    [wx.CallAfter] are data in that state, run one at a time. *)

From Stdlib Require Import ZArith String Ascii List Lia DecimalString.
From stdpp Require Import base list strings.

Set Warnings "-register-all".
Open Scope string_scope.
Open Scope Z_scope.

(** ** Python values, exceptions and results *)

(** The values [json.load] produces, which are also the Python values the
    frame keeps in its dynamically typed attributes. *)
Inductive json : Type :=
  | JNull
  | JBool (b : bool)
  | JInt (z : Z)
  | JFloat (literal : string)
  | JStr (s : string)
  | JArr (items : list json)
  | JObj (fields : list (string * json)).

(** The exception classes the code can meet.  [DomainError] is the error
    [ConversationTree.change_branch] raises for an index out of bounds;
    [JSONDecodeError] carries [repr(e)], the text [load] prints. *)
Inductive exn : Type :=
  | ValueError
  | IndexError
  | KeyError
  | TypeError
  | AttributeError
  | OSError
  | JSONDecodeError (repr : string)
  | ProviderError
  | DomainError (index branch_index : Z).

Inductive outcome (A : Type) : Type :=
  | Ret (a : A)
  | Raise (e : exn).
Arguments Ret {A} a.
Arguments Raise {A} e.

#[global] Instance outcome_ret : MRet outcome := fun A a => Ret a.
#[global] Instance outcome_bind : MBind outcome :=
  fun A B f o => match o with Ret a => f a | Raise e => Raise e end.

(** [[f(a) for a in items]]: the first exception ends the comprehension. *)
Fixpoint map_outcome {A B : Type} (f : A -> outcome B) (items : list A)
  : outcome (list B) :=
  match items with
  | [] => Ret []
  | a :: rest =>
      match f a with
      | Ret b =>
          match map_outcome f rest with
          | Ret bs => Ret (b :: bs)
          | Raise e => Raise e
          end
      | Raise e => Raise e
      end
  end.

(** ** Strings *)

Definition nl : string := String (ascii_of_nat 10) EmptyString.

(** [f"{n}"] for an [int]. *)
Definition str_int (n : Z) : string := NilZero.string_of_int (Z.to_int n).

Definition len {A : Type} (l : list A) : Z := Z.of_nat (length l).

(** Python's whitespace among the code points below 256, which
    [str.split] cuts at: 9-13, 28-32, 133 (U+0085) and 160 (U+00A0). *)
Definition is_space (c : ascii) : bool :=
  let n := nat_of_ascii c in
  ((9 <=? n) && (n <=? 13) || (28 <=? n) && (n <=? 32)
   || (n =? 133) || (n =? 160))%nat.

Fixpoint lstrip (s : string) : string :=
  match s with
  | String c rest => if is_space c then lstrip rest else s
  | EmptyString => EmptyString
  end.

(** The first word of [s] (its characters up to the first whitespace) and
    what follows it. *)
Fixpoint span_word (s : string) : string * string :=
  match s with
  | String c rest =>
      if is_space c then (EmptyString, s)
      else let '(w, r) := span_word rest in (String c w, r)
  | EmptyString => (EmptyString, EmptyString)
  end.

(** [s.split(maxsplit=n)] with no separator: words are cut at runs of
    whitespace; after [n] cuts the remainder is kept whole, without its
    leading whitespace and with its trailing whitespace. *)
Fixpoint split_maxsplit (n : nat) (s : string) : list string :=
  match lstrip s with
  | EmptyString => []
  | r =>
      match n with
      | O => [r]
      | S n' => let '(w, rest) := span_word r in w :: split_maxsplit n' rest
      end
  end.

(** [s.split()]: no bound on the cuts; a string has fewer words than
    characters, so [length s] cuts are never used up. *)
Definition split (s : string) : list string :=
  split_maxsplit (String.length s) s.

Definition startswith (s p : string) : bool := String.prefix p s.

Definition is_digit (c : ascii) : bool :=
  let n := nat_of_ascii c in ((48 <=? n) && (n <=? 57))%nat.

Definition digit_value (c : ascii) : Z := Z.of_nat (nat_of_ascii c) - 48.

(** Decimal digits with single underscores allowed between digits, as
    [int] accepts them; [after_digit] tells whether the previous character
    was a digit. *)
Fixpoint parse_digits (acc : Z) (after_digit : bool) (s : string) : option Z :=
  match s with
  | EmptyString => if after_digit then Some acc else None
  | String c rest =>
      if is_digit c then parse_digits (10 * acc + digit_value c) true rest
      else if Ascii.eqb c "_"%char then
        if after_digit then parse_digits acc false rest else None
      else None
  end.

(** The whitespace [int] drops around a literal: below 128 that of C's
    [isspace], 9-13 and 32 (not 28-31, which [int] rejects), and above
    it the Unicode whitespace, 133 and 160. *)
Definition is_int_space (c : ascii) : bool :=
  let n := nat_of_ascii c in
  ((9 <=? n) && (n <=? 13) || (n =? 32) || (n =? 133) || (n =? 160))%nat.

Fixpoint int_lstrip (s : string) : string :=
  match s with
  | String c rest => if is_int_space c then int_lstrip rest else s
  | EmptyString => EmptyString
  end.

Fixpoint int_rstrip (s : string) : string :=
  match s with
  | String c rest =>
      match int_rstrip rest with
      | EmptyString => if is_int_space c then EmptyString else String c EmptyString
      | r => String c r
      end
  | EmptyString => EmptyString
  end.

Fixpoint count_digits (s : string) : nat :=
  match s with
  | String c rest =>
      if is_digit c then S (count_digits rest) else count_digits rest
  | EmptyString => O
  end.

(** [sys.get_int_max_str_digits()] as CPython 3.10.7 and later start
    with; [client.py] does not change it. *)
Definition int_max_str_digits : Z := 4300.

(** [int(s)] for a [str]: surrounding whitespace is dropped, then an
    optional sign and a decimal literal of at most
    [int_max_str_digits] digits; anything else is a [ValueError]. *)
Definition int (s : string) : outcome Z :=
  let body := int_rstrip (int_lstrip s) in
  let parsed :=
    match body with
    | String "-"%char rest => option_map Z.opp (parse_digits 0 false rest)
    | String "+"%char rest => parse_digits 0 false rest
    | _ => parse_digits 0 false body
    end in
  match parsed with
  | Some z =>
      if int_max_str_digits <? Z.of_nat (count_digits body)
      then Raise ValueError
      else Ret z
  | None => Raise ValueError
  end.

(** The capital of a letter, for the letters whose capital is one code
    point below 256: a-z and the letters of 224-254. *)
Definition upper (c : ascii) : ascii :=
  let n := nat_of_ascii c in
  if ((97 <=? n) && (n <=? 122)
      || (224 <=? n) && (n <=? 254) && negb (n =? 247))%nat
  then ascii_of_nat (n - 32) else c.

Definition lower (c : ascii) : ascii :=
  let n := nat_of_ascii c in
  if ((65 <=? n) && (n <=? 90)
      || (192 <=? n) && (n <=? 222) && negb (n =? 215))%nat
  then ascii_of_nat (n + 32) else c.

Fixpoint map_string (f : ascii -> ascii) (s : string) : string :=
  match s with
  | String c rest => String (f c) (map_string f rest)
  | EmptyString => EmptyString
  end.

(** [s.capitalize()]: the first character in title case, the others in
    lower case.  The title case of 223 (U+00DF) is ["Ss"]; that of 181
    (U+00B5) and of 255 (U+00FF) has a code point above 255, which a
    [string] does not hold, and these two are left as they are. *)
Definition capitalize (s : string) : string :=
  match s with
  | String c rest =>
      (if (nat_of_ascii c =? 223)%nat then "Ss"
       else String (upper c) EmptyString)
      +:+ map_string lower rest
  | EmptyString => EmptyString
  end.

Fixpoint repeat_string (s : string) (n : nat) : string :=
  match n with
  | O => EmptyString
  | S n' => s +:+ repeat_string s n'
  end.

(** ** Subscripts and iteration on Python values *)

(** The position [l[i]] names in a list of length [n]: a negative [i]
    counts from the end. *)
Definition list_position (n : nat) (i : Z) : outcome nat :=
  if (0 <=? i) && (i <? Z.of_nat n) then Ret (Z.to_nat i)
  else if (- Z.of_nat n <=? i) && (i <? 0) then Ret (Z.to_nat (Z.of_nat n + i))
  else Raise IndexError.

(** [l[idx]] for a list [l] of length [n] and an arbitrary value [idx]:
    only an [int] (or a [bool], which is one) is a list index. *)
Definition list_subscript (n : nat) (idx : json) : outcome nat :=
  match idx with
  | JInt i => list_position n i
  | JBool b => list_position n (if b then 1 else 0)
  | _ => Raise TypeError
  end.

Fixpoint assoc (k : string) (fields : list (string * json)) : option json :=
  match fields with
  | [] => None
  | (k', v) :: rest => if String.eqb k k' then Some v else assoc k rest
  end.

(** [v[k]] for a [str] key. *)
Definition getitem_str (v : json) (k : string) : outcome json :=
  match v with
  | JObj fields =>
      match assoc k fields with
      | Some x => Ret x
      | None => Raise KeyError
      end
  | _ => Raise TypeError
  end.

Definition chars (s : string) : list json :=
  map (fun c => JStr (String c EmptyString)) (list_ascii_of_string s).

(** [v[i]] for an [int] index: lists and strings are indexed, a dict
    decoded from JSON has only [str] keys. *)
Definition getitem_int (v : json) (i : Z) : outcome json :=
  match v with
  | JArr items =>
      p ← list_position (length items) i;
      match items !! p with Some x => Ret x | None => Raise IndexError end
  | JStr s =>
      p ← list_position (String.length s) i;
      match chars s !! p with Some x => Ret x | None => Raise IndexError end
  | JObj _ => Raise KeyError
  | _ => Raise TypeError
  end.

(** [for a in v]. *)
Definition iterate (v : json) : outcome (list json) :=
  match v with
  | JArr items => Ret items
  | JObj fields => Ret (map (fun kv => JStr (fst kv)) fields)
  | JStr s => Ret (chars s)
  | _ => Raise TypeError
  end.

(** [l[:n]]. *)
Definition slice_to {A : Type} (l : list A) (n : Z) : list A :=
  if 0 <=? n then take (Z.to_nat n) l
  else take (Z.to_nat (len l + n)) l.

(** [v == s] for a [str] literal [s]. *)
Definition eq_str (v : json) (s : string) : bool :=
  match v with
  | JStr s' => String.eqb s' s
  | _ => false
  end.

(** ** The conversation tree ([models.py])

    [client.py] imports [ChatMessage] and [ConversationTree] from
    [models.py]; the definitions of this part follow §3 and §4.2 of the
    specification. *)

(** Modelled from the spec: [models.ChatMessage], the Message of §3 (role,
    content, the ordered children it owns, and the optional index of its
    selected child, which the client reads as [current_child_idx]). *)
Inductive ChatMessage : Type :=
  mkChatMessage {
    role : string;
    content : string;
    children : list ChatMessage;
    current_child_idx : option nat }.

(** Modelled from the spec: [models.ConversationTree], the tree of §3; it
    has no root until the first message is added. *)
Record ConversationTree : Type :=
  mkConversationTree { root : option ChatMessage }.

(** Modelled from the spec: the constructor [ConversationTree()], an empty
    tree. *)
Definition new_tree : ConversationTree := mkConversationTree None.

(** Modelled from the spec: the walk of §3 from a node, following the
    selected child at each step until a node has none (or one that names
    no child). *)
Fixpoint walk (m : ChatMessage) : list ChatMessage :=
  m :: match m with
       | mkChatMessage _ _ cs (Some k) =>
           (fix pick (l : list ChatMessage) (i : nat) {struct l}
              : list ChatMessage :=
              match l, i with
              | [], _ => []
              | c :: _, O => walk c
              | _ :: l', S i' => pick l' i'
              end) cs k
       | mkChatMessage _ _ _ None => []
       end.

(** Modelled from the spec: [ConversationTree.get_current_conversation]
    of §4.2, the current path from the root. *)
Definition get_current_conversation (t : ConversationTree) : list ChatMessage :=
  match root t with
  | Some r => walk r
  | None => []
  end.

(** The [{'role': ..., 'content': ...}] dict of a message, as the workers
    send it and receive it. *)
Record message_dict : Type :=
  mkDict { dict_role : string; dict_content : string }.

(** Modelled from the spec: the [(role, content)] pair of a message, its
    entry in the sequence handed to a fetch (§4.3). *)
Definition as_dict (m : ChatMessage) : message_dict :=
  mkDict (role m) (content m).

(** Modelled from the spec: [get_current_conversation_as_dicts], the
    current path as the [(role, content)] sequence handed to a fetch
    (§4.3). *)
Definition get_current_conversation_as_dicts (t : ConversationTree)
  : list message_dict :=
  map as_dict (get_current_conversation t).

(** Modelled from the spec: the mutations of §4.2 change one node of the
    current path and nothing else; [update_path f d m] applies [f] to the
    node [d] steps down the current path from [m]. *)
Fixpoint update_path (f : ChatMessage -> ChatMessage) (d : nat) (m : ChatMessage)
  : ChatMessage :=
  match d with
  | O => f m
  | S d' =>
      match current_child_idx m with
      | Some k =>
          mkChatMessage (role m) (content m)
            (alter (update_path f d') k (children m)) (current_child_idx m)
      | None => m
      end
  end.

(** Modelled from the spec: a new Message has no children and no
    selected child (§3). *)
Definition leaf (r c : string) : ChatMessage := mkChatMessage r c [] None.

(** Modelled from the spec: in [add_message] the new node is appended at
    the end of the parent's children and becomes its selected child
    (§4.2). *)
Definition add_child (new : ChatMessage) (m : ChatMessage) : ChatMessage :=
  mkChatMessage (role m) (content m) (children m ++ [new])
    (Some (length (children m))).

(** Modelled from the spec: [change_branch] sets the selected child of
    one node and touches no other node (§4.2). *)
Definition select_child (k : nat) (m : ChatMessage) : ChatMessage :=
  mkChatMessage (role m) (content m) (children m) (Some k).

(** Modelled from the spec: [ConversationTree.add_message] of §4.2.
    Without [after_index] the new node is the root of an empty tree, or
    else a child of the current leaf; with it, the new node is one more
    child of the node at that position of the current path, and an index
    outside the path is an [IndexError]. *)
Definition add_message (r c : string) (after_index : option Z)
    (t : ConversationTree) : outcome ConversationTree :=
  let path := get_current_conversation t in
  match root t, after_index with
  | None, None => Ret (mkConversationTree (Some (leaf r c)))
  | None, Some _ => Raise IndexError
  | Some m, None =>
      Ret (mkConversationTree
             (Some (update_path (add_child (leaf r c)) (length path - 1) m)))
  | Some m, Some i =>
      if (0 <=? i) && (i <? len path) then
        Ret (mkConversationTree
               (Some (update_path (add_child (leaf r c)) (Z.to_nat i) m)))
      else Raise IndexError
  end.

(** Modelled from the spec: [ConversationTree.get_branch_width] of §4.2,
    the number of children of the node at [index] on the current path. *)
Definition get_branch_width (t : ConversationTree) (index : Z) : outcome nat :=
  if (0 <=? index) && (index <? len (get_current_conversation t)) then
    match get_current_conversation t !! Z.to_nat index with
    | Some m => Ret (length (children m))
    | None => Raise IndexError
    end
  else Raise IndexError.

(** Modelled from the spec: [ConversationTree.change_branch] of §4.2: the
    node at [index] on the current path selects its child [branch_index];
    either index out of bounds is a domain error and the tree is as it
    was. *)
Definition change_branch (t : ConversationTree) (index branch_index : Z)
  : outcome ConversationTree :=
  match root t, get_branch_width t index with
  | Some m, Ret width =>
      if (0 <=? branch_index) && (branch_index <? Z.of_nat width) then
        Ret (mkConversationTree
               (Some (update_path (select_child (Z.to_nat branch_index))
                        (Z.to_nat index) m)))
      else Raise (DomainError index branch_index)
  | _, _ => Raise (DomainError index branch_index)
  end.

(** ** Rendering a conversation *)

(** [l[i]] for a list and an [int]. *)
Definition list_getitem {A : Type} (l : list A) (i : Z) : outcome A :=
  p ← list_position (length l) i;
  match l !! p with Some x => Ret x | None => Raise IndexError end.

Definition speaker (r : string) : string :=
  if String.eqb r "system" then "System"
  else if String.eqb r "user" then "You"
  else if String.eqb r "assistant" then "ChatGPT"
  else capitalize r.

(** The body of the [for i, msg in enumerate(current_conv)] loop of
    [stringify_conversation], from index [i] on. *)
Fixpoint stringify_loop (conv : ConversationTree) (current_conv : list ChatMessage)
    (i : Z) (rest : list ChatMessage) (ret : string) : outcome string :=
  match rest with
  | [] => Ret ret
  | msg :: rest' =>
      let speaker_str := speaker (role msg) in
      header ←
        (if i =? 0 then
           Ret (str_int i +:+ ": <" +:+ speaker_str +:+ ">" +:+ nl)
         else
           branch_width ← get_branch_width conv (i - 1);
           prev ← list_getitem current_conv (i - 1);
           child_idx ← match current_child_idx prev with
                       | Some k => Ret (Z.of_nat k)
                       | None => Raise TypeError
                       end;
           Ret (str_int i +:+ ": <(" +:+ str_int (child_idx + 1) +:+ "/"
                +:+ str_int (Z.of_nat branch_width) +:+ ") " +:+ speaker_str
                +:+ ">" +:+ nl));
      let ret := ret +:+ header +:+ content msg in
      let ret :=
        if i <? len current_conv
        then ret +:+ nl +:+ repeat_string "-" 50 +:+ nl
        else ret in
      stringify_loop conv current_conv (i + 1) rest' ret
  end.

Definition stringify_conversation (conv : ConversationTree) : outcome string :=
  let current_conv := get_current_conversation conv in
  if len current_conv =? 0 then Ret ""
  else stringify_loop conv current_conv 0 current_conv "".

(** ** The frame and what runs beside it *)

(** The [and_then] closures handed to a worker.  [post_completion_branch]
    is the one [new_branch] builds when it regenerates a reply,
    [post_completion_conversation] the one of [new_child] and of
    [new_branch] for a user branch, [post_completion_title] the one of
    [get_title_for_conversation]; each keeps what the closure captures. *)
Inductive callback : Type :=
  | post_completion_branch (sibling_level : Z)
  | post_completion_conversation
  | post_completion_title (idx : json).

(** A started [threading.Thread]: its target and arguments.  A
    [ConversationTree] object is named by the position of its pair in
    [conversations]; pairs are only appended once the frame is up, so the
    position is a stable name, and a thread that is handed the tree object
    holds that position, not a copy of the tree. *)
Inductive thread : Type :=
  | completion_thread (conv : option nat) (and_then : callback)
      (truncate_before : option Z)
  | title_thread (conv : option nat) (and_then : callback).

(** A call queued for the frame's own thread by [wx.CallAfter]. *)
Inductive call : Type :=
  | call_add_to_branch (sibling_level : Z) (r c : string)
  | call_add_to_conversation (r c : string)
  | call_stop_thinking_state.

(** What a worker sent to [openai.ChatCompletion.create] as [messages].
    For a title the messages are the fixed system instruction and one user
    message whose content is [str(curr_conv)]; the request keeps
    [curr_conv] itself. *)
Inductive request : Type :=
  | completion_request (messages : list message_dict)
  | title_request (curr_conv : list message_dict).

(** The attributes of the [ChatClient] frame that the logic reads or
    writes ([right_text] is the transcript; the three controls are [true]
    when enabled), the threads started and not yet run, the calls queued
    by [wx.CallAfter], the lines printed to [sys.stderr], and the requests
    the provider has received.  The items shown in the conversation list
    box are not kept. *)
Record ChatClient : Type :=
  mkChatClient {
    conversations : list (json * ConversationTree);
    current_conversation : option nat;
    current_conversation_idx : json;
    right_text : string;
    input_text : string;
    right_button : bool;
    left_list : bool;
    left_button : bool;
    threads : list thread;
    call_after : list call;
    stderr : list string;
    requests : list request }.

Definition set_conversations (v : list (json * ConversationTree)) (st : ChatClient) :=
  mkChatClient v (current_conversation st) (current_conversation_idx st)
    (right_text st) (input_text st) (right_button st) (left_list st)
    (left_button st) (threads st) (call_after st) (stderr st) (requests st).

Definition set_current_conversation (v : option nat) (st : ChatClient) :=
  mkChatClient (conversations st) v (current_conversation_idx st)
    (right_text st) (input_text st) (right_button st) (left_list st)
    (left_button st) (threads st) (call_after st) (stderr st) (requests st).

Definition set_current_conversation_idx (v : json) (st : ChatClient) :=
  mkChatClient (conversations st) (current_conversation st) v
    (right_text st) (input_text st) (right_button st) (left_list st)
    (left_button st) (threads st) (call_after st) (stderr st) (requests st).

Definition set_right_text (v : string) (st : ChatClient) :=
  mkChatClient (conversations st) (current_conversation st)
    (current_conversation_idx st) v (input_text st) (right_button st)
    (left_list st) (left_button st) (threads st) (call_after st) (stderr st)
    (requests st).

Definition set_input_text (v : string) (st : ChatClient) :=
  mkChatClient (conversations st) (current_conversation st)
    (current_conversation_idx st) (right_text st) v (right_button st)
    (left_list st) (left_button st) (threads st) (call_after st) (stderr st)
    (requests st).

Definition set_controls (v : bool) (st : ChatClient) :=
  mkChatClient (conversations st) (current_conversation st)
    (current_conversation_idx st) (right_text st) (input_text st) v v v
    (threads st) (call_after st) (stderr st) (requests st).

Definition set_threads (v : list thread) (st : ChatClient) :=
  mkChatClient (conversations st) (current_conversation st)
    (current_conversation_idx st) (right_text st) (input_text st)
    (right_button st) (left_list st) (left_button st) v (call_after st)
    (stderr st) (requests st).

Definition set_call_after (v : list call) (st : ChatClient) :=
  mkChatClient (conversations st) (current_conversation st)
    (current_conversation_idx st) (right_text st) (input_text st)
    (right_button st) (left_list st) (left_button st) (threads st) v
    (stderr st) (requests st).

Definition set_stderr (v : list string) (st : ChatClient) :=
  mkChatClient (conversations st) (current_conversation st)
    (current_conversation_idx st) (right_text st) (input_text st)
    (right_button st) (left_list st) (left_button st) (threads st)
    (call_after st) v (requests st).

Definition set_requests (v : list request) (st : ChatClient) :=
  mkChatClient (conversations st) (current_conversation st)
    (current_conversation_idx st) (right_text st) (input_text st)
    (right_button st) (left_list st) (left_button st) (threads st)
    (call_after st) (stderr st) v.

(** A computation on the frame: it ends with a value or with an exception,
    and either way with the state it reached, since nothing a method wrote
    before it raised is undone. *)
Definition M (A : Type) : Type := ChatClient -> outcome A * ChatClient.

#[global] Instance M_ret : MRet M := fun A a st => (Ret a, st).
#[global] Instance M_bind : MBind M :=
  fun A B f m st =>
    match m st with
    | (Ret a, st') => f a st'
    | (Raise e, st') => (Raise e, st')
    end.

Definition get : M ChatClient := fun st => (Ret st, st).
Definition modify (f : ChatClient -> ChatClient) : M unit :=
  fun st => (Ret tt, f st).
Definition raise {A : Type} (e : exn) : M A := fun st => (Raise e, st).
Definition lift {A : Type} (o : outcome A) : M A := fun st => (o, st).

(** [try: body / except ...: handler]; the handler raises again what its
    [except] clauses do not name. *)
Definition try_except {A : Type} (body : M A) (handler : exn -> M A) : M A :=
  fun st =>
    match body st with
    | (Ret a, st') => (Ret a, st')
    | (Raise e, st') => handler e st'
    end.

(** The tree object a reference names, if it names one. *)
Definition tree_of (conv : option nat) (st : ChatClient) : option ConversationTree :=
  match conv with
  | Some r =>
      match conversations st !! r with
      | Some entry => Some (snd entry)
      | None => None
      end
  | None => None
  end.

(** Calling a method through a reference; [None] has no methods. *)
Definition deref (conv : option nat) : M ConversationTree :=
  fun st =>
    match tree_of conv st with
    | Some t => (Ret t, st)
    | None => (Raise AttributeError, st)
    end.

(** The tree object [r] becomes [t]: what a mutating method of the tree
    leaves behind, seen through every reference to the object. *)
Definition store (r : nat) (t : ConversationTree) : M unit :=
  modify (fun st =>
    set_conversations (alter (fun p => (fst p, t)) r (conversations st)) st).

(** [self.conversations[i][0] = title]. *)
Definition set_title (p : nat) (title : json) : M unit :=
  modify (fun st =>
    set_conversations (alter (fun c => (title, snd c)) p (conversations st)) st).

Definition AppendText (s : string) : M unit :=
  modify (fun st => set_right_text (right_text st +:+ s) st).

Definition start_thread (t : thread) : M unit :=
  modify (fun st => set_threads (threads st ++ [t]) st).

Definition CallAfter (c : call) : M unit :=
  modify (fun st => set_call_after (call_after st ++ [c]) st).

(** ** The methods of [ChatClient] *)

Section Client.

(** [str(e)], the text of an exception. *)
Context (exception_text : exn -> string).
(** [ConversationTree.serialize] and [ConversationTree.unserialize] of
    [models.py]. *)
Context (serialize : ConversationTree -> json).
Context (unserialize : json -> outcome ConversationTree).
(** Whether the environment gives an [OPENAI_API_KEY]. *)
Context (openai_api_key : bool).

(** Runs a mutating method [f] of the current conversation. *)
Definition update_current (f : ConversationTree -> outcome ConversationTree)
  : M unit :=
  st ← get;
  match current_conversation st with
  | Some r =>
      t ← deref (Some r);
      t' ← lift (f t);
      store r t'
  | None => raise AttributeError
  end.

Definition start_thinking_state : M unit :=
  AppendText (nl +:+ "ChatGPT is thinking...");;
  modify (set_controls false).

Definition stop_thinking_state : M unit :=
  modify (set_controls true).

(** The list box is not kept in the state. *)
Definition refresh_conversation_list : M unit := mret tt.

Definition refresh_conversation_detail : M unit :=
  modify (set_right_text "");;
  st ← get;
  conv ← deref (current_conversation st);
  text ← lift (stringify_conversation conv);
  AppendText text.

Definition create_conversation : M unit :=
  new_conv ← lift (add_message "system" "You are a helpful assistant." None new_tree);
  st ← get;
  modify (set_conversations
            (conversations st ++ [(JStr "New conversation", new_conv)]));;
  modify (set_current_conversation (Some (length (conversations st))));;
  st ← get;
  modify (set_current_conversation_idx (JInt (len (conversations st) - 1)));;
  refresh_conversation_list;;
  refresh_conversation_detail.

(** [selection] is what [GetSelection] returns, [None] for
    [wx.NOT_FOUND]. *)
Definition on_conversation_list_selected (selection : option Z) : M unit :=
  match selection with
  | Some sel =>
      st ← get;
      let idx := len (conversations st) - 1 - sel in
      modify (set_current_conversation_idx (JInt idx));;
      p ← lift (list_position (length (conversations st)) idx);
      modify (set_current_conversation (Some p));;
      refresh_conversation_detail
  | None => mret tt
  end.

Definition get_title_for_conversation_thread (conv : option nat)
    (and_then : callback) : M unit :=
  start_thread (title_thread conv and_then).

Definition get_next_completion (conv : option nat) (and_then : callback)
    (truncate_before : option Z) : M unit :=
  start_thread (completion_thread conv and_then truncate_before).

Definition get_title_for_conversation (idx : json) : M unit :=
  st ← get;
  p ← lift (list_subscript (length (conversations st)) idx);
  get_title_for_conversation_thread (Some p) (post_completion_title idx).

Definition add_to_conversation (r c : string) : M unit :=
  update_current (add_message r c None);;
  refresh_conversation_detail;;
  st ← get;
  p ← lift (list_subscript (length (conversations st))
              (current_conversation_idx st));
  title ← lift (match conversations st !! p with
                | Some entry => Ret (fst entry)
                | None => Raise IndexError
                end);
  if eq_str title "New conversation" && String.eqb r "assistant" then
    set_title p (JStr "Retrieving title...");;
    refresh_conversation_list;;
    get_title_for_conversation (current_conversation_idx st)
  else mret tt.

Definition add_to_branch (sibling_level : Z) (r c : string) : M bool :=
  st ← get;
  conv ← deref (current_conversation st);
  let n := len (get_current_conversation conv) in
  if (1 <=? sibling_level) && (sibling_level <? n) then
    update_current (add_message r c (Some (sibling_level - 1)));;
    refresh_conversation_detail;;
    mret true
  else
    AppendText (nl +:+ nl +:+ "requested sibling level outside range (1 - "
                +:+ str_int n +:+ ")");;
    mret false.

Definition switch_branch (msg_idx branch_idx : Z) : M bool :=
  try_except
    (update_current (fun t => change_branch t (msg_idx - 1) (branch_idx - 1));;
     refresh_conversation_detail;;
     mret true)
    (fun e =>
       AppendText (nl +:+ nl +:+ exception_text e);;
       mret false).

(** The test of [role_at_level] on [msg_idx]. *)
Definition level_in_bounds (msg_idx : Z) (curr_conv : list ChatMessage) : bool :=
  (0 <=? msg_idx) && (msg_idx <=? len curr_conv).

Definition role_at_level (msg_idx : Z) : M string :=
  st ← get;
  conv ← deref (current_conversation st);
  let curr_conv := get_current_conversation conv in
  if level_in_bounds msg_idx curr_conv then
    m ← lift (list_getitem curr_conv msg_idx);
    mret (role m)
  else mret "?".

(** [content] is [None] when [parse_command] passes no text, which it
    does only after it has seen an assistant at [sibling_level]; the
    user branch handed [None] ends in the [TypeError] that rendering a
    message without text raises. *)
Definition new_branch (sibling_level : Z) (content : option string) : M unit :=
  st ← get;
  conv ← deref (current_conversation st);
  let n := len (get_current_conversation conv) in
  if (1 <=? sibling_level) && (sibling_level <? n) then
    r ← role_at_level sibling_level;
    if String.eqb r "assistant" then
      start_thinking_state;;
      get_next_completion (current_conversation st)
        (post_completion_branch sibling_level) (Some sibling_level)
    else
      match content with
      | Some c =>
          added ← add_to_branch sibling_level "user" c;
          if added : bool then
            start_thinking_state;;
            get_next_completion (current_conversation st)
              post_completion_conversation None
          else mret tt
      | None => raise TypeError
      end
  else
    AppendText (nl +:+ nl
                +:+ "requested sibling level for new-branch outside range (1 - "
                +:+ str_int n +:+ ")").

Definition new_child (input_string : string) : M unit :=
  add_to_conversation "user" input_string;;
  start_thinking_state;;
  st ← get;
  get_next_completion (current_conversation st) post_completion_conversation None.

Definition usage_text : string :=
  nl +:+ nl +:+ "unrecognized / command, try one of these instead:" +:+ nl
  +:+ "/sw a b -- switches level a message to alternative b" +:+ nl
  +:+ "/nb n str -- creates a new response at level n (str ignored when replacing ChatGPT resps)".

Definition unrecognized_command : M unit := AppendText usage_text.

Definition prompt_required_text (a : Z) : string :=
  nl +:+ nl +:+ "new-branch for level " +:+ str_int a
  +:+ " also requires a prompt (e.g. /nb " +:+ str_int a +:+ " Hello, world!)".

Definition parse_command (input_string : string) : M unit :=
  if startswith input_string "/sw" then
    match split input_string with
    | [_; p1; p2] =>
        a ← lift (int p1);
        b ← lift (int p2);
        switch_branch a b;;
        mret tt
    | _ => unrecognized_command
    end
  else if startswith input_string "/nb" then
    match split_maxsplit 2 input_string with
    | [_; p1; txt] =>
        a ← lift (int p1);
        new_branch a (Some txt)
    | [_; p1] =>
        a ← lift (int p1);
        r ← role_at_level a;
        if String.eqb r "assistant" then new_branch a None
        else AppendText (prompt_required_text a)
    | _ => unrecognized_command
    end
  else if startswith input_string "/" then unrecognized_command
  else new_child input_string.

Definition on_send_pressed : M unit :=
  st ← get;
  match current_conversation st with
  | None => create_conversation
  | Some _ => mret tt
  end;;
  st ← get;
  parse_command (input_text st);;
  modify (set_input_text "").

(** ** The workers *)

(** Calling an [and_then] closure on the worker's thread. *)
Definition and_then_call (and_then : callback) (resp : message_dict) : M unit :=
  match and_then with
  | post_completion_branch sibling_level =>
      CallAfter (call_add_to_branch sibling_level (dict_role resp) (dict_content resp));;
      CallAfter call_stop_thinking_state
  | post_completion_conversation =>
      CallAfter (call_add_to_conversation (dict_role resp) (dict_content resp));;
      CallAfter call_stop_thinking_state
  | post_completion_title idx =>
      st ← get;
      p ← lift (list_subscript (length (conversations st)) idx);
      set_title p (JStr (dict_content resp));;
      refresh_conversation_list
  end.

Definition send (q : request) : M unit :=
  modify (fun st => set_requests (requests st ++ [q]) st).

(** [completion] is how the call of [openai.ChatCompletion.create] and
    the reading of its first choice end on this run: with the message,
    or with an exception.  [randint] is the number drawn for the offline
    reply. *)
Definition _get_next_completion_thread (completion : outcome message_dict)
    (randint : Z) (conv : option nat) (and_then : callback)
    (truncate_before : option Z) : M unit :=
  resp ←
    (if openai_api_key then
       tree ← deref conv;
       let curr_conv := get_current_conversation_as_dicts tree in
       let curr_conv :=
         match truncate_before with
         | Some n => slice_to curr_conv n
         | None => curr_conv
         end in
       send (completion_request curr_conv);;
       lift completion
     else
       mret (mkDict "assistant"
               ("As an AI language model, simulated response " +:+ str_int randint)));
  and_then_call and_then resp.

Definition _get_title_for_conversation_thread (completion : outcome message_dict)
    (conv : option nat) (and_then : callback) : M unit :=
  if openai_api_key then
    tree ← deref conv;
    let curr_conv := get_current_conversation_as_dicts tree in
    if 3 <=? len curr_conv then
      send (title_request curr_conv);;
      resp ← lift completion;
      and_then_call and_then resp
    else mret tt
  else mret tt.

(** The target of a started thread, run to its end. *)
Definition run_thread (completion : outcome message_dict) (randint : Z)
    (t : thread) : M unit :=
  match t with
  | completion_thread conv and_then truncate_before =>
      _get_next_completion_thread completion randint conv and_then truncate_before
  | title_thread conv and_then =>
      _get_title_for_conversation_thread completion conv and_then
  end.

(** A call queued by [wx.CallAfter], made on the frame's thread. *)
Definition run_call (c : call) : M unit :=
  match c with
  | call_add_to_branch sibling_level r c => add_to_branch sibling_level r c;; mret tt
  | call_add_to_conversation r c => add_to_conversation r c
  | call_stop_thinking_state => stop_thinking_state
  end.

(** ** Saved state *)

(** The value [save] dumps as JSON into [state.dat]. *)
Definition save (st : ChatClient) : json :=
  JObj [("conversations",
         JArr (map (fun a => JArr [fst a; serialize (snd a)]) (conversations st)));
        ("current_conv_idx", current_conversation_idx st)].

(** [read] is how opening [state.dat] and [json.load] end: with the
    decoded value, or with the exception raised. *)
Definition load (read : outcome json) : M unit :=
  try_except
    (dat ← lift read;
     entries ← lift (v ← getitem_str dat "conversations"; iterate v);
     convs ← lift (map_outcome
                     (fun a =>
                        title ← getitem_int a 0;
                        blob ← getitem_int a 1;
                        tree ← unserialize blob;
                        Ret (title, tree))
                     entries);
     modify (set_conversations convs);;
     idx ← lift (getitem_str dat "current_conv_idx");
     modify (set_current_conversation_idx idx);;
     p ← lift (list_subscript (length convs) idx);
     modify (set_current_conversation (Some p));;
     refresh_conversation_list;;
     refresh_conversation_detail)
    (fun e =>
       match e with
       | OSError => mret tt
       | JSONDecodeError repr =>
           modify (fun st => set_stderr (stderr st ++ [repr]) st)
       | _ => raise e
       end).

(** The attributes [__init__] sets before it calls [load]. *)
Definition fresh : ChatClient :=
  mkChatClient [] None JNull
    "Press 'New conversation' to create a new conversation." ""
    true true true [] [] [] [].

(** [ChatClient.__init__]: an exception that leaves [load] leaves the
    constructor, and no frame is shown. *)
Definition init (read : outcome json) : outcome unit * ChatClient :=
  load read fresh.


(** ** Running the frame

    What can happen next: the user edits the input box, presses Send,
    presses New conversation or picks a conversation (each only while
    its control is enabled), the frame's thread makes the first call
    queued by [wx.CallAfter], or a started thread runs to its end. *)
Inductive event : Type :=
  | ev_type (text : string)
  | ev_send
  | ev_new_conversation
  | ev_select (selection : option Z)
  | ev_call
  | ev_thread (i : nat) (completion : outcome message_dict) (randint : Z).

(** The state after an event, [None] when the event cannot happen.  An
    exception that leaves a handler or a thread target ends it, and the
    frame goes on with the state reached. *)
Definition handle (e : event) (st : ChatClient) : option ChatClient :=
  match e with
  | ev_type text => Some (set_input_text text st)
  | ev_send =>
      if right_button st then Some (snd (on_send_pressed st)) else None
  | ev_new_conversation =>
      if left_button st then Some (snd (create_conversation st)) else None
  | ev_select selection =>
      if left_list st then Some (snd (on_conversation_list_selected selection st))
      else None
  | ev_call =>
      match call_after st with
      | c :: rest => Some (snd (run_call c (set_call_after rest st)))
      | [] => None
      end
  | ev_thread i completion randint =>
      match threads st !! i with
      | Some t =>
          Some (snd (run_thread completion randint t
                       (set_threads (delete i (threads st)) st)))
      | None => None
      end
  end.

Fixpoint handle_all (es : list event) (st : ChatClient) : option ChatClient :=
  match es with
  | [] => Some st
  | e :: rest =>
      match handle e st with
      | Some st' => handle_all rest st'
      | None => None
      end
  end.

(** The requests a thread sends if it runs in state [st]. *)
Definition sends (completion : outcome message_dict) (randint : Z)
    (t : thread) (st : ChatClient) : list request :=
  drop (length (requests st))
    (requests (snd (run_thread completion randint t st))).

Definition titles (st : ChatClient) : list json := map fst (conversations st).

(** The text [refresh_conversation_detail] shows for a tree. *)
Definition rendering (conv : ConversationTree) : string :=
  match stringify_conversation conv with
  | Ret text => text
  | Raise _ => ""
  end.

(** ** Relations between the state before and the state after *)

(** [keeps R m]: whatever the state and however [m] ends, its final state
    is related to its first by [R]. *)
Definition keeps {A : Type} (R : relation ChatClient) (m : M A) : Prop :=
  forall st, R st (snd (m st)).

(** A relation on the conversations, as a relation on the frame. *)
Definition on_conversations (Rc : relation (list (json * ConversationTree)))
  : relation ChatClient :=
  fun st st' => Rc (conversations st) (conversations st').

(** Every tree is the one it was. *)
Definition trees_same : relation (list (json * ConversationTree)) :=
  fun l l' => map snd l' = map snd l.

(** Every title there was is still the title at its position. *)
Definition titles_same : relation (list (json * ConversationTree)) :=
  fun l l' =>
    forall p title, map fst l !! p = Some title -> map fst l' !! p = Some title.

(** Every title there was is unchanged, or was ["New conversation"] and
    is now ["Retrieving title..."]. *)
Definition titles_move : relation (list (json * ConversationTree)) :=
  fun l l' =>
    forall p title, map fst l !! p = Some title ->
      map fst l' !! p = Some title \/
      (title = JStr "New conversation" /\
       map fst l' !! p = Some (JStr "Retrieving title...")).

(** The closure a thread was handed. *)
Definition callback_of (t : thread) : callback :=
  match t with
  | completion_thread _ and_then _ => and_then
  | title_thread _ and_then => and_then
  end.

(** Whether a closure is the one [get_title_for_conversation] builds. *)
Definition is_title_callback (and_then : callback) : bool :=
  match and_then with
  | post_completion_title _ => true
  | _ => false
  end.

(** The conversation a thread was handed. *)
Definition conv_of (t : thread) : option nat :=
  match t with
  | completion_thread conv _ _ => conv
  | title_thread conv _ => conv
  end.

(** The requests a thread with a key sends when the tree it was handed
    is [tree]. *)
Definition requests_for (t : thread) (tree : ConversationTree) : list request :=
  let curr_conv := get_current_conversation_as_dicts tree in
  match t with
  | completion_thread _ _ (Some n) => [completion_request (slice_to curr_conv n)]
  | completion_thread _ _ None => [completion_request curr_conv]
  | title_thread _ _ =>
      if 3 <=? len curr_conv then [title_request curr_conv] else []
  end.

(** The state an event list leads to, the first state if it cannot
    happen. *)
Definition after (es : list event) (st : ChatClient) : ChatClient :=
  match handle_all es st with
  | Some st' => st'
  | None => st
  end.

(** A first exchange: the user sends ["Hello"], the completion worker
    gets ["Hi!"], and the frame adds the reply. *)
Definition first_exchange : list event :=
  [ev_type "Hello"; ev_send;
   ev_thread 0 (Ret (mkDict "assistant" "Hi!")) 0; ev_call].

(** The calls an [and_then] closure queues for the frame's thread. *)
Definition queued_calls (and_then : callback) (resp : message_dict) : list call :=
  match and_then with
  | post_completion_branch sibling_level =>
      [call_add_to_branch sibling_level (dict_role resp) (dict_content resp);
       call_stop_thinking_state]
  | post_completion_conversation =>
      [call_add_to_conversation (dict_role resp) (dict_content resp);
       call_stop_thinking_state]
  | post_completion_title _ => []
  end.

(** The state in which the current conversation [r] has become [conv']
    and is shown. *)
Definition shown (r : nat) (conv' : ConversationTree) (st : ChatClient)
  : ChatClient :=
  set_right_text (rendering conv')
    (set_conversations (alter (fun p => (fst p, conv')) r (conversations st)) st).

(** The state [start_thinking_state] leaves. *)
Definition thinking (st : ChatClient) : ChatClient :=
  set_controls false
    (set_right_text (right_text st +:+ nl +:+ "ChatGPT is thinking...") st).

(** ** Conversations to try the code on *)

(** The conversation after a first exchange. *)
Definition hello_tree : ConversationTree :=
  mkConversationTree
    (Some (mkChatMessage "system" "You are a helpful assistant."
             [mkChatMessage "user" "Hello"
                [mkChatMessage "assistant" "Hi!" [] None] (Some 0%nat)]
             (Some 0%nat))).

(** A conversation in which the user has spoken and no reply has come. *)
Definition waiting_tree : ConversationTree :=
  mkConversationTree
    (Some (mkChatMessage "system" "You are a helpful assistant."
             [mkChatMessage "user" "Hello" [] None] (Some 0%nat))).

(** A conversation whose current path has five messages. *)
Definition five_tree : ConversationTree :=
  mkConversationTree
    (Some (mkChatMessage "system" "S"
             [mkChatMessage "user" "A"
                [mkChatMessage "assistant" "B"
                   [mkChatMessage "user" "C"
                      [mkChatMessage "assistant" "D" [] None] (Some 0%nat)]
                   (Some 0%nat)]
                (Some 0%nat)]
             (Some 0%nat))).

(** A text for every exception, to run the frame with. *)
Definition some_text (e : exn) : string := "error".

(** An idle frame whose only conversation is [conv], shown. *)
Definition frame_with (title : json) (conv : ConversationTree) : ChatClient :=
  mkChatClient [(title, conv)] (Some 0%nat) (JInt 0) (rendering conv) ""
    true true true [] [] [] [].

(** ** What the frame points at *)

(** The frame points at the same conversation, among as many. *)
Definition same_pointers : relation ChatClient :=
  fun st st' =>
    current_conversation st' = current_conversation st /\
    current_conversation_idx st' = current_conversation_idx st /\
    length (conversations st') = length (conversations st).

(** [self.conversations[self.current_conversation_idx][1]] is
    [self.current_conversation]; and while there is no current
    conversation there is no conversation at all, and no index. *)
Definition coherent (st : ChatClient) : Prop :=
  match current_conversation st with
  | Some r =>
      list_subscript (length (conversations st)) (current_conversation_idx st)
      = Ret r
  | None => conversations st = [] /\ current_conversation_idx st = JNull
  end.

(** [GetSelection] returns the position of an item of the list box, which
    has one item for each conversation. *)
Definition selection_listed (e : event) (st : ChatClient) : Prop :=
  match e with
  | ev_select (Some sel) => 0 <= sel < len (conversations st)
  | _ => True
  end.

(** The tree [create_conversation] builds: the system message alone. *)
Definition system_tree : ConversationTree :=
  mkConversationTree (Some (leaf "system" "You are a helpful assistant.")).

(** The state in which conversation [r] has been retitled
    ["Retrieving title..."] and its title thread started, as
    [add_to_conversation] does for a first reply. *)
Definition title_requested (r : nat) (st : ChatClient) : ChatClient :=
  set_threads
    (threads st
       ++ [title_thread (Some r)
             (post_completion_title (current_conversation_idx st))])
    (set_conversations
       (alter (fun c => (JStr "Retrieving title...", snd c)) r (conversations st))
       st).

(** The reply of a completion worker: the provider's, or without a key
    the made-up one. *)
Definition reply_of (resp : message_dict) (randint : Z) : message_dict :=
  if openai_api_key then resp
  else mkDict "assistant"
         ("As an AI language model, simulated response " +:+ str_int randint).

(** ** Which trees a step may touch *)

(** The current conversation is the same, and every other conversation
    there was has the tree it had. *)
Definition others_kept : relation ChatClient :=
  fun st st' =>
    current_conversation st' = current_conversation st /\
    forall q title tree,
      current_conversation st <> Some q ->
      conversations st !! q = Some (title, tree) ->
      exists title', conversations st' !! q = Some (title', tree).

(** ** When the controls are disabled *)

(** A completion thread started by the frame: its closure queues
    [stop_thinking_state]. *)
Definition frame_completion (t : thread) : bool :=
  match t with
  | completion_thread _ and_then _ => negb (is_title_callback and_then)
  | title_thread _ _ => false
  end.

(** A completion thread of the frame has not run yet, or the call that
    enables the controls again is queued. *)
Definition fetch_pending (st : ChatClient) : Prop :=
  (exists t, t ∈ threads st /\ frame_completion t = true) \/
  call_stop_thinking_state ∈ call_after st.

(** The three controls are enabled or disabled together, and disabled
    only while a fetch is pending. *)
Definition never_stuck (st : ChatClient) : Prop :=
  left_list st = right_button st /\ left_button st = right_button st /\
  (right_button st = false -> fetch_pending st).

(** The event is not the run of a frame's completion thread that ends in
    an exception. *)
Definition worker_survives (e : event) (st : ChatClient) : Prop :=
  match e with
  | ev_thread i completion randint =>
      forall t,
        threads st !! i = Some t -> frame_completion t = true ->
        fst (run_thread completion randint t
               (set_threads (delete i (threads st)) st)) = Ret tt
  | _ => True
  end.

(** The controls are as they were. *)
Definition same_controls (st st' : ChatClient) : Prop :=
  right_button st' = right_button st /\ left_list st' = left_list st /\
  left_button st' = left_button st.

(** Threads were only started, no call was queued, and the controls are
    as they were. *)
Definition quiet : relation ChatClient :=
  fun st st' =>
    (exists started, threads st' = (threads st ++ started)%list) /\
    call_after st' = call_after st /\
    same_controls st st'.

(** Threads were only started and no call was queued; the controls are
    as they were, or all disabled with a completion thread of the frame
    started. *)
Definition quiet_or_fetching : relation ChatClient :=
  fun st st' =>
    (exists started, threads st' = (threads st ++ started)%list) /\
    call_after st' = call_after st /\
    (same_controls st st' \/
     (right_button st' = false /\ left_list st' = false /\
      left_button st' = false /\
      exists t, t ∈ threads st' /\ frame_completion t = true)).

(** Calls were only queued; the threads and the controls are as they
    were. *)
Definition only_queues : relation ChatClient :=
  fun st st' =>
    threads st' = threads st /\
    (exists queued, call_after st' = (call_after st ++ queued)%list) /\
    same_controls st st'.

(** ** The input box *)

(** The input box holds what it held. *)
Definition same_input : relation ChatClient :=
  fun st st' => input_text st' = input_text st.

(** ** A serializer to try [save] and [load] on *)

(** A message written as [[role, content, [child, ...], selected]]. *)
Fixpoint message_json (m : ChatMessage) : json :=
  match m with
  | mkChatMessage r c cs k =>
      JArr [JStr r; JStr c; JArr (List.map message_json cs);
            match k with Some n => JInt (Z.of_nat n) | None => JNull end]
  end.

Definition tree_json (t : ConversationTree) : json :=
  match root t with
  | Some m => message_json m
  | None => JNull
  end.

Fixpoint json_message (j : json) : outcome ChatMessage :=
  match j with
  | JArr [JStr r; JStr c; JArr js; k] =>
      match (fix each (l : list json) : outcome (list ChatMessage) :=
               match l with
               | [] => Ret []
               | j' :: l' =>
                   match json_message j' with
                   | Ret m =>
                       match each l' with
                       | Ret ms => Ret (m :: ms)
                       | Raise e => Raise e
                       end
                   | Raise e => Raise e
                   end
               end) js with
      | Ret cs =>
          match k with
          | JNull => Ret (mkChatMessage r c cs None)
          | JInt z => Ret (mkChatMessage r c cs (Some (Z.to_nat z)))
          | _ => Raise ValueError
          end
      | Raise e => Raise e
      end
  | _ => Raise ValueError
  end.

Definition json_tree (j : json) : outcome ConversationTree :=
  match j with
  | JNull => Ret (mkConversationTree None)
  | _ =>
      match json_message j with
      | Ret m => Ret (mkConversationTree (Some m))
      | Raise e => Raise e
      end
  end.

(** ** Frames to try the code on *)

(** A frame waiting for the reply to ["Hello"]: the controls are
    disabled and the completion thread is started. *)
Definition fetching_frame : ChatClient :=
  mkChatClient [(JStr "New conversation", waiting_tree)] (Some 0%nat) (JInt 0)
    (rendering waiting_tree +:+ nl +:+ "ChatGPT is thinking...") ""
    false false false
    [completion_thread (Some 0%nat) post_completion_conversation None] [] [] [].

(** A frame waiting for the title of its conversation. *)
Definition titling_frame : ChatClient :=
  mkChatClient [(JStr "Retrieving title...", hello_tree)] (Some 0%nat) (JInt 0)
    (rendering hello_tree) "" true true true
    [title_thread (Some 0%nat) (post_completion_title (JInt 0))] [] [] [].

(** An idle frame with two conversations, the second one current, and
    [text] typed in the input box. *)
Definition two_frame (text : string) : ChatClient :=
  mkChatClient [(JStr "Greeting", hello_tree); (JStr "Letters", five_tree)]
    (Some 1%nat) (JInt 1) (rendering five_tree) text true true true [] [] [] [].

(** * Proofs *)

(** ** The string functions on examples *)

Example split_sw : split "/sw 1  2 " = ["/sw"; "1"; "2"].
Proof. reflexivity. Qed.

Example split_nb : split_maxsplit 2 " /nb 2  hello  world " = ["/nb"; "2"; "hello  world "].
Proof. reflexivity. Qed.

Example int_examples :
  (int "12", int "-3", int "+007", int "1_000", int "1__0", int "_1", int "1_",
   int "x", int "", int "-") =
  (Ret 12, Ret (-3), Ret 7, Ret 1000, Raise ValueError, Raise ValueError,
   Raise ValueError, Raise ValueError, Raise ValueError, Raise ValueError).
Proof. reflexivity. Qed.

Example split_unicode_space :
  split ("/sw" +:+ String (ascii_of_nat 160) "1" +:+ String (ascii_of_nat 133) "2")
  = ["/sw"; "1"; "2"] /\
  split_maxsplit 2 ("/nb 1 " +:+ String (ascii_of_nat 160) "Bonjour")
  = ["/nb"; "1"; "Bonjour"].
Proof. split; reflexivity. Qed.

Example int_space :
  (int (String (ascii_of_nat 160) "1"), int (String (ascii_of_nat 133) "1"),
   int (String (ascii_of_nat 28) "1"), int " 1 ") =
  (Ret 1, Ret 1, Raise ValueError, Ret 1).
Proof. reflexivity. Qed.

Example int_digit_limit :
  int (repeat_string "9" 4301) = Raise ValueError /\
  int ("-" +:+ repeat_string "0" 4301) = Raise ValueError /\
  int (repeat_string "0" 4299 +:+ "_7") = Ret 7.
Proof. split; [|split]; vm_compute; reflexivity. Qed.

Example capitalize_example :
  capitalize "toOL 1" = "Tool 1" /\
  capitalize (String (ascii_of_nat 233) (String (ascii_of_nat 201) ""))
  = String (ascii_of_nat 201) (String (ascii_of_nat 233) "") /\
  capitalize (String (ascii_of_nat 223) "") = "Ss".
Proof. split; [|split]; reflexivity. Qed.

Example slice_examples :
  (slice_to [1; 2; 3; 4; 5] 2, slice_to [1; 2; 3] 7, slice_to [1; 2; 3] (-1),
   slice_to [1; 2; 3] (-5)) = ([1; 2], [1; 2; 3], [1; 2], []).
Proof. reflexivity. Qed.

Lemma lstrip_length s : (String.length (lstrip s) <= String.length s)%nat.
Proof. induction s as [|c s IH]; simpl; [lia|]. destruct (is_space c); simpl; lia. Qed.

Lemma lstrip_head s c r : lstrip s = String c r -> is_space c = false.
Proof.
  induction s as [|a s IH]; simpl; [discriminate|].
  destruct (is_space a) eqn:E; [exact IH|]. intros [= <- _]. exact E.
Qed.

Lemma span_word_length s :
  (String.length (snd (span_word s)) <= String.length s)%nat.
Proof.
  induction s as [|c s IH]; simpl; [lia|].
  destruct (is_space c); simpl; [lia|].
  destruct (span_word s) as [w r]; simpl in *. lia.
Qed.

(** More cuts than the string has characters change nothing: [split]
    never uses its bound up. *)
Lemma split_maxsplit_enough n : forall m s,
  (String.length s <= n)%nat -> (String.length s <= m)%nat ->
  split_maxsplit n s = split_maxsplit m s.
Proof.
  induction n as [|n IH]; intros m s Hn Hm.
  - destruct s; [|simpl in Hn; lia]. destruct m; reflexivity.
  - destruct m as [|m].
    { destruct s; [reflexivity | simpl in Hm; lia]. }
    simpl. pose proof (lstrip_length s) as Hl.
    destruct (lstrip s) as [|c r] eqn:E; [reflexivity|].
    pose proof (lstrip_head s c r E) as Hc.
    pose proof (span_word_length r) as Hr.
    simpl span_word. rewrite Hc.
    destruct (span_word r) as [w rest]. simpl in *.
    f_equal. apply IH; lia.
Qed.

Lemma split_unbounded s n :
  (String.length s <= n)%nat -> split_maxsplit n s = split s.
Proof. intros H. apply split_maxsplit_enough; [exact H | reflexivity]. Qed.

(** ** Properties of the conversation tree *)

Lemma walk_unfold m :
  walk m = m :: match current_child_idx m with
                | Some k =>
                    match children m !! k with
                    | Some c => walk c
                    | None => []
                    end
                | None => []
                end.
Proof.
  destruct m as [r c cs [k|]]; simpl; [|reflexivity].
  f_equal. revert k.
  induction cs as [|x cs IH]; intros [|k]; simpl; auto.
Qed.

(** A node of the current path that is not its last has a selected
    child. *)
Lemma walk_selected k : forall m x,
  walk m !! k = Some x -> (S k < length (walk m))%nat ->
  exists j, current_child_idx x = Some j.
Proof.
  induction k as [|k IH]; intros m x; rewrite walk_unfold; simpl.
  - intros [= <-] Hlen.
    destruct (current_child_idx m) as [j|]; [eauto | simpl in Hlen; lia].
  - destruct (current_child_idx m) as [j|]; [|intros [=]].
    destruct (children m !! j) as [c|]; [|intros [=]].
    intros Hx Hlen. apply (IH c x Hx). lia.
Qed.

Lemma list_position_in_range (n : nat) (i : Z) :
  0 <= i < Z.of_nat n -> list_position n i = Ret (Z.to_nat i).
Proof.
  intros H. unfold list_position.
  destruct (Z.leb_spec 0 i); [|lia]. destruct (Z.ltb_spec i (Z.of_nat n)); [|lia].
  reflexivity.
Qed.

Lemma list_getitem_in_range {A : Type} (l : list A) (i : Z) :
  0 <= i < len l -> exists x, l !! Z.to_nat i = Some x /\ list_getitem l i = Ret x.
Proof.
  intros H. unfold list_getitem, len in *.
  rewrite list_position_in_range by lia. simpl.
  destruct (l !! Z.to_nat i) as [x|] eqn:E; [eauto|].
  apply lookup_ge_None in E. lia.
Qed.

Lemma get_branch_width_in_range conv (i : Z) :
  0 <= i < len (get_current_conversation conv) ->
  exists w, get_branch_width conv i = Ret w.
Proof.
  intros H. unfold get_branch_width.
  destruct (Z.leb_spec 0 i); [|lia].
  destruct (Z.ltb_spec i (len (get_current_conversation conv))); [|lia].
  simpl. unfold len in H.
  destruct (get_current_conversation conv !! Z.to_nat i) as [x|] eqn:E; [eauto|].
  apply lookup_ge_None in E. lia.
Qed.

Lemma stringify_loop_total conv (rest : list ChatMessage) :
  forall (k : nat) (ret : string),
    rest = drop k (get_current_conversation conv) ->
    exists text,
      stringify_loop conv (get_current_conversation conv) (Z.of_nat k) rest ret
      = Ret text.
Proof.
  induction rest as [|msg rest IH]; intros k ret Hrest; simpl; [eauto|].
  assert (Hk : (k < length (get_current_conversation conv))%nat).
  { destruct (decide (k < length (get_current_conversation conv))%nat) as [|Hge]; [done|].
    rewrite drop_ge in Hrest by lia. discriminate. }
  assert (Hnext : rest = drop (S k) (get_current_conversation conv)).
  { rewrite <- (Nat.add_1_l k), Nat.add_comm, <- drop_drop, <- Hrest. reflexivity. }
  replace (Z.of_nat k + 1) with (Z.of_nat (S k)) by lia.
  destruct (Z.eqb_spec (Z.of_nat k) 0) as [H0|H0]; simpl.
  - apply IH, Hnext.
  - destruct (get_branch_width_in_range conv (Z.of_nat k - 1)) as [w ->];
      [unfold len; lia|]. simpl.
    destruct (list_getitem_in_range (get_current_conversation conv) (Z.of_nat k - 1))
      as (prev & Hprev & ->); [unfold len; lia|]. simpl.
    assert (Hsel : exists j, current_child_idx prev = Some j).
    { unfold get_current_conversation in *.
      destruct (root conv) as [m|]; [|simpl in Hk; lia].
      apply (walk_selected (Z.to_nat (Z.of_nat k - 1)) m prev Hprev). lia. }
    destruct Hsel as [j ->]. simpl.
    apply IH, Hnext.
Qed.

Lemma stringify_conversation_rendering conv :
  stringify_conversation conv = Ret (rendering conv).
Proof.
  unfold rendering.
  assert (H : exists text, stringify_conversation conv = Ret text).
  { unfold stringify_conversation.
    destruct (len (get_current_conversation conv) =? 0); [eauto|].
    apply (stringify_loop_total conv _ 0%nat). reflexivity. }
  destruct H as [text ->]. reflexivity.
Qed.

(** ** What a computation leaves in place *)

Abbreviation same_trees := (on_conversations trees_same).
Abbreviation titles_stay := (on_conversations titles_same).
Abbreviation titles_evolve := (on_conversations titles_move).

#[local] Instance trees_same_preorder : PreOrder trees_same.
Proof.
  split; unfold trees_same.
  - intros l. reflexivity.
  - intros a b c H1 H2. congruence.
Qed.

#[local] Instance titles_same_preorder : PreOrder titles_same.
Proof.
  split; unfold titles_same.
  - intros l p title H. exact H.
  - intros a b c H1 H2 p title H. apply H2, H1, H.
Qed.

#[local] Instance titles_move_preorder : PreOrder titles_move.
Proof.
  split; unfold titles_move.
  - intros l p title H. left. exact H.
  - intros a b c H1 H2 p title H.
    destruct (H1 p title H) as [Hb | [-> Hb]].
    + apply H2, Hb.
    + destruct (H2 p _ Hb) as [Hc | [[=] _]]. right. split; [reflexivity | exact Hc].
Qed.

#[local] Instance on_conversations_preorder Rc `{!PreOrder Rc} :
  PreOrder (on_conversations Rc).
Proof.
  split; unfold on_conversations.
  - intros st. reflexivity.
  - intros a b c H1 H2. etransitivity; eassumption.
Qed.

Lemma titles_stay_evolve st st' : titles_stay st st' -> titles_evolve st st'.
Proof. intros H p title Hp. left. apply H, Hp. Qed.

Section Keeps.
Context (R : relation ChatClient) `{!PreOrder R}.

Lemma keeps_ret {A : Type} (a : A) : keeps R (mret a).
Proof. intros st. reflexivity. Qed.

Lemma keeps_raise {A : Type} (e : exn) : keeps R (@raise A e).
Proof. intros st. reflexivity. Qed.

Lemma keeps_lift {A : Type} (o : outcome A) : keeps R (lift o).
Proof. intros st. reflexivity. Qed.

Lemma keeps_get : keeps R get.
Proof. intros st. reflexivity. Qed.

Lemma keeps_deref conv : keeps R (deref conv).
Proof. intros st. unfold deref. destruct (tree_of conv st); reflexivity. Qed.

Lemma keeps_modify (f : ChatClient -> ChatClient) :
  (forall st, R st (f st)) -> keeps R (modify f).
Proof. intros H st. apply H. Qed.

Lemma keeps_bind {A B : Type} (m : M A) (k : A -> M B) :
  keeps R m -> (forall a, keeps R (k a)) -> keeps R (m ≫= k).
Proof.
  intros Hm Hk st. unfold mbind, M_bind.
  specialize (Hm st). destruct (m st) as [[a|e] st']; simpl in *.
  - etransitivity; [exact Hm | apply Hk].
  - exact Hm.
Qed.

Lemma keeps_try_except {A : Type} (body : M A) (handler : exn -> M A) :
  keeps R body -> (forall e, keeps R (handler e)) ->
  keeps R (try_except body handler).
Proof.
  intros Hm Hk st. unfold try_except.
  specialize (Hm st). destruct (body st) as [[a|e] st']; simpl in *.
  - exact Hm.
  - etransitivity; [exact Hm | apply Hk].
Qed.

Lemma keeps_bind_from {A B : Type} (m : M A) (k : A -> M B) st :
  R st (snd (m st)) -> (forall a, keeps R (k a)) ->
  R st (snd ((m ≫= k) st)).
Proof.
  intros Hm Hk. unfold mbind, M_bind.
  destruct (m st) as [[a|e] st']; simpl in *.
  - etransitivity; [exact Hm | apply Hk].
  - exact Hm.
Qed.

(** After [get], the rest may be followed from the state read. *)
Lemma keeps_from_state {A : Type} (k : ChatClient -> M A) :
  (forall st, R st (snd (k st st))) -> keeps R (get ≫= k).
Proof. intros H st. apply H. Qed.
End Keeps.

(** A relation on the conversations is kept by whatever leaves them
    alone. *)
Lemma keeps_conversations Rc `{!Reflexive Rc} (f : ChatClient -> ChatClient) :
  (forall st, conversations (f st) = conversations st) ->
  keeps (on_conversations Rc) (modify f).
Proof.
  intros H st. unfold on_conversations, modify. simpl. rewrite H. reflexivity.
Qed.

Ltac keeps_step :=
  match goal with
  | |- keeps _ (mbind _ _) => apply keeps_bind; [try apply _ | | intros ?]
  | |- keeps _ (mret _) => apply keeps_ret; apply _
  | |- keeps _ (raise _) => apply keeps_raise; apply _
  | |- keeps _ (lift _) => apply keeps_lift; apply _
  | |- keeps _ get => apply keeps_get; apply _
  | |- keeps _ (deref _) => apply keeps_deref; apply _
  | |- keeps _ (try_except _ _) =>
      apply keeps_try_except; [try apply _ | | intros ?]
  | |- keeps _ (match ?x with _ => _ end) => destruct x
  | |- keeps _ (if ?x then _ else _) => destruct x
  end.

Section KeepsConversations.
Context (Rc : relation (list (json * ConversationTree))) `{!PreOrder Rc}.
Let R := on_conversations Rc.

Lemma keeps_AppendText s : keeps R (AppendText s).
Proof. apply keeps_conversations; [apply _ | reflexivity]. Qed.

Lemma keeps_start_thread t : keeps R (start_thread t).
Proof. apply keeps_conversations; [apply _ | reflexivity]. Qed.

Lemma keeps_CallAfter c : keeps R (CallAfter c).
Proof. apply keeps_conversations; [apply _ | reflexivity]. Qed.

Lemma keeps_send q : keeps R (send q).
Proof. apply keeps_conversations; [apply _ | reflexivity]. Qed.

Lemma keeps_set_controls b : keeps R (modify (set_controls b)).
Proof. apply keeps_conversations; [apply _ | reflexivity]. Qed.

Lemma keeps_set_right_text s : keeps R (modify (set_right_text s)).
Proof. apply keeps_conversations; [apply _ | reflexivity]. Qed.

Lemma keeps_set_input_text s : keeps R (modify (set_input_text s)).
Proof. apply keeps_conversations; [apply _ | reflexivity]. Qed.

Lemma keeps_set_current_conversation r :
  keeps R (modify (set_current_conversation r)).
Proof. apply keeps_conversations; [apply _ | reflexivity]. Qed.

Lemma keeps_set_current_conversation_idx i :
  keeps R (modify (set_current_conversation_idx i)).
Proof. apply keeps_conversations; [apply _ | reflexivity]. Qed.

Lemma keeps_start_thinking_state : keeps R start_thinking_state.
Proof.
  unfold start_thinking_state.
  apply keeps_bind; [apply _ | apply keeps_AppendText | intros _; apply keeps_set_controls].
Qed.

Lemma keeps_stop_thinking_state : keeps R stop_thinking_state.
Proof. apply keeps_set_controls. Qed.

Lemma keeps_refresh_conversation_list : keeps R refresh_conversation_list.
Proof. apply keeps_ret, _. Qed.

Lemma keeps_refresh_conversation_detail : keeps R refresh_conversation_detail.
Proof.
  unfold refresh_conversation_detail.
  repeat first [keeps_step | apply keeps_set_right_text | apply keeps_AppendText].
Qed.

Lemma keeps_get_next_completion conv and_then truncate_before :
  keeps R (get_next_completion conv and_then truncate_before).
Proof. apply keeps_start_thread. Qed.

Lemma keeps_get_title_for_conversation idx :
  keeps R (get_title_for_conversation idx).
Proof.
  unfold get_title_for_conversation, get_title_for_conversation_thread.
  repeat first [keeps_step | apply keeps_start_thread].
Qed.

Lemma keeps_unrecognized_command : keeps R unrecognized_command.
Proof. apply keeps_AppendText. Qed.
End KeepsConversations.

Create HintDb keeps discriminated.
#[local] Hint Resolve keeps_AppendText keeps_start_thread keeps_CallAfter
  keeps_send keeps_set_controls keeps_set_right_text keeps_set_input_text
  keeps_set_current_conversation keeps_set_current_conversation_idx
  keeps_start_thinking_state keeps_stop_thinking_state
  keeps_refresh_conversation_list keeps_refresh_conversation_detail
  keeps_get_next_completion keeps_get_title_for_conversation
  keeps_unrecognized_command : keeps.

Ltac keeps_auto := repeat first [keeps_step | solve [eauto with keeps typeclass_instances]].


Lemma map_fst_alter_snd (t : ConversationTree) (r : nat)
    (l : list (json * ConversationTree)) :
  map fst (alter (fun p => (fst p, t)) r l) = map fst l.
Proof.
  revert r. induction l as [|x l IH]; intros [|r]; cbn; f_equal; auto.
Qed.

Lemma map_snd_alter_fst (title : json) (p : nat)
    (l : list (json * ConversationTree)) :
  map snd (alter (fun c => (title, snd c)) p l) = map snd l.
Proof.
  revert p. induction l as [|x l IH]; intros [|p]; cbn; f_equal; auto.
Qed.

Lemma keeps_store_titles r t : keeps titles_stay (store r t).
Proof.
  intros st p title. unfold store, modify, on_conversations; simpl.
  rewrite map_fst_alter_snd. auto.
Qed.

Lemma keeps_set_title_trees p title : keeps same_trees (set_title p title).
Proof.
  intros st. unfold set_title, modify, on_conversations, trees_same; simpl.
  apply map_snd_alter_fst.
Qed.

#[local] Hint Resolve keeps_store_titles keeps_set_title_trees : keeps.

Lemma keeps_update_current f : keeps titles_stay (update_current f).
Proof. unfold update_current. keeps_auto. Qed.
#[local] Hint Resolve keeps_update_current : keeps.

Lemma keeps_add_to_branch sibling_level r c :
  keeps titles_stay (add_to_branch sibling_level r c).
Proof. unfold add_to_branch. keeps_auto. Qed.

Lemma keeps_switch_branch msg_idx branch_idx :
  keeps titles_stay (switch_branch msg_idx branch_idx).
Proof. unfold switch_branch. keeps_auto. Qed.

Lemma keeps_role_at_level Rc `{!PreOrder Rc} msg_idx :
  keeps (on_conversations Rc) (role_at_level msg_idx).
Proof. unfold role_at_level. keeps_auto. Qed.
#[local] Hint Resolve keeps_add_to_branch keeps_switch_branch
  keeps_role_at_level : keeps.

Lemma keeps_new_branch sibling_level content :
  keeps titles_stay (new_branch sibling_level content).
Proof. unfold new_branch. keeps_auto. Qed.

(** Adding a message that is not the assistant's changes no title. *)
Lemma keeps_add_to_conversation r c :
  String.eqb r "assistant" = false ->
  keeps titles_stay (add_to_conversation r c).
Proof.
  intros Hr. unfold add_to_conversation. rewrite Hr.
  repeat first [rewrite andb_false_r | keeps_step
               | solve [eauto with keeps typeclass_instances]].
Qed.

Lemma keeps_new_child input_string : keeps titles_stay (new_child input_string).
Proof.
  unfold new_child.
  apply keeps_bind; [apply _ | apply keeps_add_to_conversation; reflexivity |].
  intros _. keeps_auto.
Qed.
#[local] Hint Resolve keeps_new_branch keeps_new_child : keeps.

Lemma keeps_parse_command input_string :
  keeps titles_stay (parse_command input_string).
Proof.
  unfold parse_command.
  destruct (startswith input_string "/sw").
  { destruct (split input_string) as [|? [|? [|? [|? ?]]]]; keeps_auto. }
  destruct (startswith input_string "/nb").
  { destruct (split_maxsplit 2 input_string) as [|? [|? [|? [|? ?]]]]; keeps_auto. }
  keeps_auto.
Qed.

Lemma keeps_create_conversation : keeps titles_stay create_conversation.
Proof.
  unfold create_conversation.
  apply keeps_bind; [apply _ | keeps_auto |]. intros new_conv.
  apply keeps_from_state. intros st.
  apply keeps_bind_from; [apply _ | | intros _; keeps_auto].
  intros p title. unfold modify; simpl.
  rewrite map_app. intros H. apply lookup_app_l_Some, H.
Qed.
#[local] Hint Resolve keeps_parse_command keeps_create_conversation : keeps.

Lemma keeps_on_send_pressed : keeps titles_stay on_send_pressed.
Proof. unfold on_send_pressed. keeps_auto. Qed.

Lemma keeps_on_conversation_list_selected selection :
  keeps titles_stay (on_conversation_list_selected selection).
Proof. unfold on_conversation_list_selected. keeps_auto. Qed.

Lemma keeps_weaken {A : Type} (R R' : relation ChatClient) (m : M A) :
  (forall st st', R st st' -> R' st st') -> keeps R m -> keeps R' m.
Proof. intros H Hm st. apply H, Hm. Qed.

Lemma eq_str_true v s : eq_str v s = true -> v = JStr s.
Proof.
  destruct v; simpl; try discriminate.
  intros H. apply String.eqb_eq in H. congruence.
Qed.

(** The one place a title is written by the frame: the placeholder
    gives way to ["Retrieving title..."]. *)
Lemma keeps_add_to_conversation_evolve r c :
  keeps titles_evolve (add_to_conversation r c).
Proof.
  unfold add_to_conversation.
  apply keeps_bind; [apply _ | |intros _].
  { eapply keeps_weaken; [apply titles_stay_evolve | eauto with keeps]. }
  apply keeps_bind; [apply _ | keeps_auto |intros _].
  apply keeps_from_state. intros st.
  unfold mbind at 1, M_bind at 1, lift at 1.
  destruct (list_subscript _ _) as [p|e]; [|reflexivity].
  unfold mbind at 1, M_bind at 1, lift at 1.
  destruct (conversations st !! p) as [entry|] eqn:E; [|reflexivity].
  destruct (eq_str (fst entry) "New conversation" && String.eqb r "assistant")
    eqn:C; [|reflexivity].
  apply andb_prop in C as [C _]. apply eq_str_true in C.
  apply keeps_bind_from; [apply _ | | intros _; keeps_auto].
  intros q title. unfold set_title, modify; simpl.
  rewrite !list_lookup_fmap.
  destruct (decide (q = p)) as [->|Hne].
  - rewrite list_lookup_alter_eq, E. simpl. intros [= <-].
    right. split; [exact C | reflexivity].
  - rewrite list_lookup_alter_ne by congruence. auto.
Qed.

Lemma keeps_and_then_call_trees and_then resp :
  keeps same_trees (and_then_call and_then resp).
Proof. unfold and_then_call. keeps_auto. Qed.
#[local] Hint Resolve keeps_and_then_call_trees : keeps.

Lemma keeps_run_thread_trees completion randint t :
  keeps same_trees (run_thread completion randint t).
Proof.
  unfold run_thread, _get_next_completion_thread, _get_title_for_conversation_thread.
  keeps_auto.
Qed.

Lemma keeps_and_then_call_titles and_then resp :
  is_title_callback and_then = false ->
  keeps titles_stay (and_then_call and_then resp).
Proof. destruct and_then; [| |discriminate]; intros _; simpl; keeps_auto. Qed.

Lemma keeps_run_thread_titles completion randint t :
  is_title_callback (callback_of t) = false ->
  keeps titles_stay (run_thread completion randint t).
Proof.
  intros H.
  unfold run_thread, _get_next_completion_thread, _get_title_for_conversation_thread.
  destruct t; simpl in H;
    repeat first [keeps_step | apply keeps_and_then_call_titles; exact H
                 | solve [eauto with keeps typeclass_instances]].
Qed.

(** ** The statements of the specification *)

Lemma deref_tree conv st tree :
  tree_of conv st = Some tree -> deref conv st = (Ret tree, st).
Proof. intros H. unfold deref. rewrite H. reflexivity. Qed.

Lemma role_at_level_unfold st conv msg_idx :
  tree_of (current_conversation st) st = Some conv ->
  role_at_level msg_idx st =
  if level_in_bounds msg_idx (get_current_conversation conv)
  then match list_getitem (get_current_conversation conv) msg_idx with
       | Ret m => (Ret (role m), st)
       | Raise e => (Raise e, st)
       end
  else (Ret "?", st).
Proof.
  intros Hconv. unfold role_at_level, mbind, M_bind, get.
  rewrite (deref_tree _ _ _ Hconv).
  destruct (level_in_bounds msg_idx _); [|reflexivity].
  unfold lift. destruct (list_getitem _ msg_idx); reflexivity.
Qed.

Lemma list_getitem_at_length {A : Type} (l : list A) :
  list_getitem l (len l) = Raise IndexError.
Proof.
  unfold list_getitem, list_position, len.
  destruct (Z.ltb_spec (Z.of_nat (length l)) (Z.of_nat (length l))); [lia|].
  rewrite andb_false_r.
  destruct (Z.ltb_spec (Z.of_nat (length l)) 0); [lia|].
  rewrite andb_false_r. reflexivity.
Qed.

Lemma level_in_bounds_at_length (curr_conv : list ChatMessage) :
  level_in_bounds (len curr_conv) curr_conv = true.
Proof.
  unfold level_in_bounds, len. apply andb_true_intro.
  split; apply Z.leb_le; lia.
Qed.

Lemma role_at_level_in_range st conv msg_idx m :
  tree_of (current_conversation st) st = Some conv ->
  0 <= msg_idx < len (get_current_conversation conv) ->
  get_current_conversation conv !! Z.to_nat msg_idx = Some m ->
  role_at_level msg_idx st = (Ret (role m), st).
Proof.
  intros Hconv Hrange Hm. rewrite (role_at_level_unfold st conv) by exact Hconv.
  replace (level_in_bounds msg_idx (get_current_conversation conv)) with true
    by (symmetry; unfold level_in_bounds; apply andb_true_intro; split;
        apply Z.leb_le; lia).
  destruct (list_getitem_in_range _ msg_idx Hrange) as (x & Hx & ->).
  congruence.
Qed.

(** C9.  Whatever the current conversation, of length [L] say:
    [role_at_level L] passes the method's own test on [msg_idx] and then
    ends in the [IndexError] of the subscript, not in ['?']; the test
    fails, and ['?'] is returned, exactly for [msg_idx < 0] and
    [msg_idx > L]; below [L] the role of the message is returned. *)
Theorem role_at_level_at_length st conv :
  tree_of (current_conversation st) st = Some conv ->
  let curr_conv := get_current_conversation conv in
  level_in_bounds (len curr_conv) curr_conv = true /\
  role_at_level (len curr_conv) st = (Raise IndexError, st) /\
  (forall msg_idx,
     level_in_bounds msg_idx curr_conv = false <->
     msg_idx < 0 \/ len curr_conv < msg_idx) /\
  (forall msg_idx,
     level_in_bounds msg_idx curr_conv = false ->
     role_at_level msg_idx st = (Ret "?", st)) /\
  (forall msg_idx m,
     0 <= msg_idx < len curr_conv ->
     curr_conv !! Z.to_nat msg_idx = Some m ->
     role_at_level msg_idx st = (Ret (role m), st)).
Proof.
  intros Hconv curr_conv.
  split; [apply level_in_bounds_at_length|]. split; [|split; [|split]].
  - rewrite (role_at_level_unfold st conv) by exact Hconv.
    fold curr_conv. rewrite level_in_bounds_at_length, list_getitem_at_length.
    reflexivity.
  - intros msg_idx. unfold level_in_bounds. rewrite andb_false_iff.
    rewrite Z.leb_gt, Z.leb_gt. reflexivity.
  - intros msg_idx H. rewrite (role_at_level_unfold st conv) by exact Hconv.
    fold curr_conv. rewrite H. reflexivity.
  - intros msg_idx m Hrange Hm.
    apply (role_at_level_in_range st conv); assumption.
Qed.

(** C10.  The title worker calls [and_then] only with a key configured
    and at least three messages in the conversation: with no key, or
    with fewer than three messages, it returns with the state as it
    found it, so no title is written and no request is sent; with both,
    and a completion that succeeds, it sends the title request and calls
    [and_then] on the reply. *)
Theorem title_thread_callback completion conv and_then st tree :
  tree_of conv st = Some tree ->
  let curr_conv := get_current_conversation_as_dicts tree in
  (openai_api_key = false \/ len curr_conv < 3 ->
   _get_title_for_conversation_thread completion conv and_then st = (Ret tt, st)) /\
  (openai_api_key = true -> 3 <= len curr_conv ->
   forall resp, completion = Ret resp ->
     _get_title_for_conversation_thread completion conv and_then st
     = and_then_call and_then resp
         (set_requests (requests st ++ [title_request curr_conv]) st)).
Proof.
  intros Hconv curr_conv. unfold _get_title_for_conversation_thread. split.
  - intros [-> | Hlen]; [reflexivity|].
    destruct openai_api_key; [|reflexivity].
    unfold mbind, M_bind. rewrite (deref_tree _ _ _ Hconv). fold curr_conv.
    destruct (Z.leb_spec 3 (len curr_conv)); [lia | reflexivity].
  - intros -> Hlen resp ->.
    unfold mbind, M_bind. rewrite (deref_tree _ _ _ Hconv). fold curr_conv.
    destruct (Z.leb_spec 3 (len curr_conv)); [|lia].
    unfold send, modify, lift. simpl.
    destruct (and_then_call and_then resp _) as [[[]|e] st']; reflexivity.
Qed.

Lemma and_then_call_requests and_then resp st :
  requests (snd (and_then_call and_then resp st)) = requests st.
Proof.
  destruct and_then; simpl; try reflexivity.
  unfold mbind, M_bind, get, lift.
  destruct (list_subscript _ _); reflexivity.
Qed.

Lemma slice_to_nat {A : Type} (l : list A) (n : nat) :
  slice_to l (Z.of_nat n) = take n l.
Proof.
  unfold slice_to. destruct (Z.leb_spec 0 (Z.of_nat n)); [|lia].
  rewrite Nat2Z.id. reflexivity.
Qed.

(** C5.  A completion worker given the limit [limit] sends the provider
    exactly one request, whose messages are the first [limit] entries of
    the conversation's current path (all of them when there are fewer),
    however its call ends; with no key it sends nothing. *)
Theorem completion_request_prefix completion randint conv and_then
    (limit : nat) st tree :
  tree_of conv st = Some tree ->
  requests (snd (_get_next_completion_thread completion randint conv and_then
                   (Some (Z.of_nat limit)) st))
  = if openai_api_key
    then (requests st
            ++ [completion_request
                  (take limit (get_current_conversation_as_dicts tree))])%list
    else requests st.
Proof.
  intros Hconv. unfold _get_next_completion_thread.
  destruct openai_api_key.
  - unfold mbind, M_bind. rewrite (deref_tree _ _ _ Hconv).
    rewrite slice_to_nat. unfold send, modify, lift. simpl.
    destruct completion as [resp|e]; [|reflexivity].
    rewrite and_then_call_requests. reflexivity.
  - unfold mbind, M_bind, mret, M_ret.
    rewrite and_then_call_requests. reflexivity.
Qed.

(** C1 (as the code has it).  When the completion call of a fetch
    raises, the worker ends with that exception before it calls
    [and_then]: every conversation tree is as it was and no call is
    queued for the frame; nothing is written to the transcript and the
    controls are as [start_thinking_state] left them.  The request sent
    is the only trace. *)
Theorem failed_fetch_changes_nothing e randint conv and_then truncate_before
    st tree :
  openai_api_key = true ->
  tree_of conv st = Some tree ->
  exists messages,
    _get_next_completion_thread (Raise e) randint conv and_then truncate_before st
    = (Raise e,
       set_requests (requests st ++ [completion_request messages]) st).
Proof.
  intros Hkey Hconv. unfold _get_next_completion_thread. rewrite Hkey.
  unfold mbind, M_bind. rewrite (deref_tree _ _ _ Hconv).
  eexists. reflexivity.
Qed.

Lemma drop_appended {A : Type} (l extra : list A) :
  drop (length l) (l ++ extra) = extra.
Proof. rewrite drop_app_length. reflexivity. Qed.

Lemma drop_whole {A : Type} (l : list A) : drop (length l) l = [].
Proof. apply drop_all. Qed.

Lemma and_then_call_queue and_then resp st :
  call_after (snd (and_then_call and_then resp st))
  = (call_after st ++ queued_calls and_then resp)%list.
Proof.
  destruct and_then; simpl.
  - rewrite <- app_assoc. reflexivity.
  - rewrite <- app_assoc. reflexivity.
  - unfold mbind, M_bind, get, lift.
    destruct (list_subscript _ _); simpl; rewrite app_nil_r; reflexivity.
Qed.

(** C2 (as the code has it).  A worker never writes a conversation tree:
    after any thread has run, every tree is as it was.  But a worker is
    handed the tree object, not a copy of its path: with a key, what it
    sends is read from the tree as it is in the state where the thread
    runs.  A completion worker whose call succeeds hands the reply to
    [and_then], which queues its calls for the frame's thread. *)
Theorem worker_reads_tree_in_place completion randint t st tree :
  openai_api_key = true ->
  tree_of (conv_of t) st = Some tree ->
  let st' := snd (run_thread completion randint t st) in
  map snd (conversations st') = map snd (conversations st) /\
  sends completion randint t st = requests_for t tree /\
  (forall conv and_then truncate_before resp,
     t = completion_thread conv and_then truncate_before ->
     completion = Ret resp ->
     call_after st' = (call_after st ++ queued_calls and_then resp)%list).
Proof.
  intros Hkey Hconv st'.
  split; [apply (keeps_run_thread_trees completion randint t st)|].
  subst st'. unfold sends.
  destruct t as [conv and_then truncate_before | conv and_then]; simpl in Hconv |- *.
  - unfold _get_next_completion_thread. rewrite Hkey.
    unfold mbind, M_bind. rewrite (deref_tree _ _ _ Hconv).
    unfold send, modify, lift; simpl.
    split.
    + destruct completion as [resp|e]; simpl;
        [rewrite and_then_call_requests; simpl|];
        destruct truncate_before; apply drop_appended.
    + intros ? ? ? resp [= <- <- <-] ->.
      rewrite and_then_call_queue. reflexivity.
  - unfold _get_title_for_conversation_thread. rewrite Hkey.
    unfold mbind, M_bind. rewrite (deref_tree _ _ _ Hconv).
    split; [|intros ? ? ? ? [=]].
    destruct (3 <=? len (get_current_conversation_as_dicts tree)).
    + unfold send, modify, lift; simpl.
      destruct completion as [resp|e]; simpl.
      * rewrite and_then_call_requests. simpl. apply drop_appended.
      * apply drop_appended.
    + simpl. apply drop_whole.
Qed.

Lemma create_conversation_titles st :
  titles (snd (create_conversation st))
  = (titles st ++ [JStr "New conversation"])%list.
Proof.
  unfold create_conversation, titles.
  change (add_message "system" "You are a helpful assistant." None new_tree)
    with (Ret (mkConversationTree
                 (Some (leaf "system" "You are a helpful assistant.")))).
  unfold mbind at 1, M_bind at 1, lift at 1. cbv iota beta.
  unfold mbind at 1, M_bind at 1, get at 1. cbv iota beta.
  unfold mbind at 1, M_bind at 1, modify at 1. cbv iota beta.
  unfold mbind at 1, M_bind at 1, modify at 1. cbv iota beta.
  unfold mbind at 1, M_bind at 1, get at 1. cbv iota beta.
  unfold mbind at 1, M_bind at 1, modify at 1. cbv iota beta.
  match goal with
  | |- map fst (conversations (snd (?m ?s))) = _ =>
      assert (H : keeps (on_conversations eq) m) by keeps_auto;
      specialize (H s); unfold on_conversations in H; rewrite <- H
  end.
  simpl. rewrite map_app. reflexivity.
Qed.

Lemma title_thread_sends completion randint conv and_then st :
  sends completion randint (title_thread conv and_then) st <> [] ->
  openai_api_key = true /\
  exists tree, tree_of conv st = Some tree /\
               3 <= len (get_current_conversation_as_dicts tree).
Proof.
  unfold sends, run_thread, _get_title_for_conversation_thread.
  destruct openai_api_key; [|simpl; rewrite drop_whole; congruence].
  unfold mbind, M_bind, deref.
  destruct (tree_of conv st) as [tree|]; [|simpl; rewrite drop_whole; congruence].
  destruct (Z.leb_spec 3 (len (get_current_conversation_as_dicts tree)));
    [eauto | simpl; rewrite drop_whole; congruence].
Qed.

(** A title thread writes a title only when it has a key, three
    messages to show and a call that succeeded, and then it writes the
    reply's text. *)
Lemma title_thread_titles completion conv idx st :
  let st' := snd (_get_title_for_conversation_thread completion conv
                    (post_completion_title idx) st) in
  on_conversations titles_same st st' \/
  exists resp tree,
    completion = Ret resp /\ openai_api_key = true /\
    tree_of conv st = Some tree /\
    3 <= len (get_current_conversation_as_dicts tree) /\
    forall p title, titles st !! p = Some title ->
      titles st' !! p = Some title \/
      titles st' !! p = Some (JStr (dict_content resp)).
Proof.
  cbv zeta.
  unfold _get_title_for_conversation_thread, and_then_call, send, deref,
    mbind, M_bind, get, lift, modify.
  destruct openai_api_key; [|left; intros ? ? Hp; exact Hp].
  destruct (tree_of conv st) as [tree|] eqn:Htree; [|left; intros ? ? Hp; exact Hp].
  destruct (Z.leb_spec 3 (len (get_current_conversation_as_dicts tree)));
    [|left; intros ? ? Hp; exact Hp].
  destruct completion as [resp|e]; [|left; intros ? ? Hp; exact Hp].
  right. exists resp, tree. repeat split; try assumption.
  intros p title Hp. simpl.
  destruct (list_subscript (length (conversations st)) idx) as [q|e];
    [|left; exact Hp].
  unfold titles, set_title, modify in *; simpl.
  rewrite list_lookup_fmap in *.
  destruct (decide (p = q)) as [->|Hne].
  - rewrite list_lookup_alter_eq.
    destruct (conversations st !! q); [|discriminate]. right. reflexivity.
  - rewrite list_lookup_alter_ne by congruence. left. exact Hp.
Qed.


Lemma refresh_conversation_detail_shows st conv :
  tree_of (current_conversation st) st = Some conv ->
  refresh_conversation_detail st = (Ret tt, set_right_text (rendering conv) st).
Proof.
  intros Hconv. unfold refresh_conversation_detail, mbind, M_bind, modify, get.
  cbv iota beta. simpl current_conversation.
  change (tree_of (current_conversation st) (set_right_text "" st))
    with (tree_of (current_conversation st) st).
  unfold deref.
  change (tree_of (current_conversation st) (set_right_text "" st))
    with (tree_of (current_conversation st) st).
  rewrite Hconv. unfold lift. rewrite stringify_conversation_rendering.
  reflexivity.
Qed.

Lemma update_current_shows st r title conv f conv' :
  current_conversation st = Some r ->
  conversations st !! r = Some (title, conv) ->
  f conv = Ret conv' ->
  (update_current f;; refresh_conversation_detail) st = (Ret tt, shown r conv' st).
Proof.
  intros Hr Hlook Hf.
  unfold update_current, mbind, M_bind, get. rewrite Hr.
  unfold deref, tree_of. rewrite Hlook. simpl. unfold lift. rewrite Hf.
  unfold store, modify.
  erewrite refresh_conversation_detail_shows; [reflexivity|].
  simpl. rewrite Hr. unfold tree_of. simpl.
  rewrite list_lookup_alter_eq, Hlook. reflexivity.
Qed.

Lemma seq_then {A B C : Type} (m : M A) (k : M B) (j : M C) st b st1 :
  (m;; k) st = (Ret b, st1) -> (m;; k;; j) st = j st1.
Proof.
  unfold mbind, M_bind. destruct (m st) as [[a|e] s]; [|discriminate].
  destruct (k s) as [[b'|e] s']; [|discriminate].
  intros [= _ <-]. reflexivity.
Qed.

Lemma add_message_in_range r c (i : Z) conv :
  0 <= i < len (get_current_conversation conv) ->
  exists conv', add_message r c (Some i) conv = Ret conv'.
Proof.
  intros H. unfold add_message.
  destruct (root conv) as [m|] eqn:Hroot.
  - destruct (Z.leb_spec 0 i); [|lia].
    destruct (Z.ltb_spec i (len (get_current_conversation conv))); [|lia].
    simpl. eauto.
  - unfold get_current_conversation, len in H. rewrite Hroot in H. simpl in H. lia.
Qed.

Lemma add_to_branch_in_range st r title conv sibling_level rr cc :
  current_conversation st = Some r ->
  conversations st !! r = Some (title, conv) ->
  1 <= sibling_level < len (get_current_conversation conv) ->
  exists conv',
    add_message rr cc (Some (sibling_level - 1)) conv = Ret conv' /\
    add_to_branch sibling_level rr cc st = (Ret true, shown r conv' st).
Proof.
  intros Hr Hlook Hrange.
  destruct (add_message_in_range rr cc (sibling_level - 1) conv) as [conv' Hadd];
    [lia|].
  exists conv'. split; [exact Hadd|].
  unfold add_to_branch. unfold mbind at 1, M_bind at 1, get at 1. cbv iota beta.
  unfold mbind at 1, M_bind at 1, deref at 1, tree_of at 1.
  rewrite Hr, Hlook. cbv beta iota delta [snd].
  destruct (Z.leb_spec 1 sibling_level); [|lia].
  destruct (Z.ltb_spec sibling_level (len (get_current_conversation conv))); [|lia].
  cbv beta iota delta [andb].
  rewrite (seq_then _ _ _ st tt (shown r conv' st)); [reflexivity|].
  apply (update_current_shows st r title conv); assumption.
Qed.

Lemma walk_head m : exists rest, walk m = m :: rest.
Proof. rewrite walk_unfold. eauto. Qed.

(** The path after a child is added [d] steps down: what was there up
    to that step, then the new node's own path. *)
Lemma walk_update_add_child new d : forall m,
  (d < length (walk m))%nat ->
  map as_dict (walk (update_path (add_child new) d m))
  = (take (S d) (map as_dict (walk m)) ++ map as_dict (walk new))%list.
Proof.
  induction d as [|d IH]; intros m Hd.
  - simpl update_path. rewrite (walk_unfold (add_child new m)). simpl.
    rewrite list_lookup_middle by reflexivity.
    destruct (walk_head m) as [rest ->]. reflexivity.
  - simpl update_path. rewrite (walk_unfold m) in Hd |- *.
    destruct (current_child_idx m) as [k|] eqn:Hk; [|simpl in Hd; lia].
    destruct (children m !! k) as [c|] eqn:Hc; [|simpl in Hd; lia].
    rewrite walk_unfold. simpl.
    rewrite list_lookup_alter_eq, Hc. simpl.
    rewrite IH by (simpl in Hd; lia). reflexivity.
Qed.

(** A message added after position [i] of the path is the path's entry
    [i + 1], and the last; the entries before it are as they were. *)
Lemma add_message_path r c (i : Z) conv conv' :
  add_message r c (Some i) conv = Ret conv' ->
  get_current_conversation_as_dicts conv'
  = (take (Z.to_nat (i + 1)) (get_current_conversation_as_dicts conv)
       ++ [mkDict r c])%list.
Proof.
  unfold add_message, get_current_conversation_as_dicts, get_current_conversation.
  destruct (root conv) as [m|]; [|discriminate].
  destruct (Z.leb_spec 0 i); [|discriminate].
  destruct (Z.ltb_spec i (len (walk m))); [|discriminate].
  simpl. intros [= <-]. simpl.
  rewrite walk_update_add_child by (unfold len in *; lia).
  replace (Z.to_nat (i + 1)) with (S (Z.to_nat i)) by lia. reflexivity.
Qed.

Lemma nb_not_sw s : startswith s "/nb" = true -> startswith s "/sw" = false.
Proof.
  unfold startswith. intros Hnb.
  destruct (String.prefix "/sw" s) eqn:Hsw; [|reflexivity].
  apply String.prefix_correct in Hnb, Hsw.
  change (String.length "/nb") with 3%nat in Hnb.
  change (String.length "/sw") with 3%nat in Hsw.
  rewrite Hnb in Hsw. discriminate.
Qed.

Lemma in_range_test (n lo hi : Z) :
  lo <= n < hi -> (lo <=? n) && (n <? hi) = true.
Proof.
  intros H. apply andb_true_intro. split; [apply Z.leb_le | apply Z.ltb_lt]; lia.
Qed.

Lemma new_branch_assistant st r title conv sibling_level m content :
  current_conversation st = Some r ->
  conversations st !! r = Some (title, conv) ->
  1 <= sibling_level < len (get_current_conversation conv) ->
  get_current_conversation conv !! Z.to_nat sibling_level = Some m ->
  role m = "assistant" ->
  new_branch sibling_level content st
  = (Ret tt,
     set_threads
       (threads st
          ++ [completion_thread (Some r) (post_completion_branch sibling_level)
                (Some sibling_level)])
       (thinking st)).
Proof.
  intros Hr Hlook Hrange Hm Hrole.
  assert (Hconv : tree_of (current_conversation st) st = Some conv).
  { unfold tree_of. rewrite Hr, Hlook. reflexivity. }
  unfold new_branch. unfold mbind at 1, M_bind at 1, get at 1. cbv iota beta.
  unfold mbind at 1, M_bind at 1. rewrite (deref_tree _ _ _ Hconv).
  rewrite in_range_test by exact Hrange.
  unfold mbind at 1, M_bind at 1.
  rewrite (role_at_level_in_range st conv sibling_level m Hconv) by (lia || exact Hm).
  rewrite Hrole, Hr. reflexivity.
Qed.

Lemma new_branch_user st r title conv sibling_level m txt :
  current_conversation st = Some r ->
  conversations st !! r = Some (title, conv) ->
  1 <= sibling_level < len (get_current_conversation conv) ->
  get_current_conversation conv !! Z.to_nat sibling_level = Some m ->
  role m <> "assistant" ->
  exists conv',
    add_message "user" txt (Some (sibling_level - 1)) conv = Ret conv' /\
    new_branch sibling_level (Some txt) st
    = (Ret tt,
       set_threads
         (threads st
            ++ [completion_thread (Some r) post_completion_conversation None])
         (thinking (shown r conv' st))).
Proof.
  intros Hr Hlook Hrange Hm Hrole.
  assert (Hconv : tree_of (current_conversation st) st = Some conv).
  { unfold tree_of. rewrite Hr, Hlook. reflexivity. }
  destruct (add_to_branch_in_range st r title conv sibling_level "user" txt
              Hr Hlook Hrange) as (conv' & Hadd & Hbranch).
  exists conv'. split; [exact Hadd|].
  unfold new_branch. unfold mbind at 1, M_bind at 1, get at 1. cbv iota beta.
  unfold mbind at 1, M_bind at 1. rewrite (deref_tree _ _ _ Hconv).
  rewrite in_range_test by exact Hrange.
  unfold mbind at 1, M_bind at 1.
  rewrite (role_at_level_in_range st conv sibling_level m Hconv) by (lia || exact Hm).
  apply String.eqb_neq in Hrole. rewrite Hrole.
  unfold mbind at 1, M_bind at 1. rewrite Hbranch, Hr. reflexivity.
Qed.

Lemma handle_all_cons e es st st1 :
  handle e st = Some st1 -> handle_all (e :: es) st = handle_all es st1.
Proof. intros H. simpl. rewrite H. reflexivity. Qed.

(** A completion worker whose call succeeds, or that has no key, hands
    its reply to [and_then]; with a key it has sent the path first, cut
    at the limit if there is one. *)
Lemma completion_thread_runs resp randint conv and_then truncate_before s tree :
  tree_of conv s = Some tree ->
  _get_next_completion_thread (Ret resp) randint conv and_then truncate_before s
  = and_then_call and_then (reply_of resp randint)
      (if openai_api_key
       then set_requests
              (requests s
                 ++ [completion_request
                       match truncate_before with
                       | Some n => slice_to (get_current_conversation_as_dicts tree) n
                       | None => get_current_conversation_as_dicts tree
                       end]) s
       else s).
Proof.
  intros Htree. unfold _get_next_completion_thread, reply_of.
  destruct openai_api_key; [|reflexivity].
  unfold mbind at 1, M_bind at 1.
  unfold mbind at 1, M_bind at 1. rewrite (deref_tree _ _ _ Htree).
  reflexivity.
Qed.

(** The node a child is added to, [d] steps down the path, is still the
    path's entry [d], with the children it had and the new one after
    them. *)
Lemma walk_update_add_child_parent new d : forall m x,
  walk m !! d = Some x ->
  walk (update_path (add_child new) d m) !! d = Some (add_child new x).
Proof.
  induction d as [|d IH]; intros m x.
  - rewrite (walk_unfold m). intros [= <-].
    simpl update_path. rewrite walk_unfold. reflexivity.
  - rewrite (walk_unfold m). simpl update_path.
    destruct (current_child_idx m) as [k|] eqn:Hk; [|intros [=]].
    destruct (children m !! k) as [c|] eqn:Hc; [|intros [=]].
    intros Hx. rewrite walk_unfold. simpl.
    rewrite list_lookup_alter_eq, Hc. simpl.
    apply IH. exact Hx.
Qed.

(** A message added after position [i] of the path is one more child of
    the node at [i], after the children that node had. *)
Lemma add_message_parent r c (i : Z) conv conv' x :
  add_message r c (Some i) conv = Ret conv' ->
  get_current_conversation conv !! Z.to_nat i = Some x ->
  get_current_conversation conv' !! Z.to_nat i = Some (add_child (leaf r c) x).
Proof.
  unfold add_message, get_current_conversation.
  destruct (root conv) as [m|]; [|discriminate].
  destruct (Z.leb_spec 0 i); [|discriminate].
  destruct (Z.ltb_spec i (len (walk m))); [|discriminate].
  simpl. intros [= <-] Hx. simpl.
  apply walk_update_add_child_parent. exact Hx.
Qed.

(** The completion thread of a reply asked again runs, with a call that
    succeeds or without a key, and the frame makes the first call it
    queued: the reply has been added by [add_to_branch] to the tree the
    thread was started on, and the new tree is shown. *)
Lemma branch_reply_added s ths r title conv (N : Z) resp randint :
  threads s
  = (ths ++ [completion_thread (Some r) (post_completion_branch N) (Some N)])%list ->
  call_after s = [] ->
  current_conversation s = Some r ->
  conversations s !! r = Some (title, conv) ->
  1 <= N < len (get_current_conversation conv) ->
  exists conv' st',
    add_message (dict_role (reply_of resp randint))
      (dict_content (reply_of resp randint)) (Some (N - 1)) conv = Ret conv' /\
    handle_all [ev_thread (length ths) (Ret resp) randint; ev_call] s = Some st' /\
    conversations st' = alter (fun p => (fst p, conv')) r (conversations s) /\
    right_text st' = rendering conv' /\
    requests st'
    = (requests s
         ++ if openai_api_key
            then [completion_request
                    (take (Z.to_nat N) (get_current_conversation_as_dicts conv))]
            else [])%list /\
    call_after st' = [call_stop_thinking_state] /\
    threads st' = ths.
Proof.
  intros Hthreads Hqueue Hr Hlook Hrange.
  set (reply := reply_of resp randint).
  set (s' := set_threads ths s).
  assert (Htree : tree_of (Some r) s' = Some conv).
  { unfold tree_of. simpl. rewrite Hlook. reflexivity. }
  set (s2 := set_call_after
               [call_add_to_branch N (dict_role reply) (dict_content reply);
                call_stop_thinking_state]
               (if openai_api_key
                then set_requests
                       (requests s
                          ++ [completion_request
                                (take (Z.to_nat N)
                                   (get_current_conversation_as_dicts conv))])
                       s'
                else s')).
  assert (H1 : handle (ev_thread (length ths) (Ret resp) randint) s = Some s2).
  { unfold handle. rewrite Hthreads.
    rewrite list_lookup_middle by reflexivity.
    rewrite delete_middle, app_nil_r. fold s'.
    unfold run_thread.
    rewrite (completion_thread_runs resp randint (Some r)
               (post_completion_branch N) (Some N) s' conv Htree).
    fold reply. unfold s2, slice_to.
    destruct (Z.leb_spec 0 N); [|lia].
    destruct openai_api_key; simpl; rewrite Hqueue; reflexivity. }
  set (s2' := set_call_after [call_stop_thinking_state] s2).
  assert (Hr2 : current_conversation s2' = Some r).
  { unfold s2', s2. destruct openai_api_key; exact Hr. }
  assert (Hconv2 : conversations s2' = conversations s).
  { unfold s2', s2. destruct openai_api_key; reflexivity. }
  assert (Hlook2 : conversations s2' !! r = Some (title, conv)).
  { rewrite Hconv2. exact Hlook. }
  destruct (add_to_branch_in_range s2' r title conv N (dict_role reply)
              (dict_content reply) Hr2 Hlook2 Hrange)
    as (conv' & Hadd & Hbranch).
  assert (H2 : handle ev_call s2 = Some (shown r conv' s2')).
  { unfold handle.
    replace (call_after s2)
      with [call_add_to_branch N (dict_role reply) (dict_content reply);
            call_stop_thinking_state]
      by (unfold s2; reflexivity).
    fold s2'. unfold run_call.
    unfold mbind at 1, M_bind at 1. rewrite Hbranch. reflexivity. }
  exists conv', (shown r conv' s2').
  split; [exact Hadd|].
  split.
  { rewrite (handle_all_cons _ _ _ _ H1), (handle_all_cons _ _ _ _ H2).
    reflexivity. }
  split.
  { change (conversations (shown r conv' s2'))
      with (alter (fun p => (fst p, conv')) r (conversations s2')).
    rewrite Hconv2. reflexivity. }
  split; [reflexivity|].
  split.
  { unfold s2', s2. destruct openai_api_key; simpl;
      rewrite ?app_nil_r; reflexivity. }
  split; [reflexivity|].
  unfold s2', s2. destruct openai_api_key; reflexivity.
Qed.

(** C6.  A command [/nb N ...] whose [N] is a position of the current
    path other than the first.  If the message at [N] is the
    assistant's, then with or without text the trees are left as they
    are, the frame starts thinking, and a completion is requested on
    the path cut to its first [N] entries, whose reply [add_to_branch]
    will add at position [N].  If it is not, the text given becomes a
    user message added at position [N] and a completion is requested
    on the new path; without text the command only asks for one.  A
    message added at position [N] is a new last entry of the path
    after the [N] entries that were before it.  And the reply is added
    that way: when no call is queued and the message at [N] is the
    assistant's, then after the command, once the thread it started has
    run, with a call that succeeds or without a key, and the frame has
    made the first call the thread queued, the reply is the entry [N]
    of the current path of the conversation, after the [N] entries that
    were before it, and the path ends there; the reply is one more
    child of the node at [N - 1], after the children that node had;
    the new tree is shown; with a key the provider was sent exactly
    those [N] entries, whatever text the command gave. *)
Theorem nb_command_in_range input_string p0 p1 st r title conv (N : Z) m :
  current_conversation st = Some r ->
  conversations st !! r = Some (title, conv) ->
  startswith input_string "/nb" = true ->
  int p1 = Ret N ->
  1 <= N < len (get_current_conversation conv) ->
  get_current_conversation conv !! Z.to_nat N = Some m ->
  (role m = "assistant" ->
   forall parts,
     split_maxsplit 2 input_string = parts ->
     (parts = [p0; p1] \/ exists txt, parts = [p0; p1; txt]) ->
     parse_command input_string st
     = (Ret tt,
        set_threads
          (threads st
             ++ [completion_thread (Some r) (post_completion_branch N) (Some N)])
          (thinking st))) /\
  (role m <> "assistant" ->
   (forall txt,
      split_maxsplit 2 input_string = [p0; p1; txt] ->
      exists conv',
        add_message "user" txt (Some (N - 1)) conv = Ret conv' /\
        parse_command input_string st
        = (Ret tt,
           set_threads
             (threads st
                ++ [completion_thread (Some r) post_completion_conversation None])
             (thinking (shown r conv' st)))) /\
   (split_maxsplit 2 input_string = [p0; p1] ->
    parse_command input_string st
    = (Ret tt, set_right_text (right_text st +:+ prompt_required_text N) st))) /\
  (forall rr cc,
     exists conv',
       add_message rr cc (Some (N - 1)) conv = Ret conv' /\
       add_to_branch N rr cc st = (Ret true, shown r conv' st) /\
       get_current_conversation_as_dicts conv'
       = (take (Z.to_nat N) (get_current_conversation_as_dicts conv)
            ++ [mkDict rr cc])%list) /\
  (role m = "assistant" ->
   (split_maxsplit 2 input_string = [p0; p1] \/
    exists txt, split_maxsplit 2 input_string = [p0; p1; txt]) ->
   call_after st = [] ->
   forall resp randint,
     exists conv' parent st',
       handle_all [ev_thread (length (threads st)) (Ret resp) randint; ev_call]
         (snd (parse_command input_string st)) = Some st' /\
       add_message (dict_role (reply_of resp randint))
         (dict_content (reply_of resp randint)) (Some (N - 1)) conv = Ret conv' /\
       conversations st' !! r = Some (title, conv') /\
       right_text st' = rendering conv' /\
       get_current_conversation_as_dicts conv'
       = (take (Z.to_nat N) (get_current_conversation_as_dicts conv)
            ++ [reply_of resp randint])%list /\
       get_current_conversation conv !! Z.to_nat (N - 1) = Some parent /\
       get_current_conversation conv' !! Z.to_nat (N - 1)
       = Some (add_child
                 (leaf (dict_role (reply_of resp randint))
                    (dict_content (reply_of resp randint))) parent) /\
       requests st'
       = (requests st
            ++ if openai_api_key
               then [completion_request
                       (take (Z.to_nat N) (get_current_conversation_as_dicts conv))]
               else [])%list).
Proof.
  intros Hr Hlook Hnb Hint Hrange Hm.
  assert (Hconv : tree_of (current_conversation st) st = Some conv).
  { unfold tree_of. rewrite Hr, Hlook. reflexivity. }
  assert (Hrole_at : role_at_level N st = (Ret (role m), st)).
  { apply (role_at_level_in_range st conv); [exact Hconv | lia | exact Hm]. }
  pose proof (nb_not_sw _ Hnb) as Hsw.
  assert (Hcmd : role m = "assistant" ->
                 forall parts,
                   split_maxsplit 2 input_string = parts ->
                   (parts = [p0; p1] \/ exists txt, parts = [p0; p1; txt]) ->
                   parse_command input_string st
                   = (Ret tt,
                      set_threads
                        (threads st
                           ++ [completion_thread (Some r)
                                 (post_completion_branch N) (Some N)])
                        (thinking st))).
  { intros Hrole parts Hsplit Hparts.
    unfold parse_command. rewrite Hsw, Hnb, Hsplit.
    destruct Hparts as [-> | [txt ->]].
    + unfold mbind at 1, M_bind at 1, lift at 1. rewrite Hint.
      unfold mbind at 1, M_bind at 1. rewrite Hrole_at, Hrole.
      simpl String.eqb. cbv iota.
      apply (new_branch_assistant st r title conv N m); assumption.
    + unfold mbind at 1, M_bind at 1, lift at 1. rewrite Hint.
      apply (new_branch_assistant st r title conv N m); assumption. }
  split; [exact Hcmd|]. split; [|split].
  - intros Hrole. split.
    + intros txt Hsplit.
      destruct (new_branch_user st r title conv N m txt Hr Hlook Hrange Hm Hrole)
        as (conv' & Hadd & Hnew).
      exists conv'. split; [exact Hadd|].
      unfold parse_command. rewrite Hsw, Hnb, Hsplit.
      unfold mbind at 1, M_bind at 1, lift at 1. rewrite Hint. exact Hnew.
    + intros Hsplit. unfold parse_command. rewrite Hsw, Hnb, Hsplit.
      unfold mbind at 1, M_bind at 1, lift at 1. rewrite Hint.
      unfold mbind at 1, M_bind at 1. rewrite Hrole_at.
      apply String.eqb_neq in Hrole. rewrite Hrole. reflexivity.
  - intros rr cc.
    destruct (add_to_branch_in_range st r title conv N rr cc Hr Hlook Hrange)
      as (conv' & Hadd & Hbranch).
    exists conv'. split; [exact Hadd|]. split; [exact Hbranch|].
    rewrite (add_message_path rr cc (N - 1) conv conv' Hadd).
    replace (N - 1 + 1) with N by lia. reflexivity.
  - intros Hrole Hparts Hqueue resp randint.
    rewrite (Hcmd Hrole _ eq_refl) by (destruct Hparts as [->|[txt ->]]; eauto).
    cbv beta iota delta [snd].
    destruct (branch_reply_added
                (set_threads
                   (threads st
                      ++ [completion_thread (Some r) (post_completion_branch N)
                            (Some N)])
                   (thinking st))
                (threads st) r title conv N resp randint
                eq_refl Hqueue Hr Hlook Hrange)
      as (conv' & st' & Hadd & Hall & Hconvs & Htext & Hreq & _).
    destruct (get_current_conversation conv !! Z.to_nat (N - 1))
      as [parent|] eqn:Hparent.
    2: { apply lookup_ge_None in Hparent. unfold len in Hrange. lia. }
    exists conv', parent, st'.
    split; [exact Hall|]. split; [exact Hadd|].
    split.
    { rewrite Hconvs.
      change (conversations (set_threads _ (thinking st))) with (conversations st).
      rewrite list_lookup_alter_eq, Hlook. reflexivity. }
    split; [exact Htext|].
    split.
    { rewrite (add_message_path _ _ (N - 1) conv conv' Hadd).
      replace (N - 1 + 1) with N by lia.
      destruct (reply_of resp randint); reflexivity. }
    split; [reflexivity|].
    split; [exact (add_message_parent _ _ _ _ _ _ Hadd Hparent)|].
    exact Hreq.
Qed.

Lemma int_raises s e : int s = Raise e -> e = ValueError.
Proof.
  unfold int.
  destruct (match int_rstrip (int_lstrip s) with
            | "" => _
            | String _ _ => _
            end) as [z|]; [|congruence].
  destruct (int_max_str_digits <? _); congruence.
Qed.

(** A [/sw] command that does not split into three parts gets the usage
    text, and nothing else changes. *)
Lemma sw_wrong_arity input_string st :
  startswith input_string "/sw" = true ->
  length (split input_string) <> 3%nat ->
  parse_command input_string st
  = (Ret tt, set_right_text (right_text st +:+ usage_text) st).
Proof.
  intros Hsw Hlen. unfold parse_command. rewrite Hsw.
  destruct (split input_string) as [|? [|? [|? [|? ?]]]]; try reflexivity.
  simpl in Hlen. congruence.
Qed.

(** A [/sw] command with two integers calls [switch_branch] on them. *)
Lemma sw_well_formed input_string p0 p1 p2 a b st :
  startswith input_string "/sw" = true ->
  split input_string = [p0; p1; p2] ->
  int p1 = Ret a -> int p2 = Ret b ->
  parse_command input_string st = (switch_branch a b;; mret tt) st.
Proof.
  intros Hsw Hsplit Ha Hb. unfold parse_command. rewrite Hsw, Hsplit.
  unfold mbind at 1, M_bind at 1, lift at 1. rewrite Ha.
  unfold mbind at 1, M_bind at 1, lift at 1. rewrite Hb. reflexivity.
Qed.

(** [switch_branch] calls [change_branch] one position lower; if that
    raises, the text of the exception goes to the transcript and the
    conversations are as they were. *)
Lemma switch_branch_refused st r title conv msg_idx branch_idx e :
  current_conversation st = Some r ->
  conversations st !! r = Some (title, conv) ->
  change_branch conv (msg_idx - 1) (branch_idx - 1) = Raise e ->
  switch_branch msg_idx branch_idx st
  = (Ret false,
     set_right_text (right_text st +:+ nl +:+ nl +:+ exception_text e) st).
Proof.
  intros Hr Hlook He.
  unfold switch_branch, try_except, update_current, mbind, M_bind, get.
  rewrite Hr. unfold deref, tree_of. rewrite Hlook. simpl.
  unfold lift. rewrite He. reflexivity.
Qed.

Lemma switch_branch_done st r title conv msg_idx branch_idx conv' :
  current_conversation st = Some r ->
  conversations st !! r = Some (title, conv) ->
  change_branch conv (msg_idx - 1) (branch_idx - 1) = Ret conv' ->
  switch_branch msg_idx branch_idx st = (Ret true, shown r conv' st).
Proof.
  intros Hr Hlook Hc. unfold switch_branch, try_except.
  rewrite (seq_then _ _ _ st tt (shown r conv' st)); [reflexivity|].
  apply (update_current_shows st r title conv); assumption.
Qed.

(** C3 (the code at the failing input).  A [/sw] command of three parts
    of which one is not an integer ends [parse_command] with the
    [ValueError] of [int]: no usage text is appended, and the state is
    the one it was. *)
Theorem sw_non_integer_raises input_string p0 p1 p2 st :
  startswith input_string "/sw" = true ->
  split input_string = [p0; p1; p2] ->
  (forall a b, ~ (int p1 = Ret a /\ int p2 = Ret b)) ->
  parse_command input_string st = (Raise ValueError, st).
Proof.
  intros Hsw Hsplit Hbad. unfold parse_command. rewrite Hsw, Hsplit.
  unfold mbind at 1, M_bind at 1, lift at 1.
  destruct (int p1) as [a|e1] eqn:H1.
  - unfold mbind at 1, M_bind at 1, lift at 1.
    destruct (int p2) as [b|e2] eqn:H2.
    + exfalso. apply (Hbad a b). split; reflexivity.
    + rewrite (int_raises _ _ H2). reflexivity.
  - rewrite (int_raises _ _ H1). reflexivity.
Qed.

(** A [/nb] command with text whose level is outside the path gets the
    range text, and nothing else changes. *)
Lemma nb_out_of_range input_string p0 p1 txt st conv (N : Z) :
  tree_of (current_conversation st) st = Some conv ->
  startswith input_string "/nb" = true ->
  split_maxsplit 2 input_string = [p0; p1; txt] ->
  int p1 = Ret N ->
  ~ (1 <= N < len (get_current_conversation conv)) ->
  parse_command input_string st
  = (Ret tt,
     set_right_text
       (right_text st +:+ nl +:+ nl
        +:+ "requested sibling level for new-branch outside range (1 - "
        +:+ str_int (len (get_current_conversation conv)) +:+ ")") st).
Proof.
  intros Hconv Hnb Hsplit Hint Hout.
  unfold parse_command. rewrite (nb_not_sw _ Hnb), Hnb, Hsplit.
  unfold mbind at 1, M_bind at 1, lift at 1. rewrite Hint.
  unfold new_branch. unfold mbind at 1, M_bind at 1, get at 1. cbv iota beta.
  unfold mbind at 1, M_bind at 1. rewrite (deref_tree _ _ _ Hconv).
  replace ((1 <=? N) && (N <? len (get_current_conversation conv))) with false;
    [reflexivity|].
  symmetry. apply andb_false_iff.
  destruct (Z.leb_spec 1 N); [|auto].
  destruct (Z.ltb_spec N (len (get_current_conversation conv))); [lia | auto].
Qed.

(** C7 (the code at the failing input).  A [/nb N] command without text
    whose [N] is the length of the current path ends [parse_command]
    with the [IndexError] of [role_at_level]: no text is appended, and
    the state is the one it was. *)
Theorem nb_at_length_raises input_string p0 p1 st conv :
  tree_of (current_conversation st) st = Some conv ->
  startswith input_string "/nb" = true ->
  split_maxsplit 2 input_string = [p0; p1] ->
  int p1 = Ret (len (get_current_conversation conv)) ->
  parse_command input_string st = (Raise IndexError, st).
Proof.
  intros Hconv Hnb Hsplit Hint.
  unfold parse_command. rewrite (nb_not_sw _ Hnb), Hnb, Hsplit.
  unfold mbind at 1, M_bind at 1, lift at 1. rewrite Hint.
  unfold mbind at 1, M_bind at 1.
  rewrite (role_at_level_unfold st conv) by exact Hconv.
  rewrite level_in_bounds_at_length, list_getitem_at_length. reflexivity.
Qed.

(** A missing state file leaves the frame as it was created. *)
Lemma load_missing_file st : load (Raise OSError) st = (Ret tt, st).
Proof. reflexivity. Qed.

(** A state file that is not JSON is reported on [stderr], and the
    frame is otherwise as it was created. *)
Lemma load_undecodable repr st :
  load (Raise (JSONDecodeError repr)) st
  = (Ret tt, set_stderr (stderr st ++ [repr]) st).
Proof. reflexivity. Qed.

(** C4 (the code at the failing input).  What [save] writes for a frame
    in which no conversation was ever created is decoded without error
    and makes [load], and with it the constructor of the frame, end in
    a [TypeError]: the index of the current conversation is [None]. *)
Theorem load_of_saved_empty_state_raises :
  save fresh
  = JObj [("conversations", JArr []); ("current_conv_idx", JNull)] /\
  init (Ret (save fresh)) = (Raise TypeError, fresh).
Proof. split; reflexivity. Qed.

(** With the controls disabled, no thread left and no call queued, the
    user can only edit the input box: the controls stay disabled and the
    transcript and the conversations stay as they are. *)
Lemma nothing_pending_stays es : forall st st',
  right_button st = false -> left_list st = false -> left_button st = false ->
  threads st = [] -> call_after st = [] ->
  handle_all es st = Some st' ->
  right_button st' = false /\ left_list st' = false /\ left_button st' = false /\
  right_text st' = right_text st /\ conversations st' = conversations st.
Proof.
  induction es as [|e es IH]; intros st st' Hb Hl Hn Ht Hc; simpl.
  - intros [= <-]. auto.
  - destruct e as [text| | |selection| |i completion randint]; simpl.
    + intros H. apply (IH (set_input_text text st) st') in H; auto.
    + rewrite Hb. discriminate.
    + rewrite Hn. discriminate.
    + rewrite Hl. discriminate.
    + rewrite Hc. discriminate.
    + rewrite Ht. discriminate.
Qed.

(** ** Further properties of the frame *)

#[local] Instance same_pointers_preorder : PreOrder same_pointers.
Proof.
  split; unfold same_pointers.
  - intros st. auto.
  - intros a b c (H1 & H2 & H3) (H4 & H5 & H6). repeat split; congruence.
Qed.

(** What is kept by the writes a method is made of is kept by the
    method. *)
Section Kept.
Context (R : relation ChatClient) `{!PreOrder R}.
Hypothesis R_AppendText : forall s, keeps R (AppendText s).
Hypothesis R_set_right_text : forall s, keeps R (modify (set_right_text s)).
Hypothesis R_update_current : forall f, keeps R (update_current f).
Hypothesis R_set_title : forall p title, keeps R (set_title p title).
Hypothesis R_start_thread : forall t, keeps R (start_thread t).
Hypothesis R_CallAfter : forall c, keeps R (CallAfter c).
Hypothesis R_send : forall q, keeps R (send q).
Hypothesis R_think_fetch : forall conv and_then truncate_before,
  is_title_callback and_then = false ->
  keeps R (start_thinking_state;;
           get_next_completion conv and_then truncate_before).
Hypothesis R_think_fetch_current :
  keeps R (start_thinking_state;;
           st ← get;
           get_next_completion (current_conversation st)
             post_completion_conversation None).

Ltac kept_auto := repeat first [solve [eauto] | keeps_step].

Lemma kept_refresh_conversation_detail : keeps R refresh_conversation_detail.
Proof. unfold refresh_conversation_detail. kept_auto. Qed.

Lemma kept_get_title_for_conversation idx :
  keeps R (get_title_for_conversation idx).
Proof.
  unfold get_title_for_conversation, get_title_for_conversation_thread.
  kept_auto.
Qed.

Lemma kept_add_to_conversation r c : keeps R (add_to_conversation r c).
Proof.
  pose proof kept_refresh_conversation_detail.
  pose proof kept_get_title_for_conversation.
  unfold add_to_conversation, refresh_conversation_list. kept_auto.
Qed.

Lemma kept_add_to_branch sibling_level r c :
  keeps R (add_to_branch sibling_level r c).
Proof.
  pose proof kept_refresh_conversation_detail.
  unfold add_to_branch. kept_auto.
Qed.

Lemma kept_switch_branch msg_idx branch_idx :
  keeps R (switch_branch msg_idx branch_idx).
Proof.
  pose proof kept_refresh_conversation_detail.
  unfold switch_branch. kept_auto.
Qed.

Lemma kept_role_at_level msg_idx : keeps R (role_at_level msg_idx).
Proof. unfold role_at_level. kept_auto. Qed.

Lemma kept_new_branch sibling_level content :
  keeps R (new_branch sibling_level content).
Proof.
  pose proof kept_add_to_branch. pose proof kept_role_at_level.
  unfold new_branch. kept_auto.
Qed.

Lemma kept_new_child input_string : keeps R (new_child input_string).
Proof.
  pose proof kept_add_to_conversation.
  unfold new_child. kept_auto.
Qed.

Lemma kept_parse_command input_string : keeps R (parse_command input_string).
Proof.
  pose proof kept_new_branch. pose proof kept_new_child.
  pose proof kept_role_at_level.
  pose proof kept_switch_branch.
  unfold parse_command, unrecognized_command.
  destruct (startswith input_string "/sw").
  { destruct (split input_string) as [|? [|? [|? [|? ?]]]]; kept_auto. }
  destruct (startswith input_string "/nb").
  { destruct (split_maxsplit 2 input_string) as [|? [|? [|? [|? ?]]]]; kept_auto. }
  kept_auto.
Qed.

Lemma kept_and_then_call and_then resp : keeps R (and_then_call and_then resp).
Proof. unfold and_then_call, refresh_conversation_list. kept_auto. Qed.

Lemma kept_run_thread completion randint t :
  keeps R (run_thread completion randint t).
Proof.
  pose proof kept_and_then_call.
  unfold run_thread, _get_next_completion_thread,
    _get_title_for_conversation_thread.
  kept_auto.
Qed.

Lemma kept_run_call c :
  (forall b, keeps R (modify (set_controls b))) ->
  keeps R (run_call c).
Proof.
  intros Hc.
  pose proof kept_add_to_branch. pose proof kept_add_to_conversation.
  unfold run_call, stop_thinking_state. kept_auto.
Qed.
End Kept.

(** *** The current conversation and its index *)

Lemma same_pointers_untouched (f : ChatClient -> ChatClient) :
  (forall st, current_conversation (f st) = current_conversation st) ->
  (forall st, current_conversation_idx (f st) = current_conversation_idx st) ->
  (forall st, length (conversations (f st)) = length (conversations st)) ->
  keeps same_pointers (modify f).
Proof. intros H1 H2 H3 st. unfold modify; simpl. repeat split; auto. Qed.

Lemma pointers_AppendText s : keeps same_pointers (AppendText s).
Proof. apply same_pointers_untouched; reflexivity. Qed.

Lemma pointers_set_right_text s : keeps same_pointers (modify (set_right_text s)).
Proof. apply same_pointers_untouched; reflexivity. Qed.

Lemma pointers_set_controls b : keeps same_pointers (modify (set_controls b)).
Proof. apply same_pointers_untouched; reflexivity. Qed.

Lemma pointers_set_input_text s : keeps same_pointers (modify (set_input_text s)).
Proof. apply same_pointers_untouched; reflexivity. Qed.

Lemma pointers_start_thread t : keeps same_pointers (start_thread t).
Proof. apply same_pointers_untouched; reflexivity. Qed.

Lemma pointers_CallAfter c : keeps same_pointers (CallAfter c).
Proof. apply same_pointers_untouched; reflexivity. Qed.

Lemma pointers_send q : keeps same_pointers (send q).
Proof. apply same_pointers_untouched; reflexivity. Qed.

Lemma pointers_store r t : keeps same_pointers (store r t).
Proof.
  apply same_pointers_untouched; try reflexivity.
  intros st. simpl. apply length_alter.
Qed.

Lemma pointers_set_title p title : keeps same_pointers (set_title p title).
Proof.
  apply same_pointers_untouched; try reflexivity.
  intros st. simpl. apply length_alter.
Qed.

#[local] Hint Resolve pointers_AppendText pointers_set_right_text
  pointers_set_controls pointers_set_input_text pointers_start_thread
  pointers_CallAfter pointers_send pointers_store pointers_set_title : keeps.

Lemma pointers_update_current f : keeps same_pointers (update_current f).
Proof. unfold update_current. keeps_auto. Qed.

Lemma pointers_think_fetch conv and_then truncate_before :
  keeps same_pointers
    (start_thinking_state;; get_next_completion conv and_then truncate_before).
Proof. unfold start_thinking_state, get_next_completion. keeps_auto. Qed.

Lemma pointers_think_fetch_current :
  keeps same_pointers
    (start_thinking_state;;
     st ← get;
     get_next_completion (current_conversation st)
       post_completion_conversation None).
Proof. unfold start_thinking_state, get_next_completion. keeps_auto. Qed.
#[local] Hint Resolve pointers_update_current pointers_think_fetch
  pointers_think_fetch_current : keeps.

(** No command changes which conversation is current or how many there
    are. *)
Lemma pointers_parse_command input_string :
  keeps same_pointers (parse_command input_string).
Proof. apply kept_parse_command; eauto with keeps typeclass_instances. Qed.

Lemma pointers_run_call c : keeps same_pointers (run_call c).
Proof. apply kept_run_call; eauto with keeps typeclass_instances. Qed.

Lemma pointers_run_thread completion randint t :
  keeps same_pointers (run_thread completion randint t).
Proof. apply kept_run_thread; eauto with keeps typeclass_instances. Qed.

Lemma pointers_refresh_conversation_detail :
  keeps same_pointers refresh_conversation_detail.
Proof.
  apply kept_refresh_conversation_detail; eauto with keeps typeclass_instances.
Qed.
#[local] Hint Resolve pointers_parse_command pointers_run_call
  pointers_run_thread pointers_refresh_conversation_detail : keeps.

Lemma coherent_same_pointers st st' :
  same_pointers st st' -> coherent st -> coherent st'.
Proof.
  unfold coherent. intros (H1 & H2 & H3). rewrite H1, H2, H3.
  destruct (current_conversation st); [auto|].
  intros [Hnil Hidx]. split; [|exact Hidx].
  apply nil_length_inv. rewrite H3, Hnil. reflexivity.
Qed.

Lemma list_position_last (n : nat) :
  list_position (S n) (Z.of_nat (S n) - 1) = Ret n.
Proof.
  rewrite list_position_in_range by lia. f_equal. lia.
Qed.

(** However it ends, [create_conversation] leaves the frame pointing at
    the conversation it appended. *)
Lemma create_conversation_coherent st : coherent (snd (create_conversation st)).
Proof.
  unfold create_conversation.
  change (add_message "system" "You are a helpful assistant." None new_tree)
    with (Ret (mkConversationTree
                 (Some (leaf "system" "You are a helpful assistant.")))).
  unfold mbind at 1, M_bind at 1, lift at 1. cbv iota beta.
  unfold mbind at 1, M_bind at 1, get at 1. cbv iota beta.
  unfold mbind at 1, M_bind at 1, modify at 1. cbv iota beta.
  unfold mbind at 1, M_bind at 1, modify at 1. cbv iota beta.
  unfold mbind at 1, M_bind at 1, get at 1. cbv iota beta.
  unfold mbind at 1, M_bind at 1, modify at 1. cbv iota beta.
  match goal with
  | |- coherent (snd (?m ?s)) =>
      assert (H : keeps same_pointers m) by keeps_auto;
      apply (coherent_same_pointers s); [apply H|]
  end.
  unfold coherent, len; simpl. rewrite length_app. simpl.
  rewrite Nat.add_1_r. apply list_position_last.
Qed.

Lemma on_conversation_list_selected_coherent selection st :
  selection_listed (ev_select selection) st ->
  coherent st ->
  coherent (snd (on_conversation_list_selected selection st)).
Proof.
  destruct selection as [sel|]; simpl; [|auto]. intros Hsel _.
  unfold on_conversation_list_selected.
  unfold mbind at 1, M_bind at 1, get at 1. cbv iota beta.
  unfold mbind at 1, M_bind at 1, modify at 1. cbv iota beta.
  unfold mbind at 1, M_bind at 1, lift at 1. simpl conversations.
  unfold len in *.
  rewrite list_position_in_range by lia.
  unfold mbind at 1, M_bind at 1, modify at 1. cbv iota beta.
  match goal with
  | |- coherent (snd (?m ?s)) =>
      assert (H : keeps same_pointers m) by keeps_auto;
      apply (coherent_same_pointers s); [apply H|]
  end.
  unfold coherent; simpl. apply list_position_in_range. lia.
Qed.

Lemma on_send_pressed_coherent st :
  coherent st -> coherent (snd (on_send_pressed st)).
Proof.
  intros Hst. unfold on_send_pressed.
  unfold mbind at 1, M_bind at 1, get at 1. cbv iota beta.
  assert (Hrest : keeps same_pointers
                    (st0 ← get; parse_command (input_text st0);;
                     modify (set_input_text ""))) by keeps_auto.
  unfold mbind at 1, M_bind at 1.
  destruct (current_conversation st) eqn:Hcur.
  - unfold mret at 1, M_ret at 1.
    apply (coherent_same_pointers st); [apply Hrest | exact Hst].
  - pose proof (create_conversation_coherent st) as Hc.
    destruct (create_conversation st) as [[[]|e] st1]; simpl in Hc |- *.
    + apply (coherent_same_pointers st1); [apply Hrest | exact Hc].
    + exact Hc.
Qed.

(** X1.  The frame's index always names its current conversation:
    [self.conversations[self.current_conversation_idx][1]] is
    [self.current_conversation] when the frame is created, and after
    every event, however its handler ends, provided a selection is the
    position of a listed conversation; and while no conversation is
    current there is none. *)
Theorem index_names_current_conversation :
  coherent fresh /\
  (forall e st st',
     coherent st -> selection_listed e st -> handle e st = Some st' ->
     coherent st').
Proof.
  split; [split; reflexivity|].
  intros e st st' Hst Hsel He.
  destruct e as [text| | |selection| |i completion randint]; simpl in He.
  - injection He as <-. exact Hst.
  - destruct (right_button st); [|discriminate]. injection He as <-.
    apply on_send_pressed_coherent, Hst.
  - destruct (left_button st); [|discriminate]. injection He as <-.
    apply create_conversation_coherent.
  - destruct (left_list st); [|discriminate]. injection He as <-.
    apply on_conversation_list_selected_coherent; assumption.
  - destruct (call_after st) as [|c rest]; [discriminate|]. injection He as <-.
    apply (coherent_same_pointers (set_call_after rest st));
      [apply pointers_run_call | exact Hst].
  - destruct (threads st !! i) as [t|]; [|discriminate]. injection He as <-.
    apply (coherent_same_pointers (set_threads (delete i (threads st)) st));
      [apply pointers_run_thread | exact Hst].
Qed.

(** *** A new conversation *)

Lemma create_conversation_runs st :
  create_conversation st
  = (Ret tt,
     set_right_text (rendering system_tree)
       (set_current_conversation_idx (JInt (len (conversations st)))
          (set_current_conversation (Some (length (conversations st)))
             (set_conversations
                (conversations st ++ [(JStr "New conversation", system_tree)])
                st)))).
Proof.
  unfold create_conversation.
  change (add_message "system" "You are a helpful assistant." None new_tree)
    with (Ret system_tree).
  unfold mbind at 1, M_bind at 1, lift at 1. cbv iota beta.
  unfold mbind at 1, M_bind at 1, get at 1. cbv iota beta.
  unfold mbind at 1, M_bind at 1, modify at 1. cbv iota beta.
  unfold mbind at 1, M_bind at 1, modify at 1. cbv iota beta.
  unfold mbind at 1, M_bind at 1, get at 1. cbv iota beta.
  unfold mbind at 1, M_bind at 1, modify at 1. cbv iota beta.
  unfold mbind at 1, M_bind at 1, refresh_conversation_list, mret at 1, M_ret at 1.
  cbv iota beta.
  erewrite refresh_conversation_detail_shows.
  2: { unfold tree_of; simpl. rewrite list_lookup_middle by reflexivity.
       reflexivity. }
  simpl. unfold len. rewrite length_app. simpl.
  replace (Z.of_nat (length (conversations st) + 1) - 1)
    with (Z.of_nat (length (conversations st))) by lia.
  reflexivity.
Qed.

(** X2.  [create_conversation] never fails, whatever the state: it
    appends one conversation, titled ["New conversation"], whose tree is
    the system message alone, makes it the current one and shows it;
    the conversations there were, the controls, the threads and the
    queued calls are as they were. *)
Theorem create_conversation_effect st :
  create_conversation st
  = (Ret tt,
     set_right_text (rendering system_tree)
       (set_current_conversation_idx (JInt (len (conversations st)))
          (set_current_conversation (Some (length (conversations st)))
             (set_conversations
                (conversations st ++ [(JStr "New conversation", system_tree)])
                st)))) /\
  get_current_conversation_as_dicts system_tree
  = [mkDict "system" "You are a helpful assistant."] /\
  rendering system_tree
  = "0: <System>" +:+ nl +:+ "You are a helpful assistant." +:+ nl
    +:+ repeat_string "-" 50 +:+ nl.
Proof.
  split; [apply create_conversation_runs | split; reflexivity].
Qed.

(** *** A message sent *)

Lemma walk_nonempty m : (0 < length (walk m))%nat.
Proof. destruct (walk_head m) as [rest ->]. simpl. lia. Qed.

(** A message added without [after_index] is added, and is the new last
    entry of the path. *)
Lemma add_message_appended r c conv :
  exists conv',
    add_message r c None conv = Ret conv' /\
    get_current_conversation_as_dicts conv'
    = (get_current_conversation_as_dicts conv ++ [mkDict r c])%list.
Proof.
  unfold add_message, get_current_conversation_as_dicts, get_current_conversation.
  destruct (root conv) as [m|]; eexists; (split; [reflexivity|]); simpl.
  - pose proof (walk_nonempty m) as Hlen.
    rewrite walk_update_add_child by lia.
    replace (S (length (walk m) - 1)) with (length (map as_dict (walk m)))
      by (rewrite length_map; lia).
    rewrite firstn_all. reflexivity.
  - reflexivity.
Qed.

Lemma list_subscript_lookup {A : Type} (l : list A) idx p :
  list_subscript (length l) idx = Ret p -> exists x, l !! p = Some x.
Proof.
  intros H.
  assert (Hp : forall i, list_position (length l) i = Ret p -> (p < length l)%nat).
  { intros i. unfold list_position.
    destruct ((0 <=? i) && (i <? Z.of_nat (length l))) eqn:E1.
    - apply andb_prop in E1 as [E1 E2]. apply Z.leb_le in E1.
      apply Z.ltb_lt in E2. intros [= <-]. lia.
    - destruct ((- Z.of_nat (length l) <=? i) && (i <? 0)) eqn:E2; [|discriminate].
      apply andb_prop in E2 as [E2 E3]. apply Z.leb_le in E2.
      apply Z.ltb_lt in E3. intros [= <-]. lia. }
  apply lookup_lt_is_Some_2.
  destruct idx; simpl in H; try discriminate; eapply Hp; exact H.
Qed.

(** [add_to_conversation] on a frame whose index names its current
    conversation: the message is added and shown, and if the
    conversation was still titled ["New conversation"] and the message
    is the assistant's, it is retitled and its title thread started. *)
Lemma add_to_conversation_effect st r title conv rr cc :
  current_conversation st = Some r ->
  conversations st !! r = Some (title, conv) ->
  list_subscript (length (conversations st)) (current_conversation_idx st)
  = Ret r ->
  exists conv',
    add_message rr cc None conv = Ret conv' /\
    get_current_conversation_as_dicts conv'
    = (get_current_conversation_as_dicts conv ++ [mkDict rr cc])%list /\
    add_to_conversation rr cc st
    = (Ret tt,
       if eq_str title "New conversation" && String.eqb rr "assistant"
       then title_requested r (shown r conv' st)
       else shown r conv' st).
Proof.
  intros Hr Hlook Hidx.
  destruct (add_message_appended rr cc conv) as (conv' & Hadd & Hpath).
  exists conv'. split; [exact Hadd|]. split; [exact Hpath|].
  unfold add_to_conversation.
  pose proof (update_current_shows st r title conv (add_message rr cc None)
                conv' Hr Hlook Hadd) as Hupd.
  rewrite (seq_then _ _ _ st tt (shown r conv' st) Hupd).
  unfold mbind at 1, M_bind at 1, get at 1. cbv iota beta.
  assert (Hlen : length (conversations (shown r conv' st))
                 = length (conversations st))
    by (simpl; apply length_alter).
  assert (Hlook' : conversations (shown r conv' st) !! r = Some (title, conv')).
  { simpl. rewrite list_lookup_alter_eq, Hlook. reflexivity. }
  change (current_conversation_idx (shown r conv' st))
    with (current_conversation_idx st).
  unfold mbind at 1, M_bind at 1, lift at 1. rewrite Hlen, Hidx.
  unfold mbind at 1, M_bind at 1, lift at 1. rewrite Hlook'.
  cbv beta iota delta [fst].
  destruct (eq_str title "New conversation" && String.eqb rr "assistant");
    [|reflexivity].
  unfold set_title, refresh_conversation_list, get_title_for_conversation,
    get_title_for_conversation_thread, start_thread, mbind, M_bind, modify,
    mret, M_ret, get, lift.
  change (conversations (set_conversations ?v ?s)) with v.
  rewrite length_alter, Hlen, Hidx. reflexivity.
Qed.

Lemma slash_prefix p s :
  String.prefix (String "/" p) s = true -> String.prefix "/" s = true.
Proof.
  intros H. apply String.prefix_correct in H. apply String.prefix_correct.
  destruct s as [|a s]; simpl in H |- *; [discriminate|].
  injection H as -> _. destruct s; reflexivity.
Qed.

Lemma plain_text_not_command s :
  startswith s "/" = false ->
  startswith s "/sw" = false /\ startswith s "/nb" = false.
Proof.
  unfold startswith. intros H. split.
  - destruct (String.prefix "/sw" s) eqn:E; [|reflexivity].
    apply slash_prefix in E. congruence.
  - destruct (String.prefix "/nb" s) eqn:E; [|reflexivity].
    apply slash_prefix in E. congruence.
Qed.

(** X3.  Text that is not a command, sent to a frame whose index names
    its current conversation: the text becomes a user message at the end
    of the current path and is shown, no title changes, the controls are
    disabled, and one completion thread is started on the conversation,
    with no limit. *)
Theorem plain_text_is_sent input_string st r title conv :
  current_conversation st = Some r ->
  conversations st !! r = Some (title, conv) ->
  list_subscript (length (conversations st)) (current_conversation_idx st)
  = Ret r ->
  startswith input_string "/" = false ->
  exists conv',
    add_message "user" input_string None conv = Ret conv' /\
    get_current_conversation_as_dicts conv'
    = (get_current_conversation_as_dicts conv
         ++ [mkDict "user" input_string])%list /\
    parse_command input_string st
    = (Ret tt,
       set_threads
         (threads st
            ++ [completion_thread (Some r) post_completion_conversation None])
         (thinking (shown r conv' st))).
Proof.
  intros Hr Hlook Hidx Hplain.
  destruct (plain_text_not_command _ Hplain) as [Hsw Hnb].
  destruct (add_to_conversation_effect st r title conv "user" input_string
              Hr Hlook Hidx) as (conv' & Hadd & Hpath & Heff).
  exists conv'. split; [exact Hadd|]. split; [exact Hpath|].
  unfold parse_command. rewrite Hsw, Hnb, Hplain. unfold new_child.
  unfold mbind at 1, M_bind at 1. rewrite Heff.
  change (String.eqb "user" "assistant") with false. rewrite andb_false_r.
  cbv iota beta.
  rewrite <- Hr. reflexivity.
Qed.

(** *** From a message sent to the reply shown *)

Lemma on_send_pressed_plain st r title conv :
  current_conversation st = Some r ->
  conversations st !! r = Some (title, conv) ->
  list_subscript (length (conversations st)) (current_conversation_idx st)
  = Ret r ->
  startswith (input_text st) "/" = false ->
  exists conv',
    add_message "user" (input_text st) None conv = Ret conv' /\
    get_current_conversation_as_dicts conv'
    = (get_current_conversation_as_dicts conv
         ++ [mkDict "user" (input_text st)])%list /\
    on_send_pressed st
    = (Ret tt,
       set_input_text ""
         (set_threads
            (threads st
               ++ [completion_thread (Some r) post_completion_conversation None])
            (thinking (shown r conv' st)))).
Proof.
  intros Hr Hlook Hidx Hplain.
  destruct (plain_text_not_command _ Hplain) as [Hsw Hnb].
  destruct (add_to_conversation_effect st r title conv "user" (input_text st)
              Hr Hlook Hidx) as (conv' & Hadd & Hpath & Heff).
  assert (Hcmd : parse_command (input_text st) st
                 = (Ret tt,
                    set_threads
                      (threads st
                         ++ [completion_thread (Some r)
                               post_completion_conversation None])
                      (thinking (shown r conv' st)))).
  { unfold parse_command. rewrite Hsw, Hnb, Hplain. unfold new_child.
    unfold mbind at 1, M_bind at 1. rewrite Heff.
    change (String.eqb "user" "assistant") with false. rewrite andb_false_r.
    cbv iota beta.
    rewrite <- Hr. reflexivity. }
  exists conv'. split; [exact Hadd|]. split; [exact Hpath|].
  unfold on_send_pressed.
  unfold mbind at 1, M_bind at 1, get at 1. cbv iota beta. rewrite Hr.
  unfold mbind at 1, M_bind at 1, mret at 1, M_ret at 1. cbv iota beta.
  unfold mbind at 1, M_bind at 1, get at 1. cbv iota beta.
  unfold mbind at 1, M_bind at 1. rewrite Hcmd. reflexivity.
Qed.

(** X4.  From idle to idle.  On a frame whose index names its current
    conversation, with the controls enabled and no call queued: the
    user sends text that is not a command, the completion thread it
    starts runs with a call that succeeds (or without a key), and the
    frame makes the two calls the thread queued.  Then the three
    controls are enabled again, no call is queued, the input box is
    empty, and the current path has gained exactly the user's message
    and the reply; with a key the provider was sent the path ending in
    the user's message.  If the conversation was titled
    ["New conversation"] and the reply is the assistant's it is now
    titled ["Retrieving title..."] and its title thread is started;
    otherwise title and threads are as before. *)
Theorem message_sent_and_answered st r title conv resp randint :
  right_button st = true ->
  call_after st = [] ->
  current_conversation st = Some r ->
  conversations st !! r = Some (title, conv) ->
  list_subscript (length (conversations st)) (current_conversation_idx st)
  = Ret r ->
  startswith (input_text st) "/" = false ->
  let reply := reply_of resp randint in
  let first_reply :=
    eq_str title "New conversation" && String.eqb (dict_role reply) "assistant" in
  exists conv1 conv2 st',
    handle_all
      [ev_send; ev_thread (length (threads st)) (Ret resp) randint;
       ev_call; ev_call] st = Some st' /\
    add_message "user" (input_text st) None conv = Ret conv1 /\
    add_message (dict_role reply) (dict_content reply) None conv1 = Ret conv2 /\
    get_current_conversation_as_dicts conv2
    = (get_current_conversation_as_dicts conv
         ++ [mkDict "user" (input_text st); reply])%list /\
    conversations st' !! r
    = Some (if first_reply then JStr "Retrieving title..." else title, conv2) /\
    right_button st' = true /\ left_list st' = true /\ left_button st' = true /\
    call_after st' = [] /\ input_text st' = "" /\
    threads st'
    = (threads st
         ++ if first_reply
            then [title_thread (Some r)
                    (post_completion_title (current_conversation_idx st))]
            else [])%list /\
    requests st'
    = (requests st
         ++ if openai_api_key
            then [completion_request (get_current_conversation_as_dicts conv1)]
            else [])%list.
Proof.
  intros Hbutton Hqueue Hr Hlook Hidx Hplain reply first_reply.
  destruct (on_send_pressed_plain st r title conv Hr Hlook Hidx Hplain)
    as (conv1 & Hadd1 & Hpath1 & Hsend).
  set (st1 := set_input_text ""
                (set_threads
                   (threads st
                      ++ [completion_thread (Some r) post_completion_conversation
                            None])
                   (thinking (shown r conv1 st)))) in *.
  assert (H1 : handle ev_send st = Some st1).
  { unfold handle. rewrite Hbutton, Hsend. reflexivity. }
  (* the thread *)
  set (st1' := set_threads (threads st) st1).
  assert (Htree1 : tree_of (Some r) st1' = Some conv1).
  { unfold tree_of. simpl. rewrite list_lookup_alter_eq, Hlook. reflexivity. }
  set (st2 := set_call_after
                [call_add_to_conversation (dict_role reply) (dict_content reply);
                 call_stop_thinking_state]
                (if openai_api_key
                 then set_requests
                        (requests st
                           ++ [completion_request
                                 (get_current_conversation_as_dicts conv1)]) st1'
                 else st1')).
  assert (H2 : handle (ev_thread (length (threads st)) (Ret resp) randint) st1
               = Some st2).
  { unfold handle.
    change (threads st1)
      with (threads st
              ++ [completion_thread (Some r) post_completion_conversation None])%list.
    rewrite list_lookup_middle by reflexivity.
    rewrite delete_middle, app_nil_r. fold st1'.
    unfold run_thread.
    rewrite (completion_thread_runs resp randint (Some r)
               post_completion_conversation None st1' conv1 Htree1).
    fold reply. unfold st2.
    destruct openai_api_key; simpl; rewrite Hqueue; reflexivity. }
  (* the first call *)
  set (st2' := set_call_after [call_stop_thinking_state] st2).
  assert (Hr2 : current_conversation st2' = Some r).
  { unfold st2', st2. destruct openai_api_key; exact Hr. }
  assert (Hconv2 : conversations st2'
                   = alter (fun p => (fst p, conv1)) r (conversations st)).
  { unfold st2', st2. destruct openai_api_key; reflexivity. }
  assert (Hlook2 : conversations st2' !! r = Some (title, conv1)).
  { rewrite Hconv2, list_lookup_alter_eq, Hlook. reflexivity. }
  assert (Hidx2 : list_subscript (length (conversations st2'))
                    (current_conversation_idx st2') = Ret r).
  { rewrite Hconv2, length_alter.
    replace (current_conversation_idx st2') with (current_conversation_idx st)
      by (unfold st2', st2; destruct openai_api_key; reflexivity).
    exact Hidx. }
  destruct (add_to_conversation_effect st2' r title conv1 (dict_role reply)
              (dict_content reply) Hr2 Hlook2 Hidx2)
    as (conv2 & Hadd2 & Hpath2 & Heff).
  fold first_reply in Heff.
  set (st3 := if first_reply then title_requested r (shown r conv2 st2')
              else shown r conv2 st2') in *.
  assert (H3 : handle ev_call st2 = Some st3).
  { unfold handle.
    replace (call_after st2)
      with [call_add_to_conversation (dict_role reply) (dict_content reply);
            call_stop_thinking_state]
      by (unfold st2; reflexivity).
    fold st2'. unfold run_call. rewrite Heff. reflexivity. }
  assert (Hq3 : call_after st3 = [call_stop_thinking_state]).
  { unfold st3. destruct first_reply; reflexivity. }
  assert (H4 : handle ev_call st3
               = Some (set_controls true (set_call_after [] st3))).
  { unfold handle. rewrite Hq3. reflexivity. }
  exists conv1, conv2, (set_controls true (set_call_after [] st3)).
  split.
  { rewrite (handle_all_cons _ _ _ _ H1), (handle_all_cons _ _ _ _ H2),
      (handle_all_cons _ _ _ _ H3), (handle_all_cons _ _ _ _ H4). reflexivity. }
  split; [exact Hadd1|]. split; [exact Hadd2|].
  split.
  { rewrite Hpath2, Hpath1, <- app_assoc. destruct reply; reflexivity. }
  split.
  { change (conversations (set_controls true (set_call_after [] st3)))
      with (conversations st3).
    unfold st3. destruct first_reply.
    - change (conversations (title_requested r (shown r conv2 st2')))
        with (alter (fun c => (JStr "Retrieving title...", snd c)) r
                (alter (fun p => (fst p, conv2)) r (conversations st2'))).
      rewrite Hconv2, !list_lookup_alter_eq, Hlook. reflexivity.
    - change (conversations (shown r conv2 st2'))
        with (alter (fun p => (fst p, conv2)) r (conversations st2')).
      rewrite Hconv2, !list_lookup_alter_eq, Hlook. reflexivity. }
  do 5 (split; [unfold st3, st2', st2; destruct first_reply;
                destruct openai_api_key; reflexivity|]).
  split.
  - unfold st3. destruct first_reply; simpl.
    + unfold st2', st2. destruct openai_api_key; reflexivity.
    + unfold st2', st2. rewrite app_nil_r. destruct openai_api_key; reflexivity.
  - unfold st3. destruct first_reply; simpl;
      unfold st2', st2; destruct openai_api_key; simpl;
      rewrite ?app_nil_r; reflexivity.
Qed.

(** *** From a reply asked again to the new reply shown *)

Lemma nb_assistant_command input_string p0 p1 st r title conv (N : Z) m :
  current_conversation st = Some r ->
  conversations st !! r = Some (title, conv) ->
  startswith input_string "/nb" = true ->
  (split_maxsplit 2 input_string = [p0; p1] \/
   exists txt, split_maxsplit 2 input_string = [p0; p1; txt]) ->
  int p1 = Ret N ->
  1 <= N < len (get_current_conversation conv) ->
  get_current_conversation conv !! Z.to_nat N = Some m ->
  role m = "assistant" ->
  parse_command input_string st
  = (Ret tt,
     set_threads
       (threads st
          ++ [completion_thread (Some r) (post_completion_branch N) (Some N)])
       (thinking st)).
Proof.
  intros Hr Hlook Hnb Hsplit Hint Hrange Hm Hrole.
  assert (Hconv : tree_of (current_conversation st) st = Some conv).
  { unfold tree_of. rewrite Hr, Hlook. reflexivity. }
  unfold parse_command. rewrite (nb_not_sw _ Hnb), Hnb.
  destruct Hsplit as [-> | [txt ->]].
  - unfold mbind at 1, M_bind at 1, lift at 1. rewrite Hint.
    unfold mbind at 1, M_bind at 1.
    rewrite (role_at_level_in_range st conv N m Hconv) by (lia || exact Hm).
    rewrite Hrole. change (String.eqb "assistant" "assistant") with true.
    cbv iota.
    apply (new_branch_assistant st r title conv N m); assumption.
  - unfold mbind at 1, M_bind at 1, lift at 1. rewrite Hint.
    apply (new_branch_assistant st r title conv N m); assumption.
Qed.

(** X5.  A reply asked again.  With the controls enabled and no call
    queued, the user sends [/nb N], with or without text, where the
    message at [N] of the current path is the assistant's; the
    completion thread runs with a call that succeeds (or without a key)
    and the frame makes the two calls it queued.  Then the reply is the
    entry [N] of the current path, after the [N] entries that were
    before it, and the path ends there; with a key the provider was sent
    exactly those [N] entries.  The controls are enabled again, no call
    is queued, and the title of the conversation and the threads are as
    before: a reply added this way never asks for a title. *)
Theorem reply_asked_again st r title conv p0 p1 (N : Z) m resp randint :
  right_button st = true ->
  call_after st = [] ->
  current_conversation st = Some r ->
  conversations st !! r = Some (title, conv) ->
  startswith (input_text st) "/nb" = true ->
  (split_maxsplit 2 (input_text st) = [p0; p1] \/
   exists txt, split_maxsplit 2 (input_text st) = [p0; p1; txt]) ->
  int p1 = Ret N ->
  1 <= N < len (get_current_conversation conv) ->
  get_current_conversation conv !! Z.to_nat N = Some m ->
  role m = "assistant" ->
  let reply := reply_of resp randint in
  exists conv' st',
    handle_all
      [ev_send; ev_thread (length (threads st)) (Ret resp) randint;
       ev_call; ev_call] st = Some st' /\
    add_message (dict_role reply) (dict_content reply) (Some (N - 1)) conv
    = Ret conv' /\
    get_current_conversation_as_dicts conv'
    = (take (Z.to_nat N) (get_current_conversation_as_dicts conv) ++ [reply])%list /\
    conversations st' !! r = Some (title, conv') /\
    right_button st' = true /\ left_list st' = true /\ left_button st' = true /\
    call_after st' = [] /\ input_text st' = "" /\
    threads st' = threads st /\
    requests st'
    = (requests st
         ++ if openai_api_key
            then [completion_request
                    (take (Z.to_nat N) (get_current_conversation_as_dicts conv))]
            else [])%list.
Proof.
  intros Hbutton Hqueue Hr Hlook Hnb Hsplit Hint Hrange Hm Hrole reply.
  pose proof (nb_assistant_command (input_text st) p0 p1 st r title conv N m
                Hr Hlook Hnb Hsplit Hint Hrange Hm Hrole) as Hcmd.
  set (st1 := set_input_text ""
                (set_threads
                   (threads st
                      ++ [completion_thread (Some r) (post_completion_branch N)
                            (Some N)])
                   (thinking st))).
  assert (H1 : handle ev_send st = Some st1).
  { unfold handle. rewrite Hbutton. unfold on_send_pressed.
    unfold mbind at 1, M_bind at 1, get at 1. cbv iota beta. rewrite Hr.
    unfold mbind at 1, M_bind at 1, mret at 1, M_ret at 1. cbv iota beta.
    unfold mbind at 1, M_bind at 1, get at 1. cbv iota beta.
    unfold mbind at 1, M_bind at 1. rewrite Hcmd. reflexivity. }
  set (st1' := set_threads (threads st) st1).
  assert (Htree1 : tree_of (Some r) st1' = Some conv).
  { unfold tree_of. simpl. rewrite Hlook. reflexivity. }
  set (st2 := set_call_after
                [call_add_to_branch N (dict_role reply) (dict_content reply);
                 call_stop_thinking_state]
                (if openai_api_key
                 then set_requests
                        (requests st
                           ++ [completion_request
                                 (take (Z.to_nat N)
                                    (get_current_conversation_as_dicts conv))])
                        st1'
                 else st1')).
  assert (H2 : handle (ev_thread (length (threads st)) (Ret resp) randint) st1
               = Some st2).
  { unfold handle.
    change (threads st1)
      with (threads st
              ++ [completion_thread (Some r) (post_completion_branch N)
                    (Some N)])%list.
    rewrite list_lookup_middle by reflexivity.
    rewrite delete_middle, app_nil_r. fold st1'.
    unfold run_thread.
    rewrite (completion_thread_runs resp randint (Some r)
               (post_completion_branch N) (Some N) st1' conv Htree1).
    fold reply. unfold st2, slice_to.
    destruct (Z.leb_spec 0 N); [|lia].
    destruct openai_api_key; simpl; rewrite Hqueue; reflexivity. }
  set (st2' := set_call_after [call_stop_thinking_state] st2).
  assert (Hr2 : current_conversation st2' = Some r).
  { unfold st2', st2. destruct openai_api_key; exact Hr. }
  assert (Hconv2 : conversations st2' = conversations st).
  { unfold st2', st2. destruct openai_api_key; reflexivity. }
  assert (Hlook2 : conversations st2' !! r = Some (title, conv)).
  { rewrite Hconv2. exact Hlook. }
  destruct (add_to_branch_in_range st2' r title conv N (dict_role reply)
              (dict_content reply) Hr2 Hlook2 Hrange)
    as (conv' & Hadd & Hbranch).
  assert (H3 : handle ev_call st2 = Some (shown r conv' st2')).
  { unfold handle.
    replace (call_after st2)
      with [call_add_to_branch N (dict_role reply) (dict_content reply);
            call_stop_thinking_state]
      by (unfold st2; reflexivity).
    fold st2'. unfold run_call.
    unfold mbind at 1, M_bind at 1. rewrite Hbranch. reflexivity. }
  assert (H4 : handle ev_call (shown r conv' st2')
               = Some (set_controls true
                         (set_call_after [] (shown r conv' st2')))).
  { unfold handle.
    replace (call_after (shown r conv' st2')) with [call_stop_thinking_state]
      by reflexivity.
    reflexivity. }
  exists conv', (set_controls true (set_call_after [] (shown r conv' st2'))).
  split.
  { rewrite (handle_all_cons _ _ _ _ H1), (handle_all_cons _ _ _ _ H2),
      (handle_all_cons _ _ _ _ H3), (handle_all_cons _ _ _ _ H4). reflexivity. }
  split; [exact Hadd|].
  split.
  { rewrite (add_message_path _ _ (N - 1) conv conv' Hadd).
    replace (N - 1 + 1) with N by lia. destruct reply; reflexivity. }
  split.
  { change (conversations
              (set_controls true (set_call_after [] (shown r conv' st2'))))
      with (alter (fun p => (fst p, conv')) r (conversations st2')).
    rewrite Hconv2, list_lookup_alter_eq, Hlook. reflexivity. }
  do 5 (split; [unfold st2', st2; destruct openai_api_key; reflexivity|]).
  split.
  - unfold st2', st2. destruct openai_api_key; reflexivity.
  - unfold st2', st2. destruct openai_api_key; simpl;
      rewrite ?app_nil_r; reflexivity.
Qed.

(** *** Switching a branch *)

(** X6.  [switch_branch] never raises.  Either the frame has a current
    conversation and [change_branch], called one position lower on both
    arguments, returned a tree: then that tree replaces the conversation's
    and is shown, and the result is [True].  Or the result is [False],
    and the text of the exception has been appended to the transcript
    and nothing else has changed: no tree, no title, no control. *)
Theorem switch_branch_never_raises msg_idx branch_idx st :
  (exists r title conv conv',
     current_conversation st = Some r /\
     conversations st !! r = Some (title, conv) /\
     change_branch conv (msg_idx - 1) (branch_idx - 1) = Ret conv' /\
     switch_branch msg_idx branch_idx st = (Ret true, shown r conv' st)) \/
  (exists e,
     switch_branch msg_idx branch_idx st
     = (Ret false,
        set_right_text (right_text st +:+ nl +:+ nl +:+ exception_text e) st)).
Proof.
  destruct (current_conversation st) as [r|] eqn:Hr.
  - destruct (conversations st !! r) as [[title conv]|] eqn:Hlook.
    + destruct (change_branch conv (msg_idx - 1) (branch_idx - 1))
        as [conv'|e] eqn:Hc.
      * left. exists r, title, conv, conv'. repeat split; try assumption.
        apply (switch_branch_done st r title conv); assumption.
      * right. exists e.
        apply (switch_branch_refused st r title conv); assumption.
    + right. exists AttributeError.
      unfold switch_branch, try_except, update_current, mbind, M_bind, get.
      rewrite Hr. unfold deref, tree_of. rewrite Hlook. reflexivity.
  - right. exists AttributeError.
    unfold switch_branch, try_except, update_current, mbind, M_bind, get.
    rewrite Hr. reflexivity.
Qed.

(** *** Showing a conversation *)

(** X7.  [stringify_conversation] never raises, whatever the tree: for
    every message after the first, the message before it is on the path
    and has a selected child, so [get_branch_width(i-1)],
    [current_conv[i-1]] and [child_idx+1] all succeed; and with a current
    conversation [refresh_conversation_detail] replaces the transcript by
    that text. *)
Theorem conversation_is_always_shown :
  (forall conv, exists text, stringify_conversation conv = Ret text) /\
  (forall st conv,
     tree_of (current_conversation st) st = Some conv ->
     exists text,
       stringify_conversation conv = Ret text /\
       refresh_conversation_detail st = (Ret tt, set_right_text text st)).
Proof.
  split.
  - intros conv. exists (rendering conv). apply stringify_conversation_rendering.
  - intros st conv Hconv. exists (rendering conv).
    split; [apply stringify_conversation_rendering|].
    apply refresh_conversation_detail_shows, Hconv.
Qed.

(** *** Saved state, loaded *)

Lemma map_outcome_inverse {A B : Type} (f : B -> outcome A) (g : A -> B)
    (l : list A) :
  (forall a, f (g a) = Ret a) -> map_outcome f (map g l) = Ret l.
Proof.
  intros H. induction l as [|a l IH]; simpl; [reflexivity|].
  rewrite H, IH. reflexivity.
Qed.

(** X8.  What [save] wrote is what [load] restores.  If [unserialize]
    undoes [serialize], and the index of the saved frame names one of its
    conversations, then loading the saved value never fails: the frame
    has the saved conversations, titles and trees, in the saved order,
    the saved index, the conversation the index names as its current
    one, and shows it. *)
Theorem saved_state_is_loaded st st0 p :
  (forall t, unserialize (serialize t) = Ret t) ->
  list_subscript (length (conversations st)) (current_conversation_idx st)
  = Ret p ->
  exists title conv,
    conversations st !! p = Some (title, conv) /\
    load (Ret (save st)) st0
    = (Ret tt,
       set_right_text (rendering conv)
         (set_current_conversation (Some p)
            (set_current_conversation_idx (current_conversation_idx st)
               (set_conversations (conversations st) st0)))).
Proof.
  intros Hround Hidx.
  destruct (list_subscript_lookup _ _ _ Hidx) as [[title conv] Hlook].
  exists title, conv. split; [exact Hlook|].
  unfold load, try_except.
  assert (Hentries :
    map_outcome
      (fun a =>
         title ← getitem_int a 0;
         blob ← getitem_int a 1;
         tree ← unserialize blob;
         Ret (title, tree))
      (map (fun a => JArr [fst a; serialize (snd a)]) (conversations st))
    = Ret (conversations st)).
  { apply map_outcome_inverse. intros [t tr].
    change (getitem_int (JArr [(t, tr).1; serialize (t, tr).2]) 0) with (Ret t).
    change (getitem_int (JArr [(t, tr).1; serialize (t, tr).2]) 1)
      with (Ret (serialize tr)).
    unfold mbind, outcome_bind. rewrite Hround. reflexivity. }
  unfold mbind at 1, M_bind at 1, lift at 1. cbv iota beta.
  unfold mbind at 1, M_bind at 1, lift at 1.
  change (v ← getitem_str (save st) "conversations"; iterate v)
    with (Ret (map (fun a => JArr [fst a; serialize (snd a)]) (conversations st))).
  cbv iota beta.
  unfold mbind at 1, M_bind at 1, lift at 1. rewrite Hentries. cbv iota beta.
  unfold mbind at 1, M_bind at 1, modify at 1. cbv iota beta.
  unfold mbind at 1, M_bind at 1, lift at 1.
  change (getitem_str (save st) "current_conv_idx")
    with (Ret (current_conversation_idx st)).
  cbv iota beta.
  unfold mbind at 1, M_bind at 1, modify at 1. cbv iota beta.
  unfold mbind at 1, M_bind at 1, lift at 1. rewrite Hidx. cbv iota beta.
  unfold mbind at 1, M_bind at 1, modify at 1. cbv iota beta.
  unfold mbind at 1, M_bind at 1, refresh_conversation_list, mret at 1, M_ret at 1.
  cbv iota beta.
  erewrite refresh_conversation_detail_shows.
  2: { unfold tree_of. simpl. rewrite Hlook. reflexivity. }
  reflexivity.
Qed.

(** *** What no command does *)

(** X9.  No command, no queued call and no worker changes which
    conversation is current, the index kept beside it, or the number of
    conversations, however it ends: only [create_conversation] and a
    selection in the list do. *)
Theorem pointers_are_left_alone :
  (forall input_string, keeps same_pointers (parse_command input_string)) /\
  (forall c, keeps same_pointers (run_call c)) /\
  (forall completion randint t,
     keeps same_pointers (run_thread completion randint t)).
Proof.
  split; [exact pointers_parse_command|].
  split; [exact pointers_run_call | exact pointers_run_thread].
Qed.

(** *** Which trees a step may touch *)

#[local] Instance others_kept_preorder : PreOrder others_kept.
Proof.
  split; unfold others_kept.
  - intros st. split; [reflexivity|]. eauto.
  - intros a b c [H1 H2] [H3 H4]. split; [congruence|].
    intros q title tree Hq Hlook.
    destruct (H2 q title tree Hq Hlook) as [title' Hb].
    apply (H4 q title' tree); [congruence | exact Hb].
Qed.

Lemma others_kept_untouched (f : ChatClient -> ChatClient) :
  (forall st, current_conversation (f st) = current_conversation st) ->
  (forall st, conversations (f st) = conversations st) ->
  keeps others_kept (modify f).
Proof.
  intros H1 H2 st. unfold modify; simpl. split; [apply H1|].
  intros q title tree _ Hlook. rewrite H2. eauto.
Qed.

Lemma others_AppendText s : keeps others_kept (AppendText s).
Proof. apply others_kept_untouched; reflexivity. Qed.

Lemma others_set_right_text s : keeps others_kept (modify (set_right_text s)).
Proof. apply others_kept_untouched; reflexivity. Qed.

Lemma others_set_controls b : keeps others_kept (modify (set_controls b)).
Proof. apply others_kept_untouched; reflexivity. Qed.

Lemma others_set_input_text s : keeps others_kept (modify (set_input_text s)).
Proof. apply others_kept_untouched; reflexivity. Qed.

Lemma others_start_thread t : keeps others_kept (start_thread t).
Proof. apply others_kept_untouched; reflexivity. Qed.

Lemma others_CallAfter c : keeps others_kept (CallAfter c).
Proof. apply others_kept_untouched; reflexivity. Qed.

Lemma others_send q : keeps others_kept (send q).
Proof. apply others_kept_untouched; reflexivity. Qed.

Lemma others_set_title p title : keeps others_kept (set_title p title).
Proof.
  intros st. split; [reflexivity|].
  intros q t tree _ Hlook.
  change (conversations (snd (set_title p title st)))
    with (alter (fun c : json * ConversationTree => (title, snd c)) p
            (conversations st)).
  destruct (decide (q = p)) as [->|Hne].
  - rewrite list_lookup_alter_eq, Hlook. simpl. eauto.
  - rewrite list_lookup_alter_ne by congruence. eauto.
Qed.

(** A method of the current conversation changes the tree of that
    conversation only. *)
Lemma others_update_current f : keeps others_kept (update_current f).
Proof.
  unfold update_current. apply keeps_from_state. intros st.
  destruct (current_conversation st) as [r|] eqn:Hr; [|reflexivity].
  unfold mbind, M_bind, deref, lift, store, modify.
  destruct (tree_of (Some r) st) as [t|]; [|reflexivity].
  destruct (f t) as [t'|e]; [|reflexivity].
  split; [reflexivity|].
  intros q title tree Hq Hlook.
  change (conversations
            (snd (Ret tt,
                  set_conversations
                    (alter (fun p : json * ConversationTree => (fst p, t')) r
                       (conversations st)) st)))
    with (alter (fun p : json * ConversationTree => (fst p, t')) r
            (conversations st)).
  rewrite list_lookup_alter_ne by congruence. eauto.
Qed.

#[local] Hint Resolve others_AppendText others_set_right_text
  others_set_controls others_set_input_text others_start_thread
  others_CallAfter others_send others_set_title others_update_current : keeps.

Lemma others_think_fetch conv and_then truncate_before :
  keeps others_kept
    (start_thinking_state;; get_next_completion conv and_then truncate_before).
Proof. unfold start_thinking_state, get_next_completion. keeps_auto. Qed.

Lemma others_think_fetch_current :
  keeps others_kept
    (start_thinking_state;;
     st ← get;
     get_next_completion (current_conversation st)
       post_completion_conversation None).
Proof. unfold start_thinking_state, get_next_completion. keeps_auto. Qed.
#[local] Hint Resolve others_think_fetch others_think_fetch_current : keeps.

Lemma others_parse_command input_string :
  keeps others_kept (parse_command input_string).
Proof. apply kept_parse_command; eauto with keeps typeclass_instances. Qed.

Lemma others_run_call c : keeps others_kept (run_call c).
Proof. apply kept_run_call; eauto with keeps typeclass_instances. Qed.

Lemma others_run_thread completion randint t :
  keeps others_kept (run_thread completion randint t).
Proof. apply kept_run_thread; eauto with keeps typeclass_instances. Qed.
#[local] Hint Resolve others_parse_command : keeps.

(** X10.  A step of the frame touches no tree but the current one's.
    Whatever the event and however its handler ends, every conversation
    that is not the current one when the event happens is still there,
    at its position, with the tree it had. *)
Theorem other_conversations_untouched e st st' q title tree :
  handle e st = Some st' ->
  current_conversation st <> Some q ->
  conversations st !! q = Some (title, tree) ->
  exists title', conversations st' !! q = Some (title', tree).
Proof.
  intros He Hq Hlook.
  destruct e as [text| | |selection| |i completion randint]; simpl in He.
  - injection He as <-. simpl. eauto.
  - destruct (right_button st); [|discriminate]. injection He as <-.
    unfold on_send_pressed.
    unfold mbind at 1, M_bind at 1, get at 1. cbv iota beta.
    assert (Hrest : keeps others_kept
                      (st0 ← get; parse_command (input_text st0);;
                       modify (set_input_text ""))) by keeps_auto.
    unfold mbind at 1, M_bind at 1.
    destruct (current_conversation st) eqn:Hcur.
    + unfold mret at 1, M_ret at 1.
      apply (proj2 (Hrest st) q title tree); [congruence | exact Hlook].
    + rewrite (create_conversation_runs st).
      match goal with
      | |- context [(?m ?s).2] =>
          apply (proj2 (Hrest s) q title tree)
      end.
      * simpl. intros [= Heq]. apply lookup_lt_Some in Hlook. lia.
      * simpl. apply lookup_app_l_Some, Hlook.
  - destruct (left_button st); [|discriminate]. injection He as <-.
    rewrite (create_conversation_runs st). simpl.
    exists title. apply lookup_app_l_Some, Hlook.
  - destruct (left_list st); [|discriminate]. injection He as <-.
    assert (H : keeps (on_conversations eq)
                  (on_conversation_list_selected selection)).
    { unfold on_conversation_list_selected. keeps_auto. }
    specialize (H st). unfold on_conversations in H. rewrite <- H. eauto.
  - destruct (call_after st) as [|c rest]; [discriminate|]. injection He as <-.
    apply (proj2 (others_run_call c (set_call_after rest st)) q title tree);
      assumption.
  - destruct (threads st !! i) as [t|]; [|discriminate]. injection He as <-.
    apply (proj2 (others_run_thread completion randint t
                    (set_threads (delete i (threads st)) st)) q title tree);
      assumption.
Qed.

(** *** When the controls are disabled *)

Lemma same_controls_refl st : same_controls st st.
Proof. unfold same_controls. auto. Qed.

Lemma same_controls_trans a b c :
  same_controls a b -> same_controls b c -> same_controls a c.
Proof. unfold same_controls. intros (? & ? & ?) (? & ? & ?). repeat split; congruence. Qed.

#[local] Instance quiet_preorder : PreOrder quiet.
Proof.
  split; unfold quiet.
  - intros st. split; [exists []; rewrite app_nil_r; reflexivity|].
    split; [reflexivity | apply same_controls_refl].
  - intros a b c ([s1 H1] & H2 & H3) ([s2 H4] & H5 & H6).
    split; [exists (s1 ++ s2)%list; rewrite H4, H1, app_assoc; reflexivity|].
    split; [congruence | eapply same_controls_trans; eassumption].
Qed.

#[local] Instance quiet_or_fetching_preorder : PreOrder quiet_or_fetching.
Proof.
  split; unfold quiet_or_fetching.
  - intros st. split; [exists []; rewrite app_nil_r; reflexivity|].
    split; [reflexivity | left; apply same_controls_refl].
  - intros a b c ([s1 H1] & H2 & H3) ([s2 H4] & H5 & H6).
    split; [exists (s1 ++ s2)%list; rewrite H4, H1, app_assoc; reflexivity|].
    split; [congruence|].
    destruct H6 as [H6 | H6]; [|right; exact H6].
    destruct H3 as [H3 | (Hb & Hl & Hn & t & Ht & Hf)].
    + left. eapply same_controls_trans; eassumption.
    + right. destruct H6 as (E1 & E2 & E3).
      split; [congruence|]. split; [congruence|]. split; [congruence|].
      exists t. split; [|exact Hf]. rewrite H4. apply elem_of_app. left. exact Ht.
Qed.

#[local] Instance only_queues_preorder : PreOrder only_queues.
Proof.
  split; unfold only_queues.
  - intros st. split; [reflexivity|].
    split; [exists []; rewrite app_nil_r; reflexivity | apply same_controls_refl].
  - intros a b c (H1 & [s1 H2] & H3) (H4 & [s2 H5] & H6).
    split; [congruence|].
    split; [exists (s1 ++ s2)%list; rewrite H5, H2, app_assoc; reflexivity|].
    eapply same_controls_trans; eassumption.
Qed.

Lemma quiet_fetching st st' : quiet st st' -> quiet_or_fetching st st'.
Proof. intros (H1 & H2 & H3). split; [exact H1|]. split; [exact H2 | left; exact H3]. Qed.

Lemma quiet_untouched (f : ChatClient -> ChatClient) :
  (forall st, threads (f st) = threads st) ->
  (forall st, call_after (f st) = call_after st) ->
  (forall st, same_controls st (f st)) ->
  keeps quiet (modify f).
Proof.
  intros H1 H2 H3 st. unfold modify; simpl.
  split; [exists []; rewrite app_nil_r; apply H1|]. split; [apply H2 | apply H3].
Qed.

Lemma quiet_AppendText s : keeps quiet (AppendText s).
Proof. apply quiet_untouched; try reflexivity. intros st; repeat split. Qed.

Lemma quiet_set_right_text s : keeps quiet (modify (set_right_text s)).
Proof. apply quiet_untouched; try reflexivity. intros st; repeat split. Qed.

Lemma quiet_set_input_text s : keeps quiet (modify (set_input_text s)).
Proof. apply quiet_untouched; try reflexivity. intros st; repeat split. Qed.

Lemma quiet_set_conversations f :
  keeps quiet (modify (fun st => set_conversations (f st) st)).
Proof. apply quiet_untouched; try reflexivity. intros st; repeat split. Qed.

Lemma quiet_set_current_conversation v :
  keeps quiet (modify (set_current_conversation v)).
Proof. apply quiet_untouched; try reflexivity. intros st; repeat split. Qed.

Lemma quiet_set_current_conversation_idx v :
  keeps quiet (modify (set_current_conversation_idx v)).
Proof. apply quiet_untouched; try reflexivity. intros st; repeat split. Qed.

Lemma quiet_store r t : keeps quiet (store r t).
Proof. apply quiet_set_conversations. Qed.

Lemma quiet_set_title p title : keeps quiet (set_title p title).
Proof. apply quiet_set_conversations. Qed.

Lemma quiet_start_thread t : keeps quiet (start_thread t).
Proof.
  intros st. unfold start_thread, modify; simpl.
  split; [exists [t]; reflexivity|]. split; [reflexivity | repeat split].
Qed.

#[local] Hint Resolve quiet_AppendText quiet_set_right_text quiet_set_input_text
  quiet_set_current_conversation quiet_set_current_conversation_idx
  quiet_store quiet_set_title quiet_start_thread : keeps.

Lemma quiet_update_current f : keeps quiet (update_current f).
Proof. unfold update_current. keeps_auto. Qed.
#[local] Hint Resolve quiet_update_current : keeps.

Lemma quiet_refresh_conversation_detail : keeps quiet refresh_conversation_detail.
Proof. apply kept_refresh_conversation_detail; eauto with keeps typeclass_instances. Qed.

Lemma quiet_add_to_branch sibling_level r c :
  keeps quiet (add_to_branch sibling_level r c).
Proof. apply kept_add_to_branch; eauto with keeps typeclass_instances. Qed.

Lemma quiet_add_to_conversation r c : keeps quiet (add_to_conversation r c).
Proof. apply kept_add_to_conversation; eauto with keeps typeclass_instances. Qed.
#[local] Hint Resolve quiet_refresh_conversation_detail : keeps.

Lemma quiet_create_conversation : keeps quiet create_conversation.
Proof.
  intros st. rewrite (create_conversation_runs st). simpl.
  split; [exists []; rewrite app_nil_r; reflexivity|].
  split; [reflexivity | repeat split].
Qed.

Lemma quiet_on_conversation_list_selected selection :
  keeps quiet (on_conversation_list_selected selection).
Proof. unfold on_conversation_list_selected. keeps_auto. Qed.

(** The two ways a fetch starts: the controls are disabled and the
    completion thread is started at once. *)
Lemma fetching_think_fetch conv and_then truncate_before :
  is_title_callback and_then = false ->
  keeps quiet_or_fetching
    (start_thinking_state;; get_next_completion conv and_then truncate_before).
Proof.
  intros Hcb st. simpl.
  split; [eexists; reflexivity|]. split; [reflexivity|].
  right. repeat split.
  exists (completion_thread conv and_then truncate_before).
  split; [apply elem_of_app; right; apply list_elem_of_here|].
  simpl. rewrite Hcb. reflexivity.
Qed.

Lemma fetching_think_fetch_current :
  keeps quiet_or_fetching
    (start_thinking_state;;
     st ← get;
     get_next_completion (current_conversation st)
       post_completion_conversation None).
Proof.
  intros st. simpl.
  split; [eexists; reflexivity|]. split; [reflexivity|].
  right. repeat split.
  eexists. split; [apply elem_of_app; right; apply list_elem_of_here|].
  reflexivity.
Qed.

Lemma fetching_of_quiet {A : Type} (m : M A) :
  keeps quiet m -> keeps quiet_or_fetching m.
Proof. apply keeps_weaken. exact quiet_fetching. Qed.

Lemma fetching_parse_command input_string :
  keeps quiet_or_fetching (parse_command input_string).
Proof.
  apply kept_parse_command; try apply _;
    first [ exact fetching_think_fetch | exact fetching_think_fetch_current
          | intros; apply fetching_of_quiet; eauto with keeps typeclass_instances ].
Qed.

Lemma fetching_on_send_pressed : keeps quiet_or_fetching on_send_pressed.
Proof.
  pose proof fetching_parse_command.
  pose proof (fetching_of_quiet _ quiet_create_conversation).
  pose proof (fun s => fetching_of_quiet _ (quiet_set_input_text s)).
  unfold on_send_pressed.
  repeat first [solve [eauto] | keeps_step].
Qed.

Lemma queues_untouched (f : ChatClient -> ChatClient) :
  (forall st, threads (f st) = threads st) ->
  (forall st, call_after (f st) = call_after st) ->
  (forall st, same_controls st (f st)) ->
  keeps only_queues (modify f).
Proof.
  intros H1 H2 H3 st. unfold modify; simpl.
  split; [apply H1|].
  split; [exists []; rewrite app_nil_r; apply H2 | apply H3].
Qed.

Lemma queues_send q : keeps only_queues (send q).
Proof. apply queues_untouched; try reflexivity. intros st; repeat split. Qed.

Lemma queues_set_title p title : keeps only_queues (set_title p title).
Proof. apply queues_untouched; try reflexivity. intros st; repeat split. Qed.

Lemma queues_CallAfter c : keeps only_queues (CallAfter c).
Proof.
  intros st. unfold CallAfter, modify; simpl.
  split; [reflexivity|]. split; [exists [c]; reflexivity | repeat split].
Qed.

Lemma queues_run_thread completion randint t :
  keeps only_queues (run_thread completion randint t).
Proof.
  apply kept_run_thread; try apply _;
    first [exact queues_CallAfter | exact queues_send | exact queues_set_title].
Qed.

(** A completion thread of the frame that ends without an exception has
    queued the call that enables the controls. *)
Lemma surviving_worker_queues_stop completion randint t st :
  frame_completion t = true ->
  fst (run_thread completion randint t st) = Ret tt ->
  call_stop_thinking_state ∈ call_after (snd (run_thread completion randint t st)).
Proof.
  destruct t as [conv and_then truncate_before | conv and_then]; [|discriminate].
  simpl. intros Hcb.
  assert (Hcall : forall resp s,
    call_stop_thinking_state ∈ call_after (snd (and_then_call and_then resp s))).
  { intros resp s. rewrite and_then_call_queue. apply elem_of_app. right.
    destruct and_then; [| |discriminate]; simpl;
      apply elem_of_cons; right; apply list_elem_of_here. }
  unfold _get_next_completion_thread, mbind, M_bind, deref, send, modify,
    lift, mret, M_ret.
  destruct openai_api_key.
  - destruct (tree_of conv st); [|discriminate].
    destruct completion as [resp|e]; [|discriminate].
    intros _. apply Hcall.
  - intros _. apply Hcall.
Qed.

(** X11.  The controls are never left disabled for nothing.  When the
    frame is created, and after every event, as long as no completion
    thread of the frame ends in an exception: the three controls are
    enabled or disabled together, and if they are disabled then a
    completion thread of the frame has yet to run, or the call of
    [stop_thinking_state] is queued. *)
Theorem controls_disabled_only_while_fetching :
  never_stuck fresh /\
  (forall e st st',
     never_stuck st -> worker_survives e st -> handle e st = Some st' ->
     never_stuck st').
Proof.
  split; [split; [reflexivity|]; split; [reflexivity | discriminate]|].
  intros e st st' (Hl & Hn & Hpend) Hsurv He.
  assert (Hquiet : forall s, quiet st s -> never_stuck s).
  { intros s ([started Ht] & Hq & (Hb' & Hl' & Hn')).
    split; [congruence|]. split; [congruence|].
    intros Hoff. rewrite Hb' in Hoff.
    destruct (Hpend Hoff) as [(t & Hin & Hf) | Hstop].
    - left. exists t. split; [|exact Hf]. rewrite Ht. apply elem_of_app. auto.
    - right. rewrite Hq. exact Hstop. }
  destruct e as [text| | |selection| |i completion randint]; simpl in He.
  - injection He as <-. apply Hquiet, quiet_set_input_text.
  - destruct (right_button st) eqn:Hb; [|discriminate]. injection He as <-.
    destruct (fetching_on_send_pressed st)
      as (_ & _ & [(Hb' & Hl' & Hn') | (Hb' & Hl' & Hn' & t & Ht & Hf)]).
    + split; [congruence|]. split; [congruence|]. congruence.
    + split; [congruence|]. split; [congruence|].
      intros _. left. exists t. auto.
  - destruct (left_button st); [|discriminate]. injection He as <-.
    apply Hquiet, quiet_create_conversation.
  - destruct (left_list st); [|discriminate]. injection He as <-.
    apply Hquiet, quiet_on_conversation_list_selected.
  - destruct (call_after st) as [|c rest] eqn:Hq; [discriminate|].
    injection He as <-.
    destruct c as [sibling_level r c | r c |].
    + assert (Hk : keeps quiet (add_to_branch sibling_level r c;; mret tt))
        by (pose proof quiet_add_to_branch; keeps_auto).
      destruct (Hk (set_call_after rest st))
        as ([started Ht] & Hq' & (Hb' & Hl' & Hn')).
      simpl in *. split; [congruence|]. split; [congruence|].
      intros Hoff. rewrite Hb' in Hoff.
      destruct (Hpend Hoff) as [(t & Hin & Hf) | Hstop].
      * left. exists t. split; [|exact Hf]. rewrite Ht. apply elem_of_app. auto.
      * right. rewrite Hq'. unfold fetch_pending in Hstop. rewrite Hq in Hstop.
        apply elem_of_cons in Hstop as [Heq | Hin]; [discriminate | exact Hin].
    + destruct (quiet_add_to_conversation r c (set_call_after rest st))
        as ([started Ht] & Hq' & (Hb' & Hl' & Hn')).
      simpl in *. split; [congruence|]. split; [congruence|].
      intros Hoff. rewrite Hb' in Hoff.
      destruct (Hpend Hoff) as [(t & Hin & Hf) | Hstop].
      * left. exists t. split; [|exact Hf]. rewrite Ht. apply elem_of_app. auto.
      * right. rewrite Hq'. unfold fetch_pending in Hstop. rewrite Hq in Hstop.
        apply elem_of_cons in Hstop as [Heq | Hin]; [discriminate | exact Hin].
    + simpl. split; [reflexivity|]. split; [reflexivity | discriminate].
  - destruct (threads st !! i) as [t|] eqn:Hti; [|discriminate].
    injection He as <-.
    destruct (queues_run_thread completion randint t
                (set_threads (delete i (threads st)) st))
      as (Ht & [queued Hq'] & (Hb' & Hl' & Hn')).
    simpl in Ht, Hq', Hb', Hl', Hn'.
    split; [congruence|]. split; [congruence|].
    intros Hoff. rewrite Hb' in Hoff.
    destruct (Hpend Hoff) as [(t' & Hin & Hf) | Hstop].
    + apply list_elem_of_lookup in Hin as [j Hj].
      destruct (decide (j = i)) as [->|Hne].
      * assert (t' = t) as -> by congruence.
        right. apply surviving_worker_queues_stop; [exact Hf|].
        apply (Hsurv t Hti Hf).
      * left. exists t'. split; [|exact Hf]. rewrite Ht.
        destruct (decide (j < i)%nat).
        -- apply (list_elem_of_lookup_2 _ j).
           rewrite list_lookup_delete_lt by lia. exact Hj.
        -- destruct j as [|j]; [lia|].
           apply (list_elem_of_lookup_2 _ j).
           rewrite list_lookup_delete_ge by lia. exact Hj.
    + right. rewrite Hq'. apply elem_of_app. auto.
Qed.

(** *** The input box *)

#[local] Instance same_input_preorder : PreOrder same_input.
Proof.
  split; unfold same_input.
  - intros st. reflexivity.
  - intros a b c H1 H2. congruence.
Qed.

Lemma same_input_untouched (f : ChatClient -> ChatClient) :
  (forall st, input_text (f st) = input_text st) ->
  keeps same_input (modify f).
Proof. intros H st. apply H. Qed.

Lemma input_parse_command input_string :
  keeps same_input (parse_command input_string).
Proof.
  assert (Hupd : forall f, keeps same_input (update_current f)).
  { intros f. unfold update_current.
    repeat first [keeps_step | apply same_input_untouched; reflexivity]. }
  apply kept_parse_command; try apply _; try exact Hupd;
    intros; unfold start_thinking_state, get_next_completion;
    repeat first [keeps_step | apply same_input_untouched; reflexivity].
Qed.

Lemma send_after_conversation st1 :
  match (st' ← get; parse_command (input_text st');;
         modify (set_input_text "")) st1 with
  | (Ret _, s) => input_text s = ""
  | (Raise _, s) => input_text s = input_text st1
  end.
Proof.
  unfold mbind at 1, M_bind at 1, get at 1. cbv iota beta.
  unfold mbind at 1, M_bind at 1.
  pose proof (input_parse_command (input_text st1) st1) as Hkeep.
  unfold same_input in Hkeep.
  destruct (parse_command (input_text st1) st1) as [[[]|e] st2];
    cbv beta iota delta [snd] in Hkeep.
  - reflexivity.
  - exact Hkeep.
Qed.

(** X13.  Send empties the input box exactly when the command went
    through: if [on_send_pressed] ends normally the box is empty, and if
    an exception leaves [parse_command] the box holds what the user
    typed. *)
Theorem input_box_cleared_on_success st :
  match on_send_pressed st with
  | (Ret _, st') => input_text st' = ""
  | (Raise _, st') => input_text st' = input_text st
  end.
Proof.
  unfold on_send_pressed.
  unfold mbind at 1, M_bind at 1, get at 1. cbv iota beta.
  destruct (current_conversation st).
  - unfold mbind at 1, M_bind at 1, mret at 1, M_ret at 1. cbv iota beta.
    apply send_after_conversation.
  - unfold mbind at 1, M_bind at 1. rewrite create_conversation_runs.
    cbv iota beta.
    match goal with
    | |- context [set_right_text ?a ?b] =>
        exact (send_after_conversation (set_right_text a b))
    end.
Qed.

(** *** A title arrives *)

Lemma title_thread_callback_eq completion conv and_then st tree :
  tree_of conv st = Some tree ->
  openai_api_key = true ->
  3 <= len (get_current_conversation_as_dicts tree) ->
  forall resp, completion = Ret resp ->
    _get_title_for_conversation_thread completion conv and_then st
    = and_then_call and_then resp
        (set_requests
           (requests st
              ++ [title_request (get_current_conversation_as_dicts tree)]) st).
Proof.
  intros Hconv Hkey Hlen resp ->.
  unfold _get_title_for_conversation_thread. rewrite Hkey.
  unfold mbind, M_bind. rewrite (deref_tree _ _ _ Hconv).
  destruct (Z.leb_spec 3 (len (get_current_conversation_as_dicts tree))); [|lia].
  unfold send, modify, lift. simpl.
  destruct (and_then_call and_then resp _) as [[[]|e] st']; reflexivity.
Qed.

(** X14.  The title the model supplies becomes the title of the
    conversation the title thread was started for, and of no other.
    With a key, when the thread runs on a conversation of at least three
    messages and its call succeeds: the provider has been sent the
    conversation's current path, that conversation's title is the text
    of the reply, and every tree and every other title is as it was. *)
Theorem title_arrives st i idx p title conv resp randint :
  threads st !! i = Some (title_thread (Some p) (post_completion_title idx)) ->
  conversations st !! p = Some (title, conv) ->
  list_subscript (length (conversations st)) idx = Ret p ->
  openai_api_key = true ->
  3 <= len (get_current_conversation_as_dicts conv) ->
  exists st',
    handle (ev_thread i (Ret resp) randint) st = Some st' /\
    conversations st'
    = alter (fun c => (JStr (dict_content resp), snd c)) p (conversations st) /\
    conversations st' !! p = Some (JStr (dict_content resp), conv) /\
    (forall q, q <> p -> conversations st' !! q = conversations st !! q) /\
    requests st'
    = (requests st
         ++ [title_request (get_current_conversation_as_dicts conv)])%list /\
    threads st' = delete i (threads st) /\
    call_after st' = call_after st.
Proof.
  intros Hthread Hlook Hidx Hkey Hlen.
  eexists. split.
  { unfold handle. rewrite Hthread. unfold run_thread.
    assert (Htree : tree_of (Some p) (set_threads (delete i (threads st)) st)
                    = Some conv).
    { unfold tree_of. simpl. rewrite Hlook. reflexivity. }
    rewrite (title_thread_callback_eq (Ret resp) (Some p)
               (post_completion_title idx)
               (set_threads (delete i (threads st)) st) conv Htree Hkey Hlen resp
               eq_refl).
    unfold and_then_call, mbind, M_bind, get, lift.
    change (conversations
              (set_requests _ (set_threads (delete i (threads st)) st)))
      with (conversations st).
    rewrite Hidx. reflexivity. }
  split; [reflexivity|].
  split.
  { change (alter (fun c => (JStr (dict_content resp), snd c)) p (conversations st)
              !! p = Some (JStr (dict_content resp), conv)).
    rewrite list_lookup_alter_eq, Hlook. reflexivity. }
  split.
  { intros q Hq.
    change (alter (fun c => (JStr (dict_content resp), snd c)) p (conversations st)
              !! q = conversations st !! q).
    apply list_lookup_alter_ne. congruence. }
  repeat split.
Qed.

(** *** A conversation picked in the list *)

(** X15.  The list shows the newest conversation first: picking the
    item at position [sel] makes the conversation at
    [len(conversations) - 1 - sel] the current one, sets the index to
    that number and shows the conversation; no tree, title, control,
    thread or queued call changes.  With no item picked nothing
    happens. *)
Theorem picked_conversation_is_opened st sel :
  0 <= sel < len (conversations st) ->
  on_conversation_list_selected None st = (Ret tt, st) /\
  exists title conv,
    conversations st !! Z.to_nat (len (conversations st) - 1 - sel)
    = Some (title, conv) /\
    on_conversation_list_selected (Some sel) st
    = (Ret tt,
       set_right_text (rendering conv)
         (set_current_conversation
            (Some (Z.to_nat (len (conversations st) - 1 - sel)))
            (set_current_conversation_idx
               (JInt (len (conversations st) - 1 - sel)) st))).
Proof.
  intros Hsel. split; [reflexivity|]. unfold len in *.
  destruct (conversations st
              !! Z.to_nat (Z.of_nat (length (conversations st)) - 1 - sel))
    as [[title conv]|] eqn:Hlook.
  2: { apply lookup_ge_None in Hlook. lia. }
  exists title, conv. split; [reflexivity|].
  unfold on_conversation_list_selected.
  unfold mbind at 1, M_bind at 1, get at 1. cbv iota beta.
  unfold mbind at 1, M_bind at 1, modify at 1. cbv iota beta.
  unfold mbind at 1, M_bind at 1, lift at 1.
  unfold len. rewrite list_position_in_range by lia.
  unfold mbind at 1, M_bind at 1, modify at 1. cbv iota beta.
  erewrite refresh_conversation_detail_shows.
  2: { unfold tree_of. simpl. rewrite Hlook. reflexivity. }
  reflexivity.
Qed.

(** *** The serializer of the examples *)

Lemma json_message_json : forall m, json_message (message_json m) = Ret m.
Proof.
  fix IH 1. intros [r c cs k].
  cbn [message_json json_message].
  assert (Hcs :
    (fix each (l : list json) : outcome (list ChatMessage) :=
       match l with
       | [] => Ret []
       | j' :: l' =>
           match json_message j' with
           | Ret m =>
               match each l' with
               | Ret ms => Ret (m :: ms)
               | Raise e => Raise e
               end
           | Raise e => Raise e
           end
       end) (List.map message_json cs) = Ret cs).
  { induction cs as [|c' cs' IHcs]; [reflexivity|].
    cbn [List.map]. rewrite IH, IHcs. reflexivity. }
  rewrite Hcs. destruct k as [n|]; [|reflexivity].
  rewrite Nat2Z.id. reflexivity.
Qed.

Lemma json_tree_json t : json_tree (tree_json t) = Ret t.
Proof.
  destruct t as [[m|]]; [|reflexivity].
  unfold tree_json, json_tree. cbn [root].
  rewrite json_message_json. destruct m; reflexivity.
Qed.

(** *** A level out of range *)

(** X16.  [/nb N text] and [/nb N] with [N] off the current path
    change nothing but the transcript and raise nothing.  With text,
    when [N] is below 1 or not below the length of the path, the frame
    appends the range of the levels; without text, when [N] is negative
    or above the length of the path, it asks for a prompt. *)
Theorem nb_off_path_only_reports input_string p0 p1 st r title conv (N : Z) :
  current_conversation st = Some r ->
  conversations st !! r = Some (title, conv) ->
  startswith input_string "/nb" = true ->
  int p1 = Ret N ->
  (forall txt,
     split_maxsplit 2 input_string = [p0; p1; txt] ->
     ~ (1 <= N < len (get_current_conversation conv)) ->
     parse_command input_string st
     = (Ret tt,
        set_right_text
          (right_text st
             +:+ (nl +:+ nl
                  +:+ "requested sibling level for new-branch outside range (1 - "
                  +:+ str_int (len (get_current_conversation conv)) +:+ ")"))
          st)) /\
  (split_maxsplit 2 input_string = [p0; p1] ->
   N < 0 \/ len (get_current_conversation conv) < N ->
   parse_command input_string st
   = (Ret tt, set_right_text (right_text st +:+ prompt_required_text N) st)).
Proof.
  intros Hr Hlook Hnb Hint.
  assert (Hconv : tree_of (current_conversation st) st = Some conv).
  { rewrite Hr. unfold tree_of. rewrite Hlook. reflexivity. }
  pose proof (nb_not_sw _ Hnb) as Hsw.
  split.
  - intros txt Hsplit Hout.
    unfold parse_command. rewrite Hsw, Hnb, Hsplit.
    unfold mbind at 1, M_bind at 1, lift at 1. rewrite Hint. cbv iota beta.
    unfold new_branch.
    unfold mbind at 1, M_bind at 1, get at 1. cbv iota beta.
    unfold mbind at 1, M_bind at 1. rewrite (deref_tree _ _ _ Hconv).
    cbv iota beta zeta.
    destruct ((1 <=? N) && (N <? len (get_current_conversation conv))) eqn:E.
    { apply andb_true_iff in E. destruct E as [E1 E2].
      apply Z.leb_le in E1. apply Z.ltb_lt in E2. lia. }
    reflexivity.
  - intros Hsplit Hout.
    unfold parse_command. rewrite Hsw, Hnb, Hsplit.
    unfold mbind at 1, M_bind at 1, lift at 1. rewrite Hint. cbv iota beta.
    unfold mbind at 1, M_bind at 1.
    rewrite (role_at_level_unfold _ _ _ Hconv).
    assert (Hb : level_in_bounds N (get_current_conversation conv) = false).
    { unfold level_in_bounds. apply andb_false_iff.
      destruct Hout; [left | right]; apply Z.leb_gt; lia. }
    rewrite Hb. reflexivity.
Qed.

End Client.

(** * The theorems at concrete inputs *)

(** [role_at_level 3] on the three-message conversation. *)
Lemma role_at_level_at_length_witness :
  tree_of (current_conversation (frame_with (JStr "Greeting") hello_tree))
    (frame_with (JStr "Greeting") hello_tree) = Some hello_tree /\
  role_at_level 3 (frame_with (JStr "Greeting") hello_tree)
  = (Raise IndexError, frame_with (JStr "Greeting") hello_tree).
Proof.
  split; [reflexivity|].
  exact (proj1 (proj2 (role_at_level_at_length
                         (frame_with (JStr "Greeting") hello_tree) hello_tree
                         eq_refl))).
Defined.

(** A title worker with a key, on a conversation of two messages and on
    one of three. *)
Lemma title_thread_callback_witness :
  tree_of (Some 0%nat) (frame_with (JStr "Retrieving title...") waiting_tree)
  = Some waiting_tree /\
  _get_title_for_conversation_thread true (Ret (mkDict "assistant" "Greeting"))
    (Some 0%nat) (post_completion_title (JInt 0))
    (frame_with (JStr "Retrieving title...") waiting_tree)
  = (Ret tt, frame_with (JStr "Retrieving title...") waiting_tree) /\
  titles
    (snd (_get_title_for_conversation_thread true
            (Ret (mkDict "assistant" "Greeting")) (Some 0%nat)
            (post_completion_title (JInt 0))
            (frame_with (JStr "Retrieving title...") hello_tree)))
  = [JStr "Greeting"].
Proof.
  split; [reflexivity|]. split.
  - apply (proj1 (title_thread_callback true (Ret (mkDict "assistant" "Greeting"))
                    (Some 0%nat) (post_completion_title (JInt 0))
                    (frame_with (JStr "Retrieving title...") waiting_tree)
                    waiting_tree eq_refl)).
    right. vm_compute. reflexivity.
  - rewrite (proj2 (title_thread_callback true
                      (Ret (mkDict "assistant" "Greeting"))
                      (Some 0%nat) (post_completion_title (JInt 0))
                      (frame_with (JStr "Retrieving title...") hello_tree)
                      hello_tree eq_refl)
               eq_refl ltac:(vm_compute; discriminate)
               (mkDict "assistant" "Greeting") eq_refl).
    reflexivity.
Defined.

(** A completion worker with limit 2 on a path of five messages. *)
Lemma completion_request_prefix_witness :
  tree_of (Some 0%nat) (frame_with (JStr "Letters") five_tree) = Some five_tree /\
  requests
    (snd (_get_next_completion_thread true (Ret (mkDict "assistant" "E")) 0
            (Some 0%nat) (post_completion_branch 2) (Some 2)
            (frame_with (JStr "Letters") five_tree)))
  = [completion_request [mkDict "system" "S"; mkDict "user" "A"]].
Proof.
  split; [reflexivity|].
  exact (completion_request_prefix true (Ret (mkDict "assistant" "E")) 0
           (Some 0%nat) (post_completion_branch 2) 2%nat
           (frame_with (JStr "Letters") five_tree) five_tree eq_refl).
Defined.

(** A completion worker whose call raises. *)
Lemma failed_fetch_changes_nothing_witness :
  tree_of (Some 0%nat) (frame_with (JStr "New conversation") waiting_tree)
  = Some waiting_tree /\
  exists messages,
    _get_next_completion_thread true (Raise ProviderError) 0 (Some 0%nat)
      post_completion_conversation None
      (frame_with (JStr "New conversation") waiting_tree)
    = (Raise ProviderError,
       set_requests
         (requests (frame_with (JStr "New conversation") waiting_tree)
            ++ [completion_request messages])
         (frame_with (JStr "New conversation") waiting_tree)).
Proof.
  split; [reflexivity|].
  exact (failed_fetch_changes_nothing true ProviderError 0 (Some 0%nat)
           post_completion_conversation None
           (frame_with (JStr "New conversation") waiting_tree) waiting_tree
           eq_refl eq_refl).
Defined.

(** What a completion worker sends for the two-message conversation. *)
Lemma worker_reads_tree_in_place_witness :
  tree_of (Some 0%nat) (frame_with (JStr "New conversation") waiting_tree)
  = Some waiting_tree /\
  sends true (Ret (mkDict "assistant" "Hi!")) 0
    (completion_thread (Some 0%nat) post_completion_conversation None)
    (frame_with (JStr "New conversation") waiting_tree)
  = [completion_request
       [mkDict "system" "You are a helpful assistant."; mkDict "user" "Hello"]].
Proof.
  split; [reflexivity|].
  exact (proj1 (proj2 (worker_reads_tree_in_place true
                         (Ret (mkDict "assistant" "Hi!")) 0
                         (completion_thread (Some 0%nat)
                            post_completion_conversation None)
                         (frame_with (JStr "New conversation") waiting_tree)
                         waiting_tree eq_refl eq_refl))).
Defined.


(** [/nb 2 again], where the message at 2 is the assistant's, with the
    reply ["Good day!"] to the request it starts, and [/nb 1 Bonjour],
    where the message at 1 is the user's. *)
Lemma nb_command_in_range_witness :
  1 <= 2 < len (get_current_conversation hello_tree) /\
  parse_command some_text "/nb 2 again" (frame_with (JStr "Greeting") hello_tree)
  = (Ret tt,
     set_threads
       (threads (frame_with (JStr "Greeting") hello_tree)
          ++ [completion_thread (Some 0%nat) (post_completion_branch 2) (Some 2)])
       (thinking (frame_with (JStr "Greeting") hello_tree))) /\
  (exists conv',
     add_message "user" "Bonjour" (Some (1 - 1)) hello_tree = Ret conv' /\
     parse_command some_text "/nb 1 Bonjour"
       (frame_with (JStr "Greeting") hello_tree)
     = (Ret tt,
        set_threads
          (threads (frame_with (JStr "Greeting") hello_tree)
             ++ [completion_thread (Some 0%nat) post_completion_conversation None])
          (thinking (shown 0 conv' (frame_with (JStr "Greeting") hello_tree))))) /\
  exists conv' st',
    handle_all some_text true
      [ev_thread 0 (Ret (mkDict "assistant" "Good day!")) 0; ev_call]
      (snd (parse_command some_text "/nb 2 again"
              (frame_with (JStr "Greeting") hello_tree)))
    = Some st' /\
    conversations st' !! 0%nat = Some (JStr "Greeting", conv') /\
    get_current_conversation_as_dicts conv'
    = [mkDict "system" "You are a helpful assistant."; mkDict "user" "Hello";
       mkDict "assistant" "Good day!"] /\
    get_branch_width conv' 1 = Ret 2%nat /\
    requests st'
    = [completion_request
         [mkDict "system" "You are a helpful assistant."; mkDict "user" "Hello"]].
Proof.
  assert (Hrange : 1 <= 2 < len (get_current_conversation hello_tree))
    by (unfold len; simpl; lia).
  assert (Hrange' : 1 <= 1 < len (get_current_conversation hello_tree))
    by (unfold len; simpl; lia).
  pose proof (nb_command_in_range some_text true "/nb 2 again" "/nb" "2"
                (frame_with (JStr "Greeting") hello_tree) 0%nat
                (JStr "Greeting") hello_tree 2
                (mkChatMessage "assistant" "Hi!" [] None)
                eq_refl eq_refl eq_refl eq_refl Hrange eq_refl) as Hassistant.
  split; [exact Hrange|]. split; [|split].
  - apply (proj1 Hassistant eq_refl ["/nb"; "2"; "again"] eq_refl).
    right. exists "again". reflexivity.
  - apply (proj1 (proj1 (proj2 (nb_command_in_range some_text true
                                  "/nb 1 Bonjour" "/nb" "1"
                                  (frame_with (JStr "Greeting") hello_tree) 0%nat
                                  (JStr "Greeting") hello_tree 1
                                  (mkChatMessage "user" "Hello"
                                     [mkChatMessage "assistant" "Hi!" [] None]
                                     (Some 0%nat))
                                  eq_refl eq_refl eq_refl eq_refl Hrange' eq_refl))
                    ltac:(discriminate)) "Bonjour" eq_refl).
  - destruct (proj2 (proj2 (proj2 Hassistant)) eq_refl
                (or_intror (ex_intro _ "again" eq_refl)) eq_refl
                (mkDict "assistant" "Good day!") 0)
      as (conv' & parent & st' & Hall & Hadd & Hconv & _ & Hpath & _ & _ & Hreq).
    exists conv', st'.
    split; [exact Hall|]. split; [exact Hconv|]. split; [exact Hpath|].
    split; [|exact Hreq].
    vm_compute in Hadd. injection Hadd as <-. reflexivity.
Defined.

(** [/sw 1 x]. *)
Lemma sw_non_integer_raises_witness :
  split "/sw 1 x" = ["/sw"; "1"; "x"] /\
  parse_command some_text "/sw 1 x" fresh = (Raise ValueError, fresh).
Proof.
  split; [reflexivity|].
  apply (sw_non_integer_raises some_text "/sw 1 x" "/sw" "1" "x" fresh
           eq_refl eq_refl).
  intros a b [_ H]. vm_compute in H. discriminate H.
Defined.

(** [/nb 3] on the three-message conversation. *)
Lemma nb_at_length_raises_witness :
  int "3" = Ret (len (get_current_conversation hello_tree)) /\
  parse_command some_text "/nb 3" (frame_with (JStr "Greeting") hello_tree)
  = (Raise IndexError, frame_with (JStr "Greeting") hello_tree).
Proof.
  split; [reflexivity|].
  exact (nb_at_length_raises some_text "/nb 3" "/nb" "3"
           (frame_with (JStr "Greeting") hello_tree) hello_tree
           eq_refl eq_refl eq_refl eq_refl).
Defined.

(** A conversation picked in a frame whose index names its current
    conversation. *)
Lemma index_names_current_conversation_witness :
  coherent (two_frame "") /\
  selection_listed (ev_select (Some 1)) (two_frame "") /\
  coherent (snd (on_conversation_list_selected (Some 1) (two_frame ""))).
Proof.
  split; [reflexivity|]. split; [vm_compute; split; [discriminate | reflexivity]|].
  apply (proj2 (index_names_current_conversation some_text true)
           (ev_select (Some 1)) (two_frame "")).
  - reflexivity.
  - vm_compute; split; [discriminate | reflexivity].
  - reflexivity.
Defined.

(** ["Thanks"] sent to the conversation after a first exchange. *)
Lemma plain_text_is_sent_witness :
  startswith "Thanks" "/" = false /\
  exists conv',
    get_current_conversation_as_dicts conv'
    = [mkDict "system" "You are a helpful assistant."; mkDict "user" "Hello";
       mkDict "assistant" "Hi!"; mkDict "user" "Thanks"] /\
    parse_command some_text "Thanks" (frame_with (JStr "Greeting") hello_tree)
    = (Ret tt,
       set_threads
         [completion_thread (Some 0%nat) post_completion_conversation None]
         (thinking (shown 0 conv' (frame_with (JStr "Greeting") hello_tree)))).
Proof.
  split; [reflexivity|].
  destruct (plain_text_is_sent some_text "Thanks"
              (frame_with (JStr "Greeting") hello_tree) 0%nat (JStr "Greeting")
              hello_tree eq_refl eq_refl eq_refl eq_refl)
    as (conv' & _ & Hpath & Hcmd).
  exists conv'. split; [exact Hpath | exact Hcmd].
Defined.

(** ["Hello"] sent to a new conversation and answered, with a key. *)
Lemma message_sent_and_answered_witness :
  exists st',
    handle_all some_text true
      [ev_send; ev_thread 0 (Ret (mkDict "assistant" "Hi!")) 0; ev_call; ev_call]
      (set_input_text "Hello" (frame_with (JStr "New conversation") system_tree))
    = Some st' /\
    conversations st' !! 0%nat = Some (JStr "Retrieving title...", hello_tree) /\
    right_button st' = true /\ left_list st' = true /\ left_button st' = true /\
    threads st' = [title_thread (Some 0%nat) (post_completion_title (JInt 0))] /\
    requests st'
    = [completion_request
         [mkDict "system" "You are a helpful assistant."; mkDict "user" "Hello"]].
Proof.
  pose proof (message_sent_and_answered some_text true
                (set_input_text "Hello"
                   (frame_with (JStr "New conversation") system_tree))
                0%nat (JStr "New conversation") system_tree
                (mkDict "assistant" "Hi!") 0
                eq_refl eq_refl eq_refl eq_refl eq_refl eq_refl) as H.
  cbv zeta in H.
  destruct H as (conv1 & conv2 & st' & Hall & Ha1 & Ha2 & _ & Hconv & Hrb & Hll
                 & Hlb & _ & _ & Hth & Hreq).
  vm_compute in Ha1. injection Ha1 as <-.
  vm_compute in Ha2. injection Ha2 as <-.
  exists st'.
  split; [exact Hall|]. split; [exact Hconv|]. split; [exact Hrb|].
  split; [exact Hll|]. split; [exact Hlb|]. split; [exact Hth | exact Hreq].
Defined.

(** [/nb 2] on the conversation after a first exchange: the reply at
    level 2 is asked again. *)
Lemma reply_asked_again_witness :
  exists st',
    handle_all some_text true
      [ev_send; ev_thread 0 (Ret (mkDict "assistant" "Good day!")) 0;
       ev_call; ev_call]
      (set_input_text "/nb 2" (frame_with (JStr "Greeting") hello_tree))
    = Some st' /\
    right_button st' = true /\ left_list st' = true /\ left_button st' = true /\
    threads st' = [] /\
    requests st'
    = [completion_request
         [mkDict "system" "You are a helpful assistant."; mkDict "user" "Hello"]].
Proof.
  pose proof (reply_asked_again some_text true
                (set_input_text "/nb 2" (frame_with (JStr "Greeting") hello_tree))
                0%nat (JStr "Greeting") hello_tree "/nb" "2" 2
                (leaf "assistant" "Hi!") (mkDict "assistant" "Good day!") 0
                eq_refl eq_refl eq_refl eq_refl eq_refl
                (or_introl eq_refl) eq_refl
                ltac:(vm_compute; split; [discriminate | reflexivity])
                eq_refl eq_refl) as H.
  cbv zeta in H.
  destruct H as (conv' & st' & Hall & _ & _ & _ & Hrb & Hll & Hlb & _ & _ & Hth
                 & Hreq).
  exists st'.
  split; [exact Hall|]. split; [exact Hrb|]. split; [exact Hll|].
  split; [exact Hlb|]. split; [exact Hth | exact Hreq].
Defined.

(** The conversation after a first exchange, shown. *)
Lemma conversation_is_always_shown_witness :
  tree_of (current_conversation (frame_with (JStr "Greeting") hello_tree))
    (frame_with (JStr "Greeting") hello_tree) = Some hello_tree /\
  exists text,
    stringify_conversation hello_tree = Ret text /\
    refresh_conversation_detail (frame_with (JStr "Greeting") hello_tree)
    = (Ret tt, set_right_text text (frame_with (JStr "Greeting") hello_tree)).
Proof.
  split; [reflexivity|].
  exact (proj2 conversation_is_always_shown
           (frame_with (JStr "Greeting") hello_tree) hello_tree eq_refl).
Defined.

(** The frame with two conversations, saved with the serializer of the
    examples and loaded into a new frame. *)
Lemma saved_state_is_loaded_witness :
  exists title conv,
    conversations (two_frame "") !! 1%nat = Some (title, conv) /\
    load json_tree (Ret (save tree_json (two_frame ""))) fresh
    = (Ret tt,
       set_right_text (rendering conv)
         (set_current_conversation (Some 1%nat)
            (set_current_conversation_idx (JInt 1)
               (set_conversations (conversations (two_frame "")) fresh)))).
Proof.
  exact (saved_state_is_loaded tree_json json_tree (two_frame "") fresh 1%nat
           json_tree_json eq_refl).
Defined.

(** A message sent to the second conversation leaves the first one's
    tree alone. *)
Lemma other_conversations_untouched_witness :
  exists title',
    conversations (snd (on_send_pressed some_text (two_frame "E"))) !! 0%nat
    = Some (title', hello_tree).
Proof.
  exact (other_conversations_untouched some_text true ev_send (two_frame "E")
           (snd (on_send_pressed some_text (two_frame "E"))) 0%nat
           (JStr "Greeting") hello_tree eq_refl ltac:(discriminate) eq_refl).
Defined.

(** The waiting frame's completion thread runs, its call succeeds: the
    controls are disabled and the call that enables them is queued. *)
Lemma controls_disabled_only_while_fetching_witness :
  never_stuck fetching_frame /\
  worker_survives true (ev_thread 0 (Ret (mkDict "assistant" "Hi!")) 0)
    fetching_frame /\
  exists st',
    handle some_text true (ev_thread 0 (Ret (mkDict "assistant" "Hi!")) 0)
      fetching_frame = Some st' /\
    never_stuck st'.
Proof.
  assert (Hstuck : never_stuck fetching_frame).
  { split; [reflexivity|]. split; [reflexivity|]. intros _. left.
    exists (completion_thread (Some 0%nat) post_completion_conversation None).
    split; [apply list_elem_of_here | reflexivity]. }
  assert (Hworker : worker_survives true
                      (ev_thread 0 (Ret (mkDict "assistant" "Hi!")) 0)
                      fetching_frame).
  { intros t Ht _. injection Ht as <-. vm_compute. reflexivity. }
  split; [exact Hstuck|]. split; [exact Hworker|].
  eexists. split; [reflexivity|].
  exact (proj2 (controls_disabled_only_while_fetching some_text true)
           (ev_thread 0 (Ret (mkDict "assistant" "Hi!")) 0) fetching_frame _
           Hstuck Hworker eq_refl).
Defined.

(** The title thread of the waiting frame runs, with a key, and its
    call succeeds. *)
Lemma title_arrives_witness :
  3 <= len (get_current_conversation_as_dicts hello_tree) /\
  exists st',
    handle some_text true
      (ev_thread 0 (Ret (mkDict "assistant" "Greeting")) 0) titling_frame
    = Some st' /\
    conversations st' !! 0%nat = Some (JStr "Greeting", hello_tree) /\
    requests st'
    = [title_request
         [mkDict "system" "You are a helpful assistant."; mkDict "user" "Hello";
          mkDict "assistant" "Hi!"]].
Proof.
  assert (Hlen : 3 <= len (get_current_conversation_as_dicts hello_tree)).
  { vm_compute. discriminate. }
  split; [exact Hlen|].
  destruct (title_arrives some_text true titling_frame 0%nat (JInt 0) 0%nat
              (JStr "Retrieving title...") hello_tree
              (mkDict "assistant" "Greeting") 0
              eq_refl eq_refl eq_refl eq_refl Hlen)
    as (st' & Hh & _ & Hconv & _ & Hreq & _).
  exists st'. split; [exact Hh|]. split; [exact Hconv | exact Hreq].
Defined.

(** The first item of the list of a frame with two conversations is its
    second conversation. *)
Lemma picked_conversation_is_opened_witness :
  0 <= 0 < len (conversations (two_frame "")) /\
  on_conversation_list_selected (Some 0) (two_frame "")
  = (Ret tt, two_frame "") /\
  exists title conv,
    conversations (two_frame "") !! 0%nat = Some (title, conv) /\
    on_conversation_list_selected (Some 1) (two_frame "")
    = (Ret tt,
       set_right_text (rendering conv)
         (set_current_conversation (Some 0%nat)
            (set_current_conversation_idx (JInt 0) (two_frame "")))).
Proof.
  assert (H0 : 0 <= 0 < len (conversations (two_frame ""))) by (vm_compute; split; [discriminate | reflexivity]).
  assert (H1 : 0 <= 1 < len (conversations (two_frame ""))) by (vm_compute; split; [discriminate | reflexivity]).
  split; [exact H0|]. split.
  - destruct (proj2 (picked_conversation_is_opened (two_frame "") 0 H0))
      as (title & conv & Hlook & Heq).
    vm_compute in Hlook. injection Hlook as <- <-.
    rewrite Heq. reflexivity.
  - exact (proj2 (picked_conversation_is_opened (two_frame "") 1 H1)).
Defined.

(** [/nb 7 Bonjour] and [/nb 7] on a path of three messages. *)
Lemma nb_off_path_only_reports_witness :
  ~ (1 <= 7 < len (get_current_conversation hello_tree)) /\
  parse_command some_text "/nb 7 Bonjour" (frame_with (JStr "Greeting") hello_tree)
  = (Ret tt,
     set_right_text
       (right_text (frame_with (JStr "Greeting") hello_tree)
          +:+ (nl +:+ nl
               +:+ "requested sibling level for new-branch outside range (1 - "
               +:+ str_int 3 +:+ ")"))
       (frame_with (JStr "Greeting") hello_tree)) /\
  parse_command some_text "/nb 7" (frame_with (JStr "Greeting") hello_tree)
  = (Ret tt,
     set_right_text
       (right_text (frame_with (JStr "Greeting") hello_tree)
          +:+ prompt_required_text 7)
       (frame_with (JStr "Greeting") hello_tree)).
Proof.
  assert (Hout : ~ (1 <= 7 < len (get_current_conversation hello_tree))).
  { intros [_ H]. vm_compute in H. discriminate. }
  split; [exact Hout|]. split.
  - exact (proj1 (nb_off_path_only_reports some_text "/nb 7 Bonjour" "/nb" "7"
                    (frame_with (JStr "Greeting") hello_tree) 0%nat
                    (JStr "Greeting") hello_tree 7 eq_refl eq_refl eq_refl eq_refl)
             "Bonjour" eq_refl Hout).
  - refine (proj2 (nb_off_path_only_reports some_text "/nb 7" "/nb" "7"
                     (frame_with (JStr "Greeting") hello_tree) 0%nat
                     (JStr "Greeting") hello_tree 7 eq_refl eq_refl eq_refl eq_refl)
              eq_refl _).
    right. vm_compute. reflexivity.
Defined.

(** * Where the code departs from the specification *)

(** C1 (counterexample).  The user sends ["Hello"] and the completion
    call raises.  The thread was the only one and ends without queuing a
    call: the transcript is what it was while fetching, with no error in
    it, the trees are untouched, and the three controls are disabled, and
    stay so whatever the user does from then on. *)
Lemma provider_failure_leaves_frame_stuck :
  let st := after some_text true [ev_type "Hello"; ev_send] fresh in
  let st' := after some_text true [ev_thread 0 (Raise ProviderError) 0] st in
  threads st = [completion_thread (Some 0%nat) post_completion_conversation None] /\
  handle some_text true (ev_thread 0 (Raise ProviderError) 0) st = Some st' /\
  right_text st' = right_text st /\
  map snd (conversations st') = map snd (conversations st) /\
  right_button st' = false /\ left_list st' = false /\ left_button st' = false /\
  forall es st'',
    handle_all some_text true es st' = Some st'' ->
    right_button st'' = false /\ right_text st'' = right_text st.
Proof.
  intros st st'.
  assert (Hstuck : right_button st' = false /\ left_list st' = false /\
                   left_button st' = false /\ threads st' = [] /\
                   call_after st' = [] /\ right_text st' = right_text st)
    by (vm_compute; repeat split; reflexivity).
  destruct Hstuck as (Hb & Hl & Hn & Ht & Hc & Htext).
  split; [vm_compute; reflexivity|].
  split; [vm_compute; reflexivity|].
  split; [exact Htext|].
  split; [vm_compute; reflexivity|].
  split; [exact Hb|]. split; [exact Hl|]. split; [exact Hn|].
  intros es st'' H.
  destruct (nothing_pending_stays some_text true es st' st'' Hb Hl Hn Ht Hc H)
    as (Hb' & _ & _ & Htext' & _).
  split; [exact Hb' | congruence].
Qed.

(** C2 (counterexample).  After a first exchange the frame has started
    the title thread on the conversation, whose path then has three
    messages.  The frame goes on: it re-enables the controls and the user
    sends ["More"].  The title thread, still not run, would now send a
    path of four messages: it reads the tree, it was given no copy. *)
Lemma worker_sees_later_mutation :
  let reply := Ret (mkDict "assistant" "Greeting") in
  let t := title_thread (Some 0%nat) (post_completion_title (JInt 0)) in
  let st_issue := after some_text true first_exchange fresh in
  let st_run := after some_text true [ev_call; ev_type "More"; ev_send] st_issue in
  handle_all some_text true first_exchange fresh = Some st_issue /\
  threads st_issue = [t] /\
  handle_all some_text true [ev_call; ev_type "More"; ev_send] st_issue
  = Some st_run /\
  threads st_run !! 0%nat = Some t /\
  sends true reply 0 t st_issue
  = [title_request
       [mkDict "system" "You are a helpful assistant."; mkDict "user" "Hello";
        mkDict "assistant" "Hi!"]] /\
  sends true reply 0 t st_run
  = [title_request
       [mkDict "system" "You are a helpful assistant."; mkDict "user" "Hello";
        mkDict "assistant" "Hi!"; mkDict "user" "More"]] /\
  sends true reply 0 t st_run <> sends true reply 0 t st_issue.
Proof.
  intros reply t st_issue st_run.
  do 6 (split; [vm_compute; reflexivity|]).
  intros H. vm_compute in H. discriminate H.
Qed.

